(** * secureFileManager: the sandboxed file store and the archive validator

    A shallow embedding of
      - [services/file_service.py]      (FileService),
      - [services/archive_service.py]   (ArchiveService),
      - [services/json_xml_service.py]  (JsonXmlService),
      - [services/crypto_service.py]    (CryptoService.calculate_file_checksum),
      - [services/operation_service.py] (OperationService.log_operation),
    followed by the properties of the specification that concern them.

    Conventions of the model.
      - A Python [str] is the list of its code points, a [bytes] value a list
        of bytes, an [int] a [Z], a [float] an IEEE 754 binary64 number
        ([SpecFloat], precision 53, round to nearest even).
      - A raised exception is the [Err] branch of [result]; the constructors
        of [error] stand for the messages of the source.
      - The database session, the disk and the audit table are the fields of
        one [World] record that every operation threads through.
      - The disk holds regular files and directories only: the store never
        creates a symbolic link, so [Path.resolve] is the lexical
        normalisation of an absolute path.
      - Library code the services call (hashlib, Fernet, json, ElementTree,
        mimetypes, the UTF-8 codec) is the interface [Platform], which also
        tells which of its two float loops the builtin [sum] runs.
      - A log record keeps the text of its message up to the first
        interpolated size, count or exception. *)

From Stdlib Require Import ZArith NArith QArith List String Ascii Bool Lia.
From Stdlib Require Import DecimalString DecimalZ DecimalPos.
From Stdlib Require SpecFloat.
From stdpp Require Import gmap list.

#[local] Set Warnings "-register-all".
#[local] Open Scope Z_scope.

(** ** Python values *)

Definition str := list N.
Definition bytes := list Byte.byte.

(** Code points of a literal. *)
Definition py (s : string) : str :=
  List.map N_of_ascii (list_ascii_of_string s).

(** [str(n)] for an [int]. *)
Definition str_of_int (n : Z) : str :=
  py (NilZero.string_of_int (Z.to_int n)).

Definition len {A} (l : list A) : Z := Z.of_nat (List.length l).

(** ** float *)

Definition float : Type := SpecFloat.spec_float.

Definition float_zero : float := SpecFloat.S754_zero false.

(** [float(n)] *)
Definition float_of_int (n : Z) : float :=
  SpecFloat.binary_normalize 53 1024 n 0 false.

Definition float_add (a b : float) : float := SpecFloat.SFadd 53 1024 a b.
Definition float_sub (a b : float) : float := SpecFloat.SFsub 53 1024 a b.
Definition float_div (a b : float) : float := SpecFloat.SFdiv 53 1024 a b.
Definition fabs (a : float) : float := SpecFloat.SFabs a.

(** [a > b] and [a >= b]; both are false when one side is a NaN.  Python
    compares a float with an [int] as numbers: for the ints 50 and 100 of the
    validator, which are floats exactly, that is the comparison with
    [float_of_int] of them. *)
Definition float_gt (a b : float) : bool := SpecFloat.SFltb b a.
Definition float_ge (a b : float) : bool := SpecFloat.SFleb b a.

Definition is_finite (a : float) : bool :=
  match a with
  | SpecFloat.S754_zero _ | SpecFloat.S754_finite _ _ _ => true
  | _ => false
  end.

Definition is_zero (a : float) : bool :=
  match a with SpecFloat.S754_zero _ => true | _ => false end.

(** An [int] as the numerator or denominator of a quotient: all its bits. *)
Definition int_operand (n : Z) : float :=
  match n with
  | Z0 => SpecFloat.S754_zero false
  | Zpos m => SpecFloat.S754_finite false m 0
  | Zneg m => SpecFloat.S754_finite true m 0
  end.

(** [a / b] for two [int]s, [b] not zero: the quotient of the integers,
    rounded once.  Where the rounded quotient is infinite Python raises
    OverflowError; that takes a quotient of 2^1024. *)
Definition int_truediv (a b : Z) : float :=
  SpecFloat.SFdiv 53 1024 (int_operand a) (int_operand b).

(** The float loop of the builtin [sum] in CPython up to 3.11:
    [f_result += x]. *)
Fixpoint sum_plain (f_result : float) (items : list float) : float :=
  match items with
  | [] => f_result
  | x :: rest => sum_plain (float_add f_result x) rest
  end.

(** The float loop of the builtin [sum] from CPython 3.12 on, which carries
    Neumaier's compensation [c] and adds it at the end when it is neither
    zero nor infinite. *)
Fixpoint sum_compensated (f_result c : float) (items : list float) : float :=
  match items with
  | [] =>
      if negb (is_zero c) && is_finite c then float_add f_result c
      else f_result
  | x :: rest =>
      let t := float_add f_result x in
      let c :=
        if float_ge (fabs f_result) (fabs x)
        then float_add c (float_add (float_sub f_result t) x)
        else float_add c (float_add (float_sub x t) f_result) in
      sum_compensated t c rest
  end.

Definition ch_dot : N := 46.
Definition ch_underscore : N := 95.
Definition ch_slash : N := 47.

(** [s.replace(c, r)] for a one-character [c]. *)
Definition replace_char (c : N) (r : N) (s : str) : str :=
  List.map (fun x => if N.eqb x c then r else x) s.

(** [s.replace('..', '_')]: left to right, occurrences do not overlap. *)
Fixpoint replace_dotdot (s : str) : str :=
  match s with
  | a :: tl =>
      match tl with
      | b :: rest =>
          if N.eqb a ch_dot && N.eqb b ch_dot
          then ch_underscore :: replace_dotdot rest
          else a :: replace_dotdot tl
      | [] => [a]
      end
  | [] => []
  end.

Fixpoint lstrip_by (p : N -> bool) (s : str) : str :=
  match s with
  | c :: tl => if p c then lstrip_by p tl else s
  | [] => []
  end.

Definition strip_by (p : N -> bool) (s : str) : str :=
  List.rev (lstrip_by p (List.rev (lstrip_by p s))).

Definition mem_char (cs : str) (c : N) : bool :=
  List.existsb (N.eqb c) cs.

(** [str.isspace] on one code point (the table of CPython). *)
Definition is_space (c : N) : bool :=
  ((9 <=? c) && (c <=? 13) || (28 <=? c) && (c <=? 32)
   || (c =? 133) || (c =? 160) || (c =? 5760)
   || (8192 <=? c) && (c <=? 8202)
   || (c =? 8232) || (c =? 8233) || (c =? 8239) || (c =? 8287)
   || (c =? 12288))%N.

(** [s.strip(chars)] and [s.strip()]. *)
Definition strip_chars (cs : str) (s : str) : str := strip_by (mem_char cs) s.
Definition strip (s : str) : str := strip_by is_space s.

Fixpoint starts_with (p s : str) : bool :=
  match p, s with
  | [], _ => true
  | a :: p', b :: s' => N.eqb a b && starts_with p' s'
  | _ :: _, [] => false
  end.

Definition ends_with (suffix s : str) : bool :=
  starts_with (List.rev suffix) (List.rev s).

(** [sub in s] for strings. *)
Fixpoint contains (sub s : str) : bool :=
  starts_with sub s ||
  match s with
  | _ :: tl => contains sub tl
  | [] => false
  end.

(** [s.lower()] and [s.upper()] on the ASCII letters.  No other code point
    lowers to a character of [".json"] or [".xml"], which is all the source
    asks of [lower]; [upper] is compared with ASCII device names only. *)
Definition lower_char (c : N) : N :=
  if ((65 <=? c) && (c <=? 90))%N then (c + 32)%N else c.
Definition upper_char (c : N) : N :=
  if ((97 <=? c) && (c <=? 122))%N then (c - 32)%N else c.
Definition lower (s : str) : str := List.map lower_char s.
Definition upper (s : str) : str := List.map upper_char s.

(** [s.split(sep)] for a one-character separator: the fields, in order. *)
Fixpoint split_on (sep : N) (s : str) : list str :=
  match s with
  | [] => [[]]
  | c :: tl =>
      if N.eqb c sep then [] :: split_on sep tl
      else match split_on sep tl with
           | f :: fs => (c :: f) :: fs
           | [] => [[c]]
           end
  end.

(** [len(s.encode('utf-8'))]. *)
Definition utf8_width (c : N) : Z :=
  if (c <? 128)%N then 1 else if (c <? 2048)%N then 2
  else if (c <? 65536)%N then 3 else 4.
Definition utf8_len (s : str) : Z :=
  List.fold_right (fun c n => utf8_width c + n) 0 s.

(** ** Exceptions *)

Inductive error : Type :=
  | InvalidName            (* "Filename must be 1-255 characters long",
                              "Invalid filename after sanitization" *)
  | PathTraversal          (* "Path traversal attempt detected!",
                              "Path traversal attempt: ..." *)
  | SizeLimitExceeded      (* "File size exceeds maximum allowed (...)" *)
  | InvalidFormat          (* "Invalid JSON format", "Invalid XML format" *)
  | DuplicateName          (* "File with this name already exists" *)
  | NotFound               (* "File not found or access denied",
                              "File not found on disk" *)
  | NotSupported           (* "Encrypted file reading/updating not
                              implemented in this demo" *)
  | EntryTooLarge          (* "File ... exceeds size limit" *)
  | SuspiciousCompressionRatio
                           (* "Suspicious compression ratio detected for
                              ...", "Average compression ratio is
                              suspiciously high (potential ZIP bomb)" *)
  | DangerousPath          (* "Dangerous path detected: ..." *)
  | ArchiveTooManyFiles    (* "Archive contains too many files (...)" *)
  | ArchiveTooLarge        (* "Archive uncompressed size exceeds limit" *)
  | ReservedName           (* "Reserved filename: ..." *)
  | MultipleResultsFound   (* raised by [scalar_one_or_none] *)
  | OSError                (* an exception of the file system *)
  | ContentTooLarge        (* "JSON/XML content too large: ..." *)
  | MalformedContent       (* "Invalid JSON format: ...", "Invalid XML
                              format: ..." of the loaders *)
  | NestingTooDeep         (* "JSON nesting too deep: ..." *)
  | TooManyElements        (* "Too many XML elements: ..." *)
  | ExtractionFailed (cause : error).
                           (* "Archive extraction failed: {e}" *)

Inductive result (A : Type) : Type :=
  | Ok (a : A)
  | Err (e : error).
Arguments Ok {A} a.
Arguments Err {A} e.

Definition is_ok {A} (r : result A) : bool :=
  match r with Ok _ => true | Err _ => false end.

(** ** FileService._validate_filename *)

Definition dangerous_chars : str := py "<>:" ++ [34%N] ++ py "|?*\/" ++ [0%N].

Definition _validate_filename (filename : str) : result str :=
  if (len filename =? 0) || (255 <? len filename) then Err InvalidName
  else
    let filename :=
      List.fold_left (fun f c => replace_char c ch_underscore f)
        dangerous_chars filename in
    let filename := replace_dotdot filename in
    match strip_chars [ch_dot; ch_underscore] filename with
    | [] => Err InvalidName
    | _ :: _ => Ok (strip filename)
    end.

(** ** pathlib on a POSIX file system without symbolic links

    An absolute path is the list of its components below [/]. *)

Definition path := list str.

(** The components of a path string: empty fields and ["."] are dropped. *)
Definition parse_path (s : str) : path :=
  List.filter (fun c => negb (bool_decide (c = []) || bool_decide (c = [ch_dot])))
    (split_on ch_slash s).

(** [base / s]: an absolute [s] replaces [base]. *)
Definition path_join (base : path) (s : str) : path :=
  if starts_with [ch_slash] s then parse_path s else base ++ parse_path s.

(** [p.resolve()]: [".."] pops a component and is a no-op at the root. *)
Definition resolve (p : path) : path :=
  List.fold_left
    (fun acc c =>
       if bool_decide (c = [ch_dot; ch_dot]) then removelast acc
       else acc ++ [c])
    p [].

(** [p.relative_to(base)]: the remainder, [None] for the ValueError. *)
Fixpoint relative_to (p base : path) : option path :=
  match base, p with
  | [], _ => Some p
  | b :: base', c :: p' =>
      if bool_decide (b = c) then relative_to p' base' else None
  | _ :: _, [] => None
  end.

(** [p.name]. *)
Definition path_name (p : path) : str := List.last p [].

(** ** Values of [json.loads] and trees of [ElementTree] *)

Inductive pyval : Type :=
  | PNone
  | PBool (b : bool)
  | PNum (literal : str)
  | PStr (s : str)
  | PList (items : list pyval)
  | PDict (entries : list (str * pyval)).

Inductive Element : Type :=
  | mkElement (tag : str) (attrib : list (str * str)) (text : option str)
      (children : list Element).

Definition elem_tag (e : Element) : str :=
  match e with mkElement t _ _ _ => t end.

(** [d[k]] and [d[k] = v] on an insertion-ordered dict. *)
Fixpoint dict_get (d : list (str * pyval)) (k : str) : option pyval :=
  match d with
  | [] => None
  | (k', v) :: tl => if bool_decide (k' = k) then Some v else dict_get tl k
  end.

Fixpoint dict_set (d : list (str * pyval)) (k : str) (v : pyval)
  : list (str * pyval) :=
  match d with
  | [] => [(k, v)]
  | (k', v') :: tl =>
      if bool_decide (k' = k) then (k, v) :: tl else (k', v') :: dict_set tl k v
  end.

(** ** The library interface *)

Class Platform : Type := {
  (** [hashlib.sha256(data).hexdigest()] *)
  sha256_hexdigest : bytes -> str;
  (** [Fernet.generate_key()] and [Fernet(key).encrypt(data)], from the state
      of the system's random source *)
  fernet_generate_key : N -> bytes;
  fernet_encrypt : N -> bytes -> bytes -> bytes;
  (** [content.decode('utf-8', errors='replace')] *)
  utf8_decode_replace : bytes -> str;
  (** [json.loads]; [None] is JSONDecodeError *)
  json_loads : str -> option pyval;
  (** [ET.fromstring] with the entity-refusing parser; [None] is ParseError
      or the parser's ValueError *)
  xml_fromstring : str -> option Element;
  (** [mimetypes.guess_type(name)[0]] *)
  guess_type : str -> option str;
  (** whether the builtin [sum] compensates over floats (CPython 3.12 and
      later) or adds them from left to right *)
  sum_compensates : bool;
}.

(** [sum(items)] for a list of floats.  The start value is the [int] 0: the
    first float is added to it, and the float loop takes over from there. *)
Definition py_sum `{Platform} (items : list float) : float :=
  match items with
  | [] => float_zero
  | x :: rest =>
      let f_result := float_add float_zero x in
      if sum_compensates then sum_compensated f_result float_zero rest
      else sum_plain f_result rest
  end.

(** ** config.Settings (the fields the services read) *)

Record Settings : Type := {
  root_path : path;            (* Path(settings.root_storage_path) *)
  max_file_size : Z;
  max_zip_size : Z;
  max_archive_files : Z;
}.

Definition default_settings : Settings :=
  {| root_path := [py "app"; py "safe_storage"];
     max_file_size := 104857600;
     max_zip_size := 10485760;
     max_archive_files := 1000 |}.

(** ** models *)

Module User.
Record t : Type := { id : Z; username : str }.
End User.

Module File.
Record t : Type := {
  id : Z;
  filename : str;
  original_name : str;
  size : Z;
  mime_type : option str;
  checksum : option str;
  storage_path : path;
  is_encrypted : bool;
  owner_id : Z;
  directory_id : option Z;
}.
End File.

Inductive OperationType : Type :=
  | CREATE | READ | UPDATE | DELETE | MOVE | COPY
  | ARCHIVE_CREATE | ARCHIVE_EXTRACT | LOGIN | LOGOUT | PERMISSION_DENIED.

Module Operation.
Record t : Type := {
  operation_type : OperationType;
  details : str;
  ip_address : option str;
  success : bool;
  error_message : option error;     (* [str(e)] of the failure *)
  user_id : Z;
  file_id : option Z;
}.
End Operation.

(** [zipfile.ZipInfo], with the bytes [zipf.read] returns for the entry. *)
Module ZipInfo.
Record t : Type := {
  filename : str;
  file_size : Z;
  compress_size : Z;
  payload : bytes;
}.
Definition is_dir (info : t) : bool := ends_with [ch_slash] (filename info).
End ZipInfo.

(** ** The world: tables, disk, log *)

Inductive node : Type :=
  | RegularFile (data : bytes)
  | Directory.

Inductive Level : Type := DEBUG | INFO | WARNING | ERROR.

Record LogRecord : Type := { level : Level; message : str }.

Record World : Type := {
  files : gmap Z File.t;          (* table [files], by primary key *)
  file_seq : Z;                   (* the next value of the id sequence *)
  operations : list Operation.t;  (* table [operations], oldest first *)
  disk : gmap path node;
  log : list LogRecord;           (* loguru, oldest first *)
  entropy : N;                    (* state of the random source *)
  decompressed : list str;        (* ghost: entries handed to [zipf.read] *)
}.

Definition with_files (f : gmap Z File.t) (w : World) : World :=
  {| files := f; file_seq := file_seq w; operations := operations w;
     disk := disk w; log := log w; entropy := entropy w;
     decompressed := decompressed w |}.
Definition with_file_seq (n : Z) (w : World) : World :=
  {| files := files w; file_seq := n; operations := operations w;
     disk := disk w; log := log w; entropy := entropy w;
     decompressed := decompressed w |}.
Definition with_operations (o : list Operation.t) (w : World) : World :=
  {| files := files w; file_seq := file_seq w; operations := o;
     disk := disk w; log := log w; entropy := entropy w;
     decompressed := decompressed w |}.
Definition with_disk (d : gmap path node) (w : World) : World :=
  {| files := files w; file_seq := file_seq w; operations := operations w;
     disk := d; log := log w; entropy := entropy w;
     decompressed := decompressed w |}.
Definition with_log (l : list LogRecord) (w : World) : World :=
  {| files := files w; file_seq := file_seq w; operations := operations w;
     disk := disk w; log := l; entropy := entropy w;
     decompressed := decompressed w |}.
Definition with_decompressed (l : list str) (w : World) : World :=
  {| files := files w; file_seq := file_seq w; operations := operations w;
     disk := disk w; log := log w; entropy := entropy w;
     decompressed := l |}.
Definition with_entropy (n : N) (w : World) : World :=
  {| files := files w; file_seq := file_seq w; operations := operations w;
     disk := disk w; log := log w; entropy := n;
     decompressed := decompressed w |}.

(** ** Computations that may raise *)

Definition M (A : Type) : Type := World -> result A * World.

Definition ret {A} (a : A) : M A := fun w => (Ok a, w).
Definition raise {A} (e : error) : M A := fun w => (Err e, w).
Definition bind {A B} (m : M A) (k : A -> M B) : M B :=
  fun w =>
    match m w with
    | (Ok a, w') => k a w'
    | (Err e, w') => (Err e, w')
    end.
(** [try: m  except Exception as e: h e] *)
Definition try_except {A} (m : M A) (h : error -> M A) : M A :=
  fun w =>
    match m w with
    | (Ok a, w') => (Ok a, w')
    | (Err e, w') => h e w'
    end.
(** [try: m  finally: f] *)
Definition try_finally {A} (m : M A) (f : M unit) : M A :=
  fun w =>
    match m w with
    | (r, w') =>
        match f w' with
        | (Ok _, w'') => (r, w'')
        | (Err e, w'') => (Err e, w'')
        end
    end.
Definition get : M World := fun w => (Ok w, w).
Definition modify (f : World -> World) : M unit := fun w => (Ok tt, f w).
Definition lift {A} (r : result A) : M A := fun w => (r, w).

Notation "'let*' x ':=' m 'in' k" := (bind m (fun x => k))
  (at level 10, x name, m at level 100, k at level 200).
Notation "m '>>' k" := (bind m (fun _ => k))
  (at level 100, k at level 200, right associativity).

(** [if c: raise e] *)
Definition raise_if (c : bool) (e : error) : M unit :=
  if c then raise e else ret tt.

(** [for x in xs: body x], stopping at the first exception. *)
Fixpoint for_each {A} (xs : list A) (body : A -> M unit) : M unit :=
  match xs with
  | [] => ret tt
  | x :: tl => body x >> for_each tl body
  end.

(** ** loguru *)

Definition logger (lvl : Level) (msg : str) : M unit :=
  modify (fun w => with_log (log w ++ [{| level := lvl; message := msg |}]) w).

(** ** The file system *)

Section Disk.
Implicit Type d : gmap path node.

Definition is_dir d (p : path) : bool :=
  match resolve p with
  | [] => true
  | _ :: _ =>
      match d !! resolve p with Some Directory => true | _ => false end
  end.

Definition path_exists d (p : path) : bool :=
  match resolve p with
  | [] => true
  | _ :: _ => match d !! resolve p with Some _ => true | None => false end
  end.

(** [p.mkdir(exist_ok=True)] *)
Definition mkdir_exist_ok d (p : path) : result (gmap path node) :=
  if is_dir d p then Ok d
  else if path_exists d p then Err OSError
  else if is_dir d (removelast (resolve p))
       then Ok (<[resolve p := Directory]> d)
       else Err OSError.

(** [p.write_bytes(data)] *)
Definition fs_write_bytes d (p : path) (data : bytes)
  : result (gmap path node) :=
  if is_dir d p then Err OSError
  else if is_dir d (removelast (resolve p))
       then Ok (<[resolve p := RegularFile data]> d)
       else Err OSError.

(** [p.read_bytes()] *)
Definition fs_read_bytes d (p : path) : result bytes :=
  match d !! resolve p with
  | Some (RegularFile data) => Ok data
  | _ => Err OSError
  end.

(** [p.unlink()] *)
Definition fs_unlink d (p : path) : result (gmap path node) :=
  match d !! resolve p with
  | Some (RegularFile _) => Ok (delete (resolve p) d)
  | _ => Err OSError
  end.
End Disk.

Definition mkdir (p : path) : M unit :=
  fun w => match mkdir_exist_ok (disk w) p with
           | Ok d => (Ok tt, with_disk d w)
           | Err e => (Err e, w)
           end.
Definition write_bytes (p : path) (data : bytes) : M unit :=
  fun w => match fs_write_bytes (disk w) p data with
           | Ok d => (Ok tt, with_disk d w)
           | Err e => (Err e, w)
           end.
Definition read_bytes (p : path) : M bytes :=
  fun w => (fs_read_bytes (disk w) p, w).
Definition unlink (p : path) : M unit :=
  fun w => match fs_unlink (disk w) p with
           | Ok d => (Ok tt, with_disk d w)
           | Err e => (Err e, w)
           end.
Definition exists_ (p : path) : M bool :=
  fun w => (Ok (path_exists (disk w) p), w).

(** ** JsonXmlService *)

Definition max_json_size : Z := 10 * 1024 * 1024.
Definition max_xml_size : Z := 10 * 1024 * 1024.
Definition max_json_depth : Z := 100.
Definition max_xml_elements : Z := 10000.

(** [max(l)] of a non-empty list. *)
Definition max_of (l : list Z) : Z :=
  match l with
  | [] => 0
  | x :: tl => List.fold_left Z.max tl x
  end.

Fixpoint _get_json_depth (obj : pyval) (depth : Z) {struct obj} : Z :=
  if max_json_depth <? depth then depth
  else
    match obj with
    | PDict entries =>
        max_of (List.map (fun kv => match kv with
                                    | (_, value) => _get_json_depth value (depth + 1)
                                    end) entries ++ [depth])
    | PList items =>
        max_of (List.map (fun item => _get_json_depth item (depth + 1)) items
                ++ [depth])
    | _ => depth
    end.

Definition suspicious_patterns : list str :=
  [ py "<script"; py "</script>"; py "javascript:"; py "data:";
    py "eval("; py "setTimeout("; py "setInterval(";
    py "__import__"; py "exec("; py "eval(" ].

(** [check_value]: the patterns it warns about, in the order of the
    warnings.  It has no [raise]. *)
Fixpoint check_value (obj : pyval) : list str :=
  match obj with
  | PStr s =>
      let obj_lower := lower s in
      List.filter (fun pattern => contains pattern obj_lower) suspicious_patterns
  | PDict entries =>
      List.flat_map (fun kv => match kv with (_, value) => check_value value end)
        entries
  | PList items => List.flat_map check_value items
  | _ => []
  end.

Definition _validate_json_security (data : pyval) : M unit :=
  for_each (check_value data)
    (fun pattern =>
       logger WARNING (py "Suspicious pattern detected in JSON: " ++ pattern)).

Definition _validate_xml_security (data : pyval) : M unit :=
  _validate_json_security data.

(** One step of the loop over the children in [_xml_to_dict]. *)
Definition add_child (result : list (str * pyval)) (child : str * pyval)
  : list (str * pyval) :=
  let '(tag, child_data) := child in
  match dict_get result tag with
  | Some (PList items) => dict_set result tag (PList (items ++ [child_data]))
  | Some other => dict_set result tag (PList [other; child_data])
  | None => dict_set result tag child_data
  end.

Fixpoint _xml_to_dict (element : Element) : pyval :=
  match element with
  | mkElement _ attrib text children =>
      let result :=
        match attrib with
        | [] => []
        | _ :: _ =>
            [(py "@attributes",
              PDict (List.map (fun kv => (fst kv, PStr (snd kv))) attrib))]
        end in
      let stripped := match text with Some t => strip t | None => [] end in
      match stripped, children with
      | _ :: _, [] => PStr stripped
      | _, _ =>
          let result :=
            match stripped with
            | [] => result
            | _ :: _ => dict_set result (py "#text") (PStr stripped)
            end in
          let result :=
            List.fold_left add_child
              (List.map (fun child => (elem_tag child, _xml_to_dict child))
                 children)
              result in
          match result with
          | [] => PNone
          | _ :: _ => PDict result
          end
      end
  end.

(** [len(list(root.iter()))] *)
Fixpoint element_count (e : Element) : Z :=
  match e with
  | mkElement _ _ _ children =>
      1 + List.fold_right (fun c n => element_count c + n) 0 children
  end.

Section Services.
Context `{Platform}.

Definition safe_load_json (content : str) : M pyval :=
  try_except
    (let content_size := utf8_len content in
     raise_if (max_json_size <? content_size) ContentTooLarge >>
     let* data := match json_loads content with
                  | Some data => ret data
                  | None => raise MalformedContent
                  end in
     let max_depth := _get_json_depth data 0 in
     raise_if (max_json_depth <? max_depth) NestingTooDeep >>
     _validate_json_security data >>
     logger INFO (py "Successfully loaded JSON data") >>
     ret data)
    (fun e => logger ERROR (py "Failed to load JSON") >> raise e).

Definition safe_load_xml (content : str) : M pyval :=
  try_except
    (let content_size := utf8_len content in
     raise_if (max_xml_size <? content_size) ContentTooLarge >>
     let* root := match xml_fromstring content with
                  | Some root => ret root
                  | None => raise MalformedContent
                  end in
     let element_count := element_count root in
     raise_if (max_xml_elements <? element_count) TooManyElements >>
     let xml_dict := _xml_to_dict root in
     _validate_xml_security xml_dict >>
     logger INFO (py "Successfully loaded XML data") >>
     ret xml_dict)
    (fun e => logger ERROR (py "Failed to load XML") >> raise e).

Definition validate_file_format (filename content : str) : M bool :=
  try_except
    (if ends_with (py ".json") (lower filename) then
       safe_load_json content >> ret true
     else if ends_with (py ".xml") (lower filename) then
       safe_load_xml content >> ret true
     else ret true)
    (fun e =>
       logger WARNING (py "File format validation failed for " ++ filename) >>
       ret false).

(** ** CryptoService *)

(** The chunks that [iter(lambda: f.read(n), b"")] yields. *)
Fixpoint read_chunks (fuel : nat) (n : nat) (data : bytes) : list bytes :=
  match fuel, data with
  | O, _ | _, [] => []
  | S fuel', _ :: _ => List.firstn n data :: read_chunks fuel' n (List.skipn n data)
  end.

(** The hash object is the data it was updated with. *)
Definition calculate_file_checksum (file_path : path) : M str :=
  let* data := read_bytes file_path in
  let sha256_hash :=
    List.fold_left (fun h chunk => h ++ chunk)
      (read_chunks (S (List.length data)) 4096 data) [] in
  ret (sha256_hexdigest sha256_hash).

Definition generate_file_encryption_key : M bytes :=
  fun w => (Ok (fernet_generate_key (entropy w)),
            with_entropy (N.succ (entropy w)) w).

Definition encrypt_data (data key : bytes) : M bytes :=
  fun w => (Ok (fernet_encrypt (entropy w) key data),
            with_entropy (N.succ (entropy w)) w).

(** ** OperationService.log_operation *)

Definition log_operation (user : User.t) (operation_type : OperationType)
    (details : str) (file : option File.t) (ip_address : option str)
    (success : bool) (error_message : option error) : M Operation.t :=
  let operation :=
    {| Operation.operation_type := operation_type;
       Operation.details := details;
       Operation.ip_address := ip_address;
       Operation.success := success;
       Operation.error_message := error_message;
       Operation.user_id := User.id user;
       Operation.file_id := option_map File.id file |} in
  modify (fun w => with_operations (operations w ++ [operation]) w) >>
  logger DEBUG (py "Operation logged") >>
  ret operation.

(** ** FileService *)

Variable settings : Settings.

(** [self.root_path / f"user_{user.id}"] *)
Definition user_dir_of (user : User.t) : path :=
  root_path settings ++ [py "user_" ++ str_of_int (User.id user)].

Definition _get_user_storage_path (user : User.t) : M path :=
  let user_dir := user_dir_of user in
  mkdir user_dir >>
  ret user_dir.

Definition _get_safe_file_path (user : User.t) (filename : str) : M path :=
  let* sanitized_filename := lift (_validate_filename filename) in
  let* user_storage := _get_user_storage_path user in
  let file_path := path_join user_storage sanitized_filename in
  let file_path := resolve file_path in
  match relative_to file_path (resolve user_storage) with
  | Some _ => ret file_path
  | None => raise PathTraversal
  end.

(** [session.execute(select(File).where(...))]: the rows that satisfy the
    condition. *)
Definition select_files (cond : File.t -> bool) : M (list File.t) :=
  fun w =>
    (Ok (List.map snd
           (map_to_list (filter (fun kv => cond (snd kv) = true) (files w)))),
     w).

Definition scalar_one_or_none {A} (rows : list A) : M (option A) :=
  match rows with
  | [] => ret None
  | [row] => ret (Some row)
  | _ :: _ :: _ => raise MultipleResultsFound
  end.

(** The query on [File.id == file_id, File.owner_id == user.id], followed
    by [scalar_one_or_none]; [id] is the primary key, so at most one row
    matches. *)
Definition select_by_id (user : User.t) (file_id : Z) : M (option File.t) :=
  fun w =>
    (Ok match files w !! file_id with
        | Some f =>
            if (File.id f =? file_id) && (File.owner_id f =? User.id user)
            then Some f else None
        | None => None
        end,
     w).

(** [session.add(file_obj); commit(); refresh(file_obj)]: the row gets the
    next id of the sequence. *)
Definition session_add_file (row : Z -> File.t) : M File.t :=
  fun w =>
    let file_obj := row (file_seq w) in
    (Ok file_obj,
     with_file_seq (file_seq w + 1)
       (with_files (<[file_seq w := file_obj]> (files w)) w)).

Definition same_directory (a b : option Z) : bool :=
  match a, b with
  | Some x, Some y => x =? y
  | None, None => true
  | _, _ => false
  end.

Definition str_of_bool (b : bool) : str :=
  if b then py "True" else py "False".

(** The [try] block of [create_file]. *)
Definition create_file_try (user : User.t) (filename : str) (content : bytes)
    (encrypt : bool) (directory_id : option Z) (ip_address : option str)
  : M File.t :=
  raise_if (max_file_size settings <? len content) SizeLimitExceeded >>
  (if ends_with (py ".json") (lower filename)
      || ends_with (py ".xml") (lower filename)
   then
     let content_str := utf8_decode_replace content in
     let* valid := validate_file_format filename content_str in
     raise_if (negb valid) InvalidFormat
   else ret tt) >>
  let* file_path := _get_safe_file_path user filename in
  let* rows :=
    select_files (fun f =>
      bool_decide (File.original_name f = filename)
      && (File.owner_id f =? User.id user)
      && same_directory (File.directory_id f) directory_id) in
  let* existing := scalar_one_or_none rows in
  raise_if (match existing with Some _ => true | None => false end)
    DuplicateName >>
  let* final_content :=
    if encrypt then
      let* encryption_key := generate_file_encryption_key in
      encrypt_data content encryption_key
    else ret content in
  write_bytes file_path final_content >>
  let* checksum := calculate_file_checksum file_path in
  let mime_type := guess_type filename in
  let* file_obj :=
    session_add_file (fun id =>
      {| File.id := id;
         File.filename := path_name file_path;
         File.original_name := filename;
         File.size := len content;
         File.mime_type := mime_type;
         File.checksum := Some checksum;
         File.storage_path := file_path;
         File.is_encrypted := encrypt;
         File.owner_id := User.id user;
         File.directory_id := directory_id |}) in
  log_operation user CREATE
    (py "Created file: " ++ filename ++ py " (encrypted: "
     ++ str_of_bool encrypt ++ py ")")
    (Some file_obj) ip_address true None >>
  logger INFO (py "File created successfully: " ++ filename ++ py " by "
               ++ User.username user) >>
  ret file_obj.

Definition create_file (user : User.t) (filename : str) (content : bytes)
    (encrypt : bool) (directory_id : option Z) (ip_address : option str)
  : M File.t :=
  try_except
    (create_file_try user filename content encrypt directory_id ip_address)
    (fun e =>
       log_operation user CREATE (py "Failed to create file: " ++ filename)
         None ip_address false (Some e) >>
       logger ERROR (py "File creation failed for " ++ filename) >>
       raise e).

Definition read_file (user : User.t) (file_id : Z) (ip_address : option str)
  : M (File.t * bytes) :=
  try_except
    (let* found := select_by_id user file_id in
     let* file_obj := match found with
                      | Some f => ret f
                      | None => raise NotFound
                      end in
     let file_path := File.storage_path file_obj in
     let* on_disk := exists_ file_path in
     raise_if (negb on_disk) NotFound >>
     let* content := read_bytes file_path in
     raise_if (File.is_encrypted file_obj) NotSupported >>
     log_operation user READ
       (py "Read file: " ++ File.original_name file_obj)
       (Some file_obj) ip_address true None >>
     logger INFO (py "File read successfully: " ++ File.original_name file_obj
                  ++ py " by " ++ User.username user) >>
     ret (file_obj, content))
    (fun e =>
       log_operation user READ
         (py "Failed to read file ID: " ++ str_of_int file_id)
         None ip_address false (Some e) >>
       logger ERROR (py "File read failed for ID " ++ str_of_int file_id) >>
       raise e).

(** [file_obj.size = ...; file_obj.checksum = ...; session.commit()] *)
Definition session_update_file (file_obj : File.t) : M unit :=
  modify (fun w => with_files (<[File.id file_obj := file_obj]> (files w)) w).

Definition update_file (user : User.t) (file_id : Z) (new_content : bytes)
    (ip_address : option str) : M File.t :=
  try_except
    (let* found := select_by_id user file_id in
     let* file_obj := match found with
                      | Some f => ret f
                      | None => raise NotFound
                      end in
     raise_if (max_file_size settings <? len new_content) SizeLimitExceeded >>
     let file_path := File.storage_path file_obj in
     let final_content := new_content in
     raise_if (File.is_encrypted file_obj) NotSupported >>
     write_bytes file_path final_content >>
     let* checksum := calculate_file_checksum file_path in
     let file_obj :=
       {| File.id := File.id file_obj;
          File.filename := File.filename file_obj;
          File.original_name := File.original_name file_obj;
          File.size := len new_content;
          File.mime_type := File.mime_type file_obj;
          File.checksum := Some checksum;
          File.storage_path := File.storage_path file_obj;
          File.is_encrypted := File.is_encrypted file_obj;
          File.owner_id := File.owner_id file_obj;
          File.directory_id := File.directory_id file_obj |} in
     session_update_file file_obj >>
     log_operation user UPDATE
       (py "Updated file: " ++ File.original_name file_obj)
       (Some file_obj) ip_address true None >>
     logger INFO (py "File updated successfully: "
                  ++ File.original_name file_obj ++ py " by "
                  ++ User.username user) >>
     ret file_obj)
    (fun e =>
       log_operation user UPDATE
         (py "Failed to update file ID: " ++ str_of_int file_id)
         None ip_address false (Some e) >>
       logger ERROR (py "File update failed for ID " ++ str_of_int file_id) >>
       raise e).

(** [session.delete(file_obj); commit()]: the row goes, and with it the
    operations that refer to it ([cascade="all, delete-orphan"]). *)
Definition session_delete_file (file_obj : File.t) : M unit :=
  modify (fun w =>
    with_operations
      (List.filter
         (fun o => negb (bool_decide
                           (Operation.file_id o = Some (File.id file_obj))))
         (operations w))
      (with_files (delete (File.id file_obj) (files w)) w)).

Definition delete_file (user : User.t) (file_id : Z)
    (ip_address : option str) : M bool :=
  try_except
    (let* found := select_by_id user file_id in
     let* file_obj := match found with
                      | Some f => ret f
                      | None => raise NotFound
                      end in
     let file_path := File.storage_path file_obj in
     let filename := File.original_name file_obj in
     let* on_disk := exists_ file_path in
     (if on_disk then unlink file_path else ret tt) >>
     session_delete_file file_obj >>
     log_operation user DELETE (py "Deleted file: " ++ filename)
       None ip_address true None >>
     logger INFO (py "File deleted successfully: " ++ filename ++ py " by "
                  ++ User.username user) >>
     ret true)
    (fun e =>
       log_operation user DELETE
         (py "Failed to delete file ID: " ++ str_of_int file_id)
         None ip_address false (Some e) >>
       logger ERROR (py "File deletion failed for ID " ++ str_of_int file_id) >>
       raise e).

(** ** ArchiveService *)

(** [file_info.file_size / file_info.compress_size], evaluated for a positive
    [compress_size] only.  [zipfile] reads both sizes from unsigned fields of
    at most 64 bits, so the quotient is below 2^64 and is a finite float. *)
Definition ratio_of (file_size compress_size : Z) : float :=
  int_truediv file_size compress_size.

(** [sum(compression_ratios) / len(compression_ratios)], evaluated for a
    list that is not empty only. *)
Definition mean (compression_ratios : list float) : float :=
  float_div (py_sum compression_ratios) (float_of_int (len compression_ratios)).

(** The loop of [_validate_zip_archive] over [zipf.infolist()], with its
    three accumulators. *)
Fixpoint validate_entries (infos : list ZipInfo.t)
    (total_uncompressed_size file_count : Z) (compression_ratios : list float)
  : result (Z * Z * list float) :=
  match infos with
  | [] => Ok (total_uncompressed_size, file_count, compression_ratios)
  | file_info :: rest =>
      if ZipInfo.is_dir file_info then
        validate_entries rest total_uncompressed_size file_count
          compression_ratios
      else
        let file_count := file_count + 1 in
        let total_uncompressed_size :=
          total_uncompressed_size + ZipInfo.file_size file_info in
        if max_file_size settings <? ZipInfo.file_size file_info then
          Err EntryTooLarge
        else
          match
            (if 0 <? ZipInfo.compress_size file_info then
               let ratio := ratio_of (ZipInfo.file_size file_info)
                              (ZipInfo.compress_size file_info) in
               if float_gt ratio (float_of_int 100)
               then Err SuspiciousCompressionRatio
               else Ok (compression_ratios ++ [ratio])
             else Ok compression_ratios)
          with
          | Err e => Err e
          | Ok compression_ratios =>
              if contains (py "..") (ZipInfo.filename file_info)
                 || starts_with (py "/") (ZipInfo.filename file_info)
              then Err DangerousPath
              else validate_entries rest total_uncompressed_size file_count
                     compression_ratios
          end
  end.

Definition validate_zip (zipf : list ZipInfo.t) : result unit :=
  match validate_entries zipf 0 0 [] with
  | Err e => Err e
  | Ok (total_uncompressed_size, file_count, compression_ratios) =>
      if max_archive_files settings <? file_count then Err ArchiveTooManyFiles
      else if max_zip_size settings <? total_uncompressed_size
      then Err ArchiveTooLarge
      else if negb (bool_decide (compression_ratios = []))
              && float_gt (mean compression_ratios) (float_of_int 50)
      then Err SuspiciousCompressionRatio
      else Ok tt
  end.

Definition _validate_zip_archive (zipf : list ZipInfo.t) : M unit :=
  lift (validate_zip zipf) >>
  logger DEBUG (py "ZIP validation passed").

Definition reserved_names : list str :=
  [ py "CON"; py "PRN"; py "AUX"; py "NUL";
    py "COM1"; py "COM2"; py "COM3"; py "COM4"; py "COM5"; py "COM6";
    py "COM7"; py "COM8"; py "COM9";
    py "LPT1"; py "LPT2"; py "LPT3"; py "LPT4"; py "LPT5"; py "LPT6";
    py "LPT7"; py "LPT8"; py "LPT9" ].

Definition _validate_zip_entry (file_info : ZipInfo.t) (extract_dir : path)
  : M unit :=
  let* sanitized_name := lift (_validate_filename (ZipInfo.filename file_info)) in
  let final_path := resolve (path_join extract_dir sanitized_name) in
  (match relative_to final_path (resolve extract_dir) with
   | Some _ => ret tt
   | None => raise PathTraversal
   end) >>
  raise_if
    (bool_decide
       (List.hd [] (split_on ch_dot (upper sanitized_name)) ∈ reserved_names))
    ReservedName.

(** [zipf.read(file_info)]: the entry is decompressed. *)
Definition zip_read (file_info : ZipInfo.t) : M bytes :=
  modify (fun w =>
    with_decompressed (decompressed w ++ [ZipInfo.filename file_info]) w) >>
  ret (ZipInfo.payload file_info).

Fixpoint extract_entries (infos : list ZipInfo.t) (extract_dir : path)
    (user : User.t) (ip_address : option str) (extracted_files : list File.t)
  : M (list File.t) :=
  match infos with
  | [] => ret extracted_files
  | file_info :: rest =>
      if ZipInfo.is_dir file_info then
        extract_entries rest extract_dir user ip_address extracted_files
      else
        _validate_zip_entry file_info extract_dir >>
        let* file_content := zip_read file_info in
        let* extracted_file :=
          create_file user (py "extracted_" ++ ZipInfo.filename file_info)
            file_content false None ip_address in
        extract_entries rest extract_dir user ip_address
          (extracted_files ++ [extracted_file])
  end.

(** [zipf] is the archive at [archive_path] as [zipfile.ZipFile] opened
    it. *)
Definition _safe_zip_extraction (zipf : list ZipInfo.t) (extract_dir : path)
    (user : User.t) (ip_address : option str) : M (list File.t) :=
  try_except
    (_validate_zip_archive zipf >>
     extract_entries zipf extract_dir user ip_address [])
    (fun e =>
       logger ERROR (py "ZIP extraction error") >>
       raise (ExtractionFailed e)).
End Services.

(** * Sample data

    A platform, two users and an empty store, for evaluating the model. *)

Definition bytes_of (s : string) : bytes := list_byte_of_string s.

Definition dq : str := [34%N].

(** Two documents with a pattern the scan looks for. *)
Definition script_json : str :=
  py "[" ++ dq ++ py "<script>eval(1)" ++ dq ++ py "]".
Definition script_xml : str := py "<a>javascript:x</a>".

(** Any instance serves: the properties below hold for every platform.  The
    parsers of this one know a few documents only. *)
Definition platform_summing (compensates : bool) : Platform :=
  {| sha256_hexdigest := fun data => py "sha256:" ++ List.map Byte.to_N data;
     fernet_generate_key :=
       fun seed => match Byte.of_N (seed mod 256) with
                   | Some b => [b]
                   | None => []
                   end;
     fernet_encrypt := fun seed key data => key ++ data;
     utf8_decode_replace := fun data => List.map Byte.to_N data;
     json_loads :=
       fun s => if bool_decide (s = script_json)
                then Some (PList [PStr (py "<script>eval(1)")])
                else if bool_decide (s = py "{}") then Some (PDict [])
                else None;
     xml_fromstring :=
       fun s => if bool_decide (s = script_xml)
                then Some (mkElement (py "a") [] (Some (py "javascript:x")) [])
                else None;
     guess_type := fun _ => None;
     sum_compensates := compensates |}.

Definition sample_platform : Platform := platform_summing false.

Definition alice : User.t := {| User.id := 1; User.username := py "alice" |}.
Definition bob : User.t := {| User.id := 2; User.username := py "bob" |}.

(** The storage directory exists and nothing is stored. *)
Definition fresh_world : World :=
  {| files := ∅;
     file_seq := 1;
     operations := [];
     disk := {[ [py "app"] := Directory;
                [py "app"; py "safe_storage"] := Directory ]};
     log := [];
     entropy := 0;
     decompressed := [] |}.

(** No two adjacent dots. *)
Fixpoint no_dotdot (s : str) : bool :=
  match s with
  | a :: tl =>
      match tl with
      | b :: _ => negb (N.eqb a ch_dot && N.eqb b ch_dot) && no_dotdot tl
      | [] => true
      end
  | [] => true
  end.

(** ** Archives by their metadata *)

Definition dangerous_name (name : str) : bool :=
  contains (py "..") name || starts_with (py "/") name.

(** The entries the validator and the extractor look at. *)
Definition active_entries (zipf : list ZipInfo.t) : list ZipInfo.t :=
  List.filter (fun e => negb (ZipInfo.is_dir e)) zipf.

(** The compression ratios the validator collects: those of the active
    entries with a positive compressed size, as floats, in the order of the
    archive. *)
Definition declared_ratios (zipf : list ZipInfo.t) : list float :=
  List.map (fun e => ratio_of (ZipInfo.file_size e) (ZipInfo.compress_size e))
    (List.filter (fun e => 0 <? ZipInfo.compress_size e) (active_entries zipf)).

(** The ratios and their mean as the specification words them: numbers, not
    rounded. *)
Definition exact_ratio (e : ZipInfo.t) : Q :=
  (inject_Z (ZipInfo.file_size e) / inject_Z (ZipInfo.compress_size e))%Q.

Definition exact_ratios (zipf : list ZipInfo.t) : list Q :=
  List.map exact_ratio
    (List.filter (fun e => 0 <? ZipInfo.compress_size e) (active_entries zipf)).

Definition exact_mean (zipf : list ZipInfo.t) : Q :=
  (List.fold_right Qplus 0 (exact_ratios zipf)
   / inject_Z (len (exact_ratios zipf)))%Q.

Definition declared_total (zipf : list ZipInfo.t) : Z :=
  List.fold_right (fun e n => ZipInfo.file_size e + n) 0 (active_entries zipf).

(** What the loop of the validator decides about one entry. *)
Definition entry_verdict (settings : Settings) (e : ZipInfo.t) : option error :=
  if ZipInfo.is_dir e then None
  else if max_file_size settings <? ZipInfo.file_size e then Some EntryTooLarge
  else if (0 <? ZipInfo.compress_size e)
          && float_gt (ratio_of (ZipInfo.file_size e) (ZipInfo.compress_size e))
               (float_of_int 100)
  then Some SuspiciousCompressionRatio
  else if dangerous_name (ZipInfo.filename e) then Some DangerousPath
  else None.

Definition zip_entry (name : string) (file_size compress_size : Z)
    (payload : string) : ZipInfo.t :=
  {| ZipInfo.filename := py name;
     ZipInfo.file_size := file_size;
     ZipInfo.compress_size := compress_size;
     ZipInfo.payload := bytes_of payload |}.

(** ** Records by name *)

(** The condition of the duplicate-name query of [create_file]. *)
Definition names_record (owner : User.t) (directory_id : option Z)
    (filename : str) (f : File.t) : bool :=
  bool_decide (File.original_name f = filename)
  && (File.owner_id f =? User.id owner)
  && same_directory (File.directory_id f) directory_id.

(** The records of the store for (owner, directory, display name). *)
Definition records_for (owner : User.t) (directory_id : option Z)
    (filename : str) (w : World) : gmap Z File.t :=
  filter (fun kv => names_record owner directory_id filename (snd kv) = true)
    (files w).

(** [filename.lower().endswith(('.json', '.xml'))] *)
Definition is_structured (filename : str) : bool :=
  ends_with (py ".json") (lower filename)
  || ends_with (py ".xml") (lower filename).

(** ** Contents that parse within the limits *)

Definition json_within_limits `{Platform} (content : str) : bool :=
  (utf8_len content <=? max_json_size)
  && match json_loads content with
     | Some data => _get_json_depth data 0 <=? max_json_depth
     | None => false
     end.

Definition xml_within_limits `{Platform} (content : str) : bool :=
  (utf8_len content <=? max_xml_size)
  && match xml_fromstring content with
     | Some root => element_count root <=? max_xml_elements
     | None => false
     end.

(** The verdict of [validate_file_format], by the extension of the name. *)
Definition format_valid `{Platform} (filename content : str) : bool :=
  if ends_with (py ".json") (lower filename) then json_within_limits content
  else if ends_with (py ".xml") (lower filename) then xml_within_limits content
  else true.

(** The value the pattern scan of a structured content runs over. *)
Definition scanned_value `{Platform} (filename content : str) : option pyval :=
  if ends_with (py ".json") (lower filename) then json_loads content
  else if ends_with (py ".xml") (lower filename)
  then option_map _xml_to_dict (xml_fromstring content)
  else None.

Definition warning_of (pattern : str) : LogRecord :=
  {| level := WARNING;
     message := py "Suspicious pattern detected in JSON: " ++ pattern |}.

(** The row [select_by_id] finds. *)
Definition matching_record (user : User.t) (file_id : Z) (w : World)
  : option File.t :=
  match files w !! file_id with
  | Some f =>
      if (File.id f =? file_id) && (File.owner_id f =? User.id user)
      then Some f else None
  | None => None
  end.

(** ** What [create_file] writes and records *)

(** The bytes that go to disk: the content, or its encryption under a key
    drawn first from the random source. *)
Definition final_content_of `{Platform} (encrypt : bool) (content : bytes)
    (w : World) : bytes :=
  if encrypt
  then fernet_encrypt (N.succ (entropy w)) (fernet_generate_key (entropy w))
         content
  else content.

(** The location [create_file] stores a file of this name at. *)
Definition storage_path_of (settings : Settings) (user : User.t) (name : str)
  : path :=
  resolve (user_dir_of settings user) ++ parse_path name.

(** The row [create_file] inserts. *)
Definition new_record `{Platform} (settings : Settings) (user : User.t)
    (filename name : str) (content : bytes) (encrypt : bool)
    (directory_id : option Z) (w : World) : File.t :=
  {| File.id := file_seq w;
     File.filename := path_name (storage_path_of settings user name);
     File.original_name := filename;
     File.size := len content;
     File.mime_type := guess_type filename;
     File.checksum :=
       Some (sha256_hexdigest (final_content_of encrypt content w));
     File.storage_path := storage_path_of settings user name;
     File.is_encrypted := encrypt;
     File.owner_id := User.id user;
     File.directory_id := directory_id |}.

(** The audit entry of a failed attempt. *)
Definition failure_entry (user : User.t) (kind : OperationType) (details : str)
    (ip_address : option str) (e : error) : Operation.t :=
  {| Operation.operation_type := kind;
     Operation.details := details;
     Operation.ip_address := ip_address;
     Operation.success := false;
     Operation.error_message := Some e;
     Operation.user_id := User.id user;
     Operation.file_id := None |}.

(** The row [update_file] commits. *)
Definition updated_record `{Platform} (f : File.t) (new_content : bytes)
  : File.t :=
  {| File.id := File.id f;
     File.filename := File.filename f;
     File.original_name := File.original_name f;
     File.size := len new_content;
     File.mime_type := File.mime_type f;
     File.checksum := Some (sha256_hexdigest new_content);
     File.storage_path := File.storage_path f;
     File.is_encrypted := File.is_encrypted f;
     File.owner_id := File.owner_id f;
     File.directory_id := File.directory_id f |}.

(** The audit entries that do not refer to a file id. *)
Definition unrelated_operations (file_id : Z) (ops : list Operation.t)
  : list Operation.t :=
  List.filter
    (fun o => negb (bool_decide (Operation.file_id o = Some file_id))) ops.

(** The result [update_file] computes from the store. *)
Definition update_outcome `{Platform} (settings : Settings) (user : User.t)
    (file_id : Z) (new_content : bytes) (w : World) : result File.t :=
  match matching_record user file_id w with
  | None => Err NotFound
  | Some f =>
      if max_file_size settings <? len new_content then Err SizeLimitExceeded
      else if File.is_encrypted f then Err NotSupported
      else match fs_write_bytes (disk w) (File.storage_path f) new_content with
           | Err _ => Err OSError
           | Ok _ => Ok (updated_record f new_content)
           end
  end.

(** The result [delete_file] computes from the store. *)
Definition delete_outcome (user : User.t) (file_id : Z) (w : World)
  : result bool :=
  match matching_record user file_id w with
  | None => Err NotFound
  | Some f =>
      if path_exists (disk w) (File.storage_path f) then
        match fs_unlink (disk w) (File.storage_path f) with
        | Err _ => Err OSError
        | Ok _ => Ok true
        end
      else Ok true
  end.

(** The result [read_file] computes from the store. *)
Definition read_outcome (user : User.t) (file_id : Z) (w : World)
  : result (File.t * bytes) :=
  match matching_record user file_id w with
  | None => Err NotFound
  | Some f =>
      if negb (path_exists (disk w) (File.storage_path f))
      then Err NotFound
      else match fs_read_bytes (disk w) (File.storage_path f) with
           | Err _ => Err OSError
           | Ok content =>
               if File.is_encrypted f then Err NotSupported
               else Ok (f, content)
           end
  end.


(** The checks of [create_file] other than the format check pass: the size is
    within the limit, the name sanitizes, the sandbox directory can be made,
    no record has the name and the bytes can be written. *)
Definition create_admissible `{Platform} (settings : Settings) (user : User.t)
    (filename : str) (content : bytes) (encrypt : bool)
    (directory_id : option Z) (w : World) : Prop :=
  len content <= max_file_size settings
  /\ exists name d1,
       _validate_filename filename = Ok name
       /\ mkdir_exist_ok (disk w) (user_dir_of settings user) = Ok d1
       /\ records_for user directory_id filename w = ∅
       /\ is_ok (fs_write_bytes d1 (storage_path_of settings user name)
                   (final_content_of encrypt content w)) = true.

(** Settings with a small size limit, for evaluating the size check. *)
Definition small_settings : Settings :=
  {| root_path := [py "app"; py "safe_storage"];
     max_file_size := 8;
     max_zip_size := 10485760;
     max_archive_files := 1000 |}.

(** ** The store and its ids *)

(** Every record sits under its own id, below the next id of the sequence. *)
Definition store_ok (w : World) : Prop :=
  forall id f, files w !! id = Some f -> File.id f = id /\ id < file_seq w.

(** The store after alice has created [a.txt] holding "hello". *)
Definition one_file_world : World :=
  snd (create_file (H := sample_platform) default_settings alice (py "a.txt")
         (bytes_of "hello") false None None fresh_world).

(** ** Archives that pass, entries that are extracted *)

(** What the loop of the validator asks of an entry. *)
Definition entry_admissible (settings : Settings) (e : ZipInfo.t) : Prop :=
  ZipInfo.is_dir e = true
  \/ (ZipInfo.file_size e <= max_file_size settings
      /\ (0 < ZipInfo.compress_size e ->
          float_gt (ratio_of (ZipInfo.file_size e) (ZipInfo.compress_size e))
            (float_of_int 100) = false)
      /\ dangerous_name (ZipInfo.filename e) = false).

(** How the record of an extracted entry relates to the entry. *)
Definition extracted_from (f : File.t) (e : ZipInfo.t) : Prop :=
  File.original_name f = py "extracted_" ++ ZipInfo.filename e
  /\ File.size f = len (ZipInfo.payload e)
  /\ File.is_encrypted f = false
  /\ File.directory_id f = None.

(** ** Nesting of a JSON value *)

(** The depth [_get_json_depth] computes when it never returns early: a
    scalar and an empty container have depth 0, a container is one deeper
    than its deepest item. *)
Fixpoint nesting (obj : pyval) : Z :=
  match obj with
  | PDict entries =>
      List.fold_right Z.max 0
        (List.map (fun kv => match kv with (_, value) => 1 + nesting value end)
           entries)
  | PList items =>
      List.fold_right Z.max 0 (List.map (fun item => 1 + nesting item) items)
  | _ => 0
  end.

(** ** ArchiveService.create_zip_archive *)

(** The bytes [zipfile.ZipFile(path, 'w', ZIP_DEFLATED)] leaves at [path]
    after [writestr(name, content)] for each pair, in order. *)
Class ZipWriter : Type := {
  zip_write : list (str * bytes) -> bytes;
}.

Section ArchiveCreation.
Context `{Platform} {zip_writer : ZipWriter}.
Variable settings : Settings.

(** The loop over [file_ids]; the error "Total archive size would exceed
    limits" is [ArchiveTooLarge]. *)
Fixpoint read_files_to_archive (user : User.t) (ip_address : option str)
    (file_ids : list Z) (files_to_archive : list (File.t * bytes))
    (total_size : Z) : M (list (File.t * bytes)) :=
  match file_ids with
  | [] => ret files_to_archive
  | file_id :: rest =>
      let* read := read_file user file_id ip_address in
      let files_to_archive := files_to_archive ++ [read] in
      let total_size := total_size + len (snd read) in
      raise_if (max_file_size settings * 10 <? total_size) ArchiveTooLarge >>
      read_files_to_archive user ip_address rest files_to_archive total_size
  end.

Definition create_zip_archive (user : User.t) (file_ids : list Z)
    (archive_name : str) (ip_address : option str) : M File.t :=
  let archive_name :=
    if ends_with (py ".zip") archive_name then archive_name
    else archive_name ++ py ".zip" in
  try_except
    (let* archive_path := _get_safe_file_path settings user archive_name in
     let* files_to_archive :=
       read_files_to_archive user ip_address file_ids [] 0 in
     write_bytes archive_path
       (zip_write
          (List.map (fun fc => (File.original_name (fst fc), snd fc))
             files_to_archive)) >>
     let* archive_content := read_bytes archive_path in
     let* archive_file :=
       create_file settings user archive_name archive_content false None
         ip_address in
     log_operation user ARCHIVE_CREATE
       (py "Created archive " ++ archive_name ++ py " with "
        ++ str_of_int (len file_ids) ++ py " files")
       (Some archive_file) ip_address true None >>
     unlink archive_path >>
     logger INFO (py "ZIP archive created: " ++ archive_name ++ py " by "
                  ++ User.username user) >>
     ret archive_file)
    (fun e =>
       log_operation user ARCHIVE_CREATE
         (py "Failed to create archive: " ++ archive_name)
         None ip_address false (Some e) >>
       logger ERROR (py "Archive creation failed") >>
       raise e).
End ArchiveCreation.

(** An archive writer for evaluating the model: the contents, one after the
    other. *)
Definition sample_zip_writer : ZipWriter :=
  {| zip_write := fun entries => List.flat_map snd entries |}.
(** * Properties *)

(** ** The sanitizer and the sandbox path *)

Lemma replace_char_other (c r x : N) (s : str) :
  x ≠ r -> (x = c \/ Forall (fun y => y ≠ x) s) ->
  Forall (fun y => y ≠ x) (replace_char c r s).
Proof.
  intros Hr Hs. induction s as [|z s IH]; cbn; [constructor|].
  constructor.
  - destruct (N.eqb_spec z c) as [->|Hne]; [congruence|].
    destruct Hs as [->|Hs]; [congruence|]. by inversion Hs.
  - apply IH. destruct Hs as [->|Hs]; [by left|right]. by inversion Hs.
Qed.

Lemma sanitize_chars_no_slash (s : str) :
  Forall (fun y => y ≠ ch_slash)
    (fold_left (fun f c => replace_char c ch_underscore f) dangerous_chars s).
Proof.
  change dangerous_chars with [60;62;58;34;124;63;42;92;47;0]%N.
  cbn [fold_left].
  apply replace_char_other; [done|right].
  apply replace_char_other; [done|left]. done.
Qed.

Lemma replace_dotdot_cons2 (a b : N) (rest : str) :
  replace_dotdot (a :: b :: rest) =
  if N.eqb a ch_dot && N.eqb b ch_dot
  then ch_underscore :: replace_dotdot rest
  else a :: replace_dotdot (b :: rest).
Proof. reflexivity. Qed.

Lemma replace_dotdot_no_slash (s : str) :
  Forall (fun y => y ≠ ch_slash) s ->
  Forall (fun y => y ≠ ch_slash) (replace_dotdot s).
Proof.
  remember (List.length s) as n eqn:Hn. revert s Hn.
  induction n as [n IH] using lt_wf_ind. intros s Hn Hs.
  destruct s as [|a [|b rest]]; [done..|]. rewrite replace_dotdot_cons2.
  inversion Hs as [|? ? Ha Hs']; subst. inversion Hs' as [|? ? Hb Hrest]; subst.
  destruct (_ && _).
  - constructor; [done|]. eapply IH; [|reflexivity|done]. cbn; lia.
  - constructor; [done|]. eapply IH; [|reflexivity|done]. cbn; lia.
Qed.

Lemma replace_dotdot_head (b : N) (rest : str) :
  b ≠ ch_dot -> List.hd 0%N (replace_dotdot (b :: rest)) ≠ ch_dot.
Proof.
  intros Hb. destruct rest as [|c rest]; [done|]. rewrite replace_dotdot_cons2.
  destruct (N.eqb_spec b ch_dot); [done|]. cbn. done.
Qed.

Lemma no_dotdot_cons (a : N) (s : str) :
  (a ≠ ch_dot \/ List.hd 0%N s ≠ ch_dot) -> no_dotdot s = true ->
  no_dotdot (a :: s) = true.
Proof.
  intros H Hs. destruct s as [|b s]; [done|].
  cbn [no_dotdot] in *. rewrite Hs, andb_true_r. cbn in H.
  destruct (N.eqb_spec a ch_dot), (N.eqb_spec b ch_dot); try done. tauto.
Qed.

Lemma replace_dotdot_no_dotdot (s : str) : no_dotdot (replace_dotdot s) = true.
Proof.
  remember (List.length s) as n eqn:Hn. revert s Hn.
  induction n as [n IH] using lt_wf_ind. intros s Hn.
  destruct s as [|a [|b rest]]; [done..|].
  rewrite replace_dotdot_cons2.
  destruct (N.eqb_spec a ch_dot) as [Ha|Ha], (N.eqb_spec b ch_dot) as [Hb|Hb];
    cbn [andb].
  - apply no_dotdot_cons; [by left|]. eapply IH; [|reflexivity]. subst; cbn; lia.
  - apply no_dotdot_cons; [right; by apply replace_dotdot_head|].
    eapply IH; [|reflexivity]. subst; cbn; lia.
  - apply no_dotdot_cons; [by left|]. eapply IH; [|reflexivity]. subst; cbn; lia.
  - apply no_dotdot_cons; [by left|]. eapply IH; [|reflexivity]. subst; cbn; lia.
Qed.

Lemma no_dotdot_infix (a b : str) :
  no_dotdot (a ++ [ch_dot; ch_dot] ++ b) = false.
Proof.
  induction a as [|x a IH]; [done|].
  change ((x :: a) ++ [ch_dot; ch_dot] ++ b) with (x :: (a ++ [ch_dot; ch_dot] ++ b)).
  cbn [no_dotdot]. rewrite IH.
  destruct (a ++ [ch_dot; ch_dot] ++ b); [done|]. apply andb_false_r.
Qed.

Lemma lstrip_by_suffix (p : N -> bool) (s : str) :
  exists pre, s = pre ++ lstrip_by p s.
Proof.
  induction s as [|c s [pre IH]]; [by exists []|].
  cbn. destruct (p c); [|by exists []].
  exists (c :: pre). cbn. by f_equal.
Qed.

Lemma strip_by_infix (p : N -> bool) (s : str) :
  exists pre post, s = pre ++ strip_by p s ++ post.
Proof.
  unfold strip_by.
  destruct (lstrip_by_suffix p s) as [pre Hpre].
  destruct (lstrip_by_suffix p (List.rev (lstrip_by p s))) as [post Hpost].
  exists pre, (List.rev post).
  rewrite <- rev_app_distr, <- Hpost, rev_involutive. exact Hpre.
Qed.

Lemma strip_by_not_dotdot (p : N -> bool) (s : str) :
  no_dotdot s = true -> strip_by p s ≠ [ch_dot; ch_dot].
Proof.
  intros Hs Heq. destruct (strip_by_infix p s) as (pre & post & H).
  rewrite Heq in H. rewrite H in Hs.
  pose proof (no_dotdot_infix pre post) as Hf. cbn in Hf, Hs. congruence.
Qed.

Lemma strip_by_Forall (P : N -> Prop) (p : N -> bool) (s : str) :
  Forall P s -> Forall P (strip_by p s).
Proof.
  intros Hs. destruct (strip_by_infix p s) as (pre & post & H).
  rewrite H in Hs. apply Forall_app in Hs as [_ Hs].
  by apply Forall_app in Hs as [Hs _].
Qed.

(** What [_validate_filename] returns has no separator and is not [".."]. *)
Lemma _validate_filename_safe (filename name : str) :
  _validate_filename filename = Ok name ->
  Forall (fun y => y ≠ ch_slash) name /\ name ≠ [ch_dot; ch_dot].
Proof.
  unfold _validate_filename. destruct (_ || _); [done|].
  destruct (strip_chars _ _); [done|]. intros [= <-]. split.
  - apply strip_by_Forall, replace_dotdot_no_slash, sanitize_chars_no_slash.
  - apply strip_by_not_dotdot, replace_dotdot_no_dotdot.
Qed.

Lemma split_on_absent (sep : N) (s : str) :
  Forall (fun y => y ≠ sep) s -> split_on sep s = [s].
Proof.
  induction s as [|c s IH]; [done|]. intros Hs. inversion Hs; subst.
  cbn. destruct (N.eqb_spec c sep); [done|]. by rewrite IH.
Qed.

Lemma parse_path_component (s : str) :
  Forall (fun y => y ≠ ch_slash) s ->
  parse_path s = [] \/ parse_path s = [s].
Proof.
  intros Hs. unfold parse_path. rewrite split_on_absent by done.
  cbn [List.filter]. destruct (negb _); [by right|by left].
Qed.

Lemma starts_with_slash (s : str) :
  Forall (fun y => y ≠ ch_slash) s -> starts_with [ch_slash] s = false.
Proof.
  intros Hs. destruct s as [|c s]; [done|]. inversion Hs; subst.
  cbn [starts_with]. destruct (N.eqb_spec ch_slash c); [congruence|done].
Qed.

Lemma resolve_snoc (p : path) (c : str) :
  c ≠ [ch_dot; ch_dot] -> resolve (p ++ [c]) = resolve p ++ [c].
Proof.
  intros Hc. unfold resolve. rewrite fold_left_app. cbn.
  by rewrite bool_decide_eq_false_2.
Qed.

Lemma relative_to_app (q r : path) : relative_to (q ++ r) q = Some r.
Proof.
  induction q as [|c q IH]; [by destruct r|]. cbn.
  by rewrite bool_decide_eq_true_2.
Qed.

(** A run of [_get_safe_file_path]: the only errors are those of the
    sanitizer and of [mkdir]; a path returned is the sandbox directory
    extended by the sanitized name. *)
Lemma _get_safe_file_path_run (settings : Settings) (user : User.t)
    (filename : str) (w : World) :
  match _validate_filename filename with
  | Err e => e = InvalidName
             /\ _get_safe_file_path settings user filename w = (Err e, w)
  | Ok name =>
      match mkdir_exist_ok (disk w) (user_dir_of settings user) with
      | Err e => e = OSError
                 /\ _get_safe_file_path settings user filename w = (Err e, w)
      | Ok d =>
          _get_safe_file_path settings user filename w
          = (Ok (resolve (user_dir_of settings user) ++ parse_path name),
             with_disk d w)
          /\ (parse_path name = [] \/ parse_path name = [name])
      end
  end.
Proof.
  unfold _get_safe_file_path, _get_user_storage_path, bind, lift, mkdir, ret.
  destruct (_validate_filename filename) as [name|e] eqn:Hname.
  2:{ split; [|done]. unfold _validate_filename in Hname.
      destruct (_ || _); [congruence|].
      destruct (strip_chars _ _); congruence. }
  destruct (_validate_filename_safe _ _ Hname) as [Hslash Hdd].
  destruct (mkdir_exist_ok _ _) as [d|e] eqn:Hmk.
  2:{ split; [|done]. unfold mkdir_exist_ok in Hmk.
      destruct (is_dir _ _); [done|]. destruct (path_exists _ _); [congruence|].
      destruct (is_dir _ _); congruence. }
  unfold path_join. rewrite (starts_with_slash name Hslash).
  destruct (parse_path_component name Hslash) as [Hp|Hp]; rewrite Hp.
  - rewrite !app_nil_r.
    replace (relative_to (resolve (user_dir_of settings user))
               (resolve (user_dir_of settings user))) with (Some ([] : path)).
    2:{ rewrite <- (app_nil_r (resolve (user_dir_of settings user))) at 1.
        by rewrite relative_to_app. }
    split; [done|by left].
  - rewrite resolve_snoc by done. rewrite relative_to_app.
    split; [done|by right].
Qed.

(** C1 (as stated, refuted): a file name containing [../], or beginning with
    [/], does not make the path pipeline of [create] fail with PathTraversal.
    The name is sanitized first, and the path is resolved inside the sandbox. *)
Lemma C1_counterexample :
  contains (py "../") (py "../etc/passwd") = true
  /\ fst (_get_safe_file_path default_settings alice (py "../etc/passwd")
            fresh_world)
     = Ok [py "app"; py "safe_storage"; py "user_1"; py "__etc_passwd"]
  /\ starts_with (py "/") (py "/etc/passwd") = true
  /\ fst (_get_safe_file_path default_settings alice (py "/etc/passwd")
            fresh_world)
     = Ok [py "app"; py "safe_storage"; py "user_1"; py "_etc_passwd"].
Proof. split; [|split; [|split]]; by vm_compute. Qed.

(** C1 (amended): for every file name containing [../] or beginning with
    [/], [_get_safe_file_path] does not fail with PathTraversal.  It fails
    only with InvalidName (or with an error of the file system when the
    sandbox directory cannot be made); otherwise the sanitized name has no
    separator, is not [..], and the path returned is the sandbox directory
    extended by that name. *)
Theorem C1_traversal_names_are_sanitized (settings : Settings) (user : User.t)
    (filename : str) (w : World) :
  contains (py "../") filename = true \/ starts_with (py "/") filename = true ->
  fst (_get_safe_file_path settings user filename w) <> Err PathTraversal
  /\ ((fst (_get_safe_file_path settings user filename w) = Err InvalidName
       \/ fst (_get_safe_file_path settings user filename w) = Err OSError)
      \/ exists name,
           _validate_filename filename = Ok name
           /\ Forall (fun c => c ≠ ch_slash) name
           /\ name ≠ py ".."
           /\ fst (_get_safe_file_path settings user filename w)
              = Ok (resolve (user_dir_of settings user) ++ parse_path name)).
Proof.
  intros _. pose proof (_get_safe_file_path_run settings user filename w) as Hs.
  destruct (_validate_filename filename) as [name|e] eqn:Hname.
  - destruct (mkdir_exist_ok _ _) as [d|e].
    + destruct Hs as [-> _]. split; [done|]. right. exists name.
      destruct (_validate_filename_safe _ _ Hname). done.
    + destruct Hs as [-> ->]. split; [done|]. left. by right.
  - destruct Hs as [-> ->]. split; [done|]. left. by left.
Qed.

Lemma C1_witness :
  fst (_get_safe_file_path default_settings alice (py "../etc/passwd")
         fresh_world) <> Err PathTraversal.
Proof.
  refine (proj1 (C1_traversal_names_are_sanitized default_settings alice
                   (py "../etc/passwd") fresh_world _)).
  left. reflexivity.
Defined.

(** ** The archive validator *)

Section Validator.
Variable settings : Settings.

Lemma validate_entries_cons (e : ZipInfo.t) (rest : list ZipInfo.t)
    (total count : Z) (ratios : list float) :
  validate_entries settings (e :: rest) total count ratios =
  match entry_verdict settings e with
  | Some err => Err err
  | None =>
      if ZipInfo.is_dir e then validate_entries settings rest total count ratios
      else validate_entries settings rest (total + ZipInfo.file_size e)
             (count + 1)
             (if 0 <? ZipInfo.compress_size e
              then ratios ++ [ratio_of (ZipInfo.file_size e)
                                (ZipInfo.compress_size e)]
              else ratios)
  end.
Proof.
  cbn [validate_entries]. unfold entry_verdict, dangerous_name.
  destruct (ZipInfo.is_dir e); [done|].
  destruct (max_file_size settings <? _); [done|].
  destruct (0 <? ZipInfo.compress_size e); cbn [andb]; [|by destruct (_ || _)].
  destruct (float_gt _ _); [done|]. by destruct (_ || _).
Qed.

(** A run of the loop that ends normally has accumulated the declared
    figures of the archive. *)
Lemma validate_entries_ok (zipf : list ZipInfo.t) (total count : Z)
    (ratios : list float) (total' count' : Z) (ratios' : list float) :
  validate_entries settings zipf total count ratios
    = Ok (total', count', ratios') ->
  total' = total + declared_total zipf /\
  count' = count + len (active_entries zipf) /\
  ratios' = ratios ++ declared_ratios zipf /\
  Forall (fun e => entry_verdict settings e = None) zipf.
Proof.
  revert total count ratios.
  induction zipf as [|e rest IH]; intros total count ratios.
  - cbn. intros [= <- <- <-]. rewrite app_nil_r.
    repeat split; [lia | unfold len; cbn; lia | constructor].
  - rewrite validate_entries_cons.
    destruct (entry_verdict settings e) eqn:Hv; [done|].
    unfold declared_total, declared_ratios, active_entries in *.
    cbn [List.filter]. destruct (ZipInfo.is_dir e) eqn:Hd; cbn [negb].
    + intros Hok. destruct (IH _ _ _ Hok) as (-> & -> & -> & Hall).
      repeat split; auto.
    + intros Hok. destruct (IH _ _ _ Hok) as (-> & -> & -> & Hall).
      cbn [List.filter List.map fold_right].
      destruct (0 <? ZipInfo.compress_size e);
        cbn [List.map]; rewrite <- ?app_assoc; unfold len; cbn [List.length app];
        repeat split; auto; lia.
Qed.

(** The loop stops at the first entry with a verdict. *)
Lemma validate_entries_first (pre : list ZipInfo.t) (e : ZipInfo.t)
    (post : list ZipInfo.t) (err : error) (total count : Z) (ratios : list float) :
  Forall (fun x => entry_verdict settings x = None) pre ->
  entry_verdict settings e = Some err ->
  validate_entries settings (pre ++ e :: post) total count ratios = Err err.
Proof.
  intros Hpre He. revert total count ratios.
  induction Hpre as [|x pre Hx _ IH]; intros total count ratios.
  - cbn [app]. by rewrite validate_entries_cons, He.
  - cbn [app]. rewrite validate_entries_cons, Hx.
    destruct (ZipInfo.is_dir x); apply IH.
Qed.

(** Whatever the loop raises is the verdict on one of the entries. *)
Lemma validate_entries_err (zipf : list ZipInfo.t) (total count : Z)
    (ratios : list float) (err : error) :
  validate_entries settings zipf total count ratios = Err err ->
  exists e, In e zipf /\ entry_verdict settings e = Some err.
Proof.
  revert total count ratios.
  induction zipf as [|e rest IH]; intros total count ratios; [done|].
  rewrite validate_entries_cons.
  destruct (entry_verdict settings e) eqn:Hv.
  - intros [= <-]. exists e. split; [by left|done].
  - intros Herr.
    assert (exists x, In x rest /\ entry_verdict settings x = Some err)
      as (x & Hin & Hx)
      by (destruct (ZipInfo.is_dir e); eapply IH; eassumption).
    exists x. split; [by right|done].
Qed.

Lemma validate_entries_total (zipf : list ZipInfo.t) (total count : Z)
    (ratios : list float) :
  Forall (fun e => entry_verdict settings e = None) zipf ->
  validate_entries settings zipf total count ratios =
  Ok (total + declared_total zipf, count + len (active_entries zipf),
      ratios ++ declared_ratios zipf).
Proof.
  intros Hall.
  destruct (validate_entries settings zipf total count ratios)
    as [[[t c] r]|err] eqn:Hrun.
  - by destruct (validate_entries_ok _ _ _ _ _ _ _ Hrun) as (-> & -> & -> & _).
  - destruct (validate_entries_err _ _ _ _ _ Hrun) as (e & Hin & He).
    rewrite Forall_forall in Hall. apply list_elem_of_In in Hin.
    specialize (Hall _ Hin). congruence.
Qed.
End Validator.

Section ValidatorVerdicts.
Context `{Platform}.
Variable settings : Settings.

Lemma entry_verdict_cases (e : ZipInfo.t) (err : error) :
  entry_verdict settings e = Some err ->
  ZipInfo.is_dir e = false /\
  (err = EntryTooLarge /\ max_file_size settings < ZipInfo.file_size e
   \/ err = SuspiciousCompressionRatio
      /\ 0 < ZipInfo.compress_size e
      /\ float_gt (ratio_of (ZipInfo.file_size e) (ZipInfo.compress_size e))
           (float_of_int 100) = true
   \/ err = DangerousPath /\ dangerous_name (ZipInfo.filename e) = true).
Proof.
  unfold entry_verdict. destruct (ZipInfo.is_dir e); [done|].
  destruct (Z.ltb_spec (max_file_size settings) (ZipInfo.file_size e)).
  { intros [= <-]. split; [done|]. by left. }
  destruct (Z.ltb_spec 0 (ZipInfo.compress_size e)); cbn [andb].
  - destruct (float_gt _ _) eqn:Hq.
    + intros [= <-]. split; [done|]. right; left. done.
    + destruct (dangerous_name _) eqn:Hn; [|done]. intros [= <-].
      split; [done|]. right; right. done.
  - destruct (dangerous_name _) eqn:Hn; [|done]. intros [= <-].
    split; [done|]. right; right. done.
Qed.

(** An entry with a verdict makes the loop raise. *)
Lemma validate_entries_fails (zipf : list ZipInfo.t) (total count : Z)
    (ratios : list float) (e : ZipInfo.t) :
  In e zipf -> entry_verdict settings e <> None ->
  exists err, validate_entries settings zipf total count ratios = Err err.
Proof.
  intros Hin He.
  destruct (validate_entries settings zipf total count ratios)
    as [[[t c] r]|err] eqn:Hrun; [|by exists err].
  destruct (validate_entries_ok _ _ _ _ _ _ _ _ Hrun) as (_ & _ & _ & Hall).
  rewrite Forall_forall in Hall. apply list_elem_of_In in Hin.
  by specialize (Hall _ Hin).
Qed.

Lemma dangerous_entry_verdict (e : ZipInfo.t) :
  ZipInfo.is_dir e = false -> dangerous_name (ZipInfo.filename e) = true ->
  entry_verdict settings e <> None.
Proof.
  intros Hd Hn. unfold entry_verdict. rewrite Hd, Hn.
  destruct (max_file_size settings <? _); [done|].
  by destruct (_ && _).
Qed.

Lemma bomb_entry_verdict (e : ZipInfo.t) :
  ZipInfo.is_dir e = false -> 0 < ZipInfo.compress_size e ->
  float_gt (ratio_of (ZipInfo.file_size e) (ZipInfo.compress_size e))
    (float_of_int 100) = true ->
  entry_verdict settings e <> None.
Proof.
  intros Hd Hc Hr. unfold entry_verdict. rewrite Hd, Hr.
  destruct (Z.ltb_spec 0 (ZipInfo.compress_size e)); [|lia].
  by destruct (_ <? _).
Qed.

(** The errors of the validator, by the place that raises them. *)
Lemma validate_zip_err (zipf : list ZipInfo.t) (err : error) :
  validate_zip settings zipf = Err err ->
  (exists e, In e zipf /\ entry_verdict settings e = Some err)
  \/ Forall (fun e => entry_verdict settings e = None) zipf
     /\ (err = ArchiveTooManyFiles
           /\ max_archive_files settings < len (active_entries zipf)
         \/ err = ArchiveTooLarge
           /\ max_zip_size settings < declared_total zipf
         \/ err = SuspiciousCompressionRatio
           /\ float_gt (mean (declared_ratios zipf)) (float_of_int 50) = true).
Proof.
  unfold validate_zip.
  destruct (validate_entries settings zipf 0 0 []) as [[[t c] r]|e] eqn:Hrun.
  - destruct (validate_entries_ok _ _ _ _ _ _ _ _ Hrun) as (-> & -> & -> & Hall).
    rewrite !Z.add_0_l, app_nil_l. intros Herr. right. split; [done|].
    revert Herr.
    destruct (Z.ltb_spec (max_archive_files settings) (len (active_entries zipf))).
    { intros [= <-]. by left. }
    destruct (Z.ltb_spec (max_zip_size settings) (declared_total zipf)).
    { intros [= <-]. right; by left. }
    destruct (negb _); cbn [andb]; [|done].
    destruct (float_gt _ _) eqn:Hq; [|done].
    intros [= <-]. right; by right.
  - intros [= <-]. left. by eapply validate_entries_err.
Qed.

(** The mean of no ratios, which the source does not evaluate, is no number
    and compares false. *)
Lemma mean_nil_small : float_gt (mean []) (float_of_int 50) = false.
Proof. reflexivity. Qed.

(** An archive whose declared ratios average above 50 does not pass. *)
Lemma validate_zip_mean (zipf : list ZipInfo.t) :
  float_gt (mean (declared_ratios zipf)) (float_of_int 50) = true ->
  exists err, validate_zip settings zipf = Err err.
Proof.
  intros Hmean. unfold validate_zip.
  destruct (validate_entries settings zipf 0 0 []) as [[[t c] r]|e] eqn:Hrun;
    [|by exists e].
  destruct (validate_entries_ok _ _ _ _ _ _ _ _ Hrun) as (-> & -> & -> & Hall).
  rewrite app_nil_l.
  destruct (_ <? _); [by eexists|]. destruct (_ <? _); [by eexists|].
  destruct (declared_ratios zipf) eqn:Hr.
  { by rewrite mean_nil_small in Hmean. }
  rewrite bool_decide_eq_false_2 by done. cbn [negb andb].
  rewrite Hmean. by eexists.
Qed.
End ValidatorVerdicts.

(** C3 (as stated, refuted): an archive with an entry whose name contains [..]
    need not fail with DangerousPath.  A directory entry is skipped, so the
    first archive passes validation; the size check comes before the path
    check, so the second fails with EntryTooLarge. *)
Lemma C3_counterexample :
  let skipped := [zip_entry "../evil/" 0 0 ""] in
  let oversized := [zip_entry "../../etc/passwd" 104857601 1048576 ""] in
  (exists e, In e skipped /\ dangerous_name (ZipInfo.filename e) = true) /\
  fst (_validate_zip_archive (H := sample_platform) default_settings skipped
         fresh_world) = Ok tt /\
  (exists e, In e oversized /\ dangerous_name (ZipInfo.filename e) = true) /\
  fst (_validate_zip_archive (H := sample_platform) default_settings oversized
         fresh_world)
    = Err EntryTooLarge.
Proof.
  cbv zeta. split; [|split; [|split]].
  - eexists. split; [by left|]. by vm_compute.
  - by vm_compute.
  - eexists. split; [by left|]. by vm_compute.
  - by vm_compute.
Qed.

(** C3 (amended): an archive with a non-directory entry whose name contains
    [..] or begins with [/] never passes [_validate_zip_archive]: it fails
    with DangerousPath, EntryTooLarge or SuspiciousCompressionRatio, whichever
    check fires first, and with DangerousPath when no non-directory entry is
    over the size limit or over ratio 100, the ratio being the float the
    code compares. *)
Theorem C3_dangerous_entry_rejected `{Platform} (settings : Settings)
    (zipf : list ZipInfo.t) (w : World) :
  (exists e, In e zipf /\ ZipInfo.is_dir e = false
             /\ dangerous_name (ZipInfo.filename e) = true) ->
  (exists err,
      _validate_zip_archive settings zipf w = (Err err, w)
      /\ (err = DangerousPath \/ err = EntryTooLarge
          \/ err = SuspiciousCompressionRatio))
  /\ (Forall (fun e =>
                ZipInfo.is_dir e = false ->
                ZipInfo.file_size e <= max_file_size settings
                /\ ~ (0 < ZipInfo.compress_size e
                      /\ float_gt (ratio_of (ZipInfo.file_size e)
                                     (ZipInfo.compress_size e))
                           (float_of_int 100) = true)) zipf ->
      _validate_zip_archive settings zipf w = (Err DangerousPath, w)).
Proof.
  intros (e & Hin & Hd & Hn).
  destruct (validate_entries_fails settings zipf 0 0 [] e Hin
              (dangerous_entry_verdict settings e Hd Hn)) as [err Herr].
  assert (Hrun : _validate_zip_archive settings zipf w = (Err err, w)).
  { unfold _validate_zip_archive, bind, lift, validate_zip. by rewrite Herr. }
  destruct (validate_entries_err _ _ _ _ _ _ Herr) as (x & Hx & Hv).
  destruct (entry_verdict_cases _ _ _ Hv) as (Hxd & Hcases).
  split.
  - exists err. split; [done|]. destruct Hcases as [[-> _]|[[-> _]|[-> _]]]; auto.
  - intros Hall. rewrite Hrun. rewrite Forall_forall in Hall.
    apply list_elem_of_In in Hx. destruct (Hall x Hx Hxd) as [Hsize Hratio].
    destruct Hcases as [[_ ?]|[[_ ?]|[-> _]]]; [lia|tauto|done].
Qed.

Lemma C3_witness :
  _validate_zip_archive (H := sample_platform) default_settings
    [zip_entry "../../etc/passwd" 5 5 "hello"] fresh_world
  = (Err DangerousPath, fresh_world).
Proof.
  refine (proj2 (C3_dangerous_entry_rejected (H := sample_platform)
                   default_settings
                   [zip_entry "../../etc/passwd" 5 5 "hello"] fresh_world _) _).
  - exists (zip_entry "../../etc/passwd" 5 5 "hello").
    split; [by left|]. split; reflexivity.
  - repeat constructor; [by vm_compute|].
    intros [_ Hr]. by vm_compute in Hr.
Defined.

(** C2 (as stated, refuted): an archive with an entry of ratio above 100, or
    of mean ratio above 50, need not fail with SuspiciousCompressionRatio,
    and need not fail at all.  A directory entry is skipped whatever its
    sizes; the size check of an entry comes before its ratio check; the path
    check of an entry comes before the mean is looked at.  And the code
    compares floats: the four ratios of the last archive have a mean just
    above 50, each rounds to a float, the floats add up to 200.0 with or
    without compensation, and the archive passes. *)
Lemma C2_counterexample :
  let skipped := [zip_entry "bomb/" 1000 1 ""] in
  let oversized := [zip_entry "bomb.bin" 1000000000000 1 ""] in
  let dotted := [zip_entry "a/../b" 60 1 ""] in
  let rounded := [zip_entry "a" 152798 6989 ""; zip_entry "b" 393968 6105 "";
                  zip_entry "c" 158764 6473 ""; zip_entry "d" 595577 6686 ""] in
  (exists e, In e skipped /\ 0 < ZipInfo.compress_size e
             /\ (100 < exact_ratio e)%Q)
  /\ fst (_validate_zip_archive (H := sample_platform) default_settings
            skipped fresh_world) = Ok tt
  /\ (exists e, In e oversized /\ 0 < ZipInfo.compress_size e
             /\ (100 < exact_ratio e)%Q)
  /\ fst (_validate_zip_archive (H := sample_platform) default_settings
            oversized fresh_world)
      = Err EntryTooLarge
  /\ (50 < exact_mean dotted)%Q
  /\ fst (_validate_zip_archive (H := sample_platform) default_settings
            dotted fresh_world)
      = Err DangerousPath
  /\ (50 < exact_mean rounded)%Q
  /\ (forall compensates,
        mean (H := platform_summing compensates) (declared_ratios rounded)
        = float_of_int 50
        /\ fst (_validate_zip_archive (H := platform_summing compensates)
                  default_settings rounded fresh_world) = Ok tt).
Proof.
  cbv zeta. split; [|split; [|split; [|split; [|split; [|split; [|split]]]]]].
  - eexists. split; [by left|]. by vm_compute.
  - by vm_compute.
  - eexists. split; [by left|]. by vm_compute.
  - by vm_compute.
  - by vm_compute.
  - by vm_compute.
  - by vm_compute.
  - intros [|]; split; by vm_compute.
Qed.

Section Extraction.
Context `{Platform}.

(** A failed validation ends the extraction before any [zipf.read]. *)
Lemma _safe_zip_extraction_invalid (settings : Settings)
    (zipf : list ZipInfo.t) (extract_dir : path) (user : User.t)
    (ip_address : option str) (w : World) (err : error) :
  validate_zip settings zipf = Err err ->
  _safe_zip_extraction settings zipf extract_dir user ip_address w =
  (Err (ExtractionFailed err),
   with_log (log w ++ [{| level := ERROR;
                          message := py "ZIP extraction error" |}]) w).
Proof.
  intros Herr.
  unfold _safe_zip_extraction, try_except, _validate_zip_archive, bind, lift.
  by rewrite Herr.
Qed.

(** C2 (amended): an archive in which the ratio of a non-directory entry, as
    the float the code computes, is above 100, or in which the mean the code
    computes (the float sum of the ratios of the non-directory entries with
    nonzero compressed size, in the order of the archive, divided by their
    number) is above 50, never passes validation.  The error is
    SuspiciousCompressionRatio when no other check fires (no entry over the
    size limit or with a dangerous name, entry count and total size within
    the limits), and the extraction stops with no entry decompressed and
    the store as it was. *)
Theorem C2_bomb_rejected_before_decompression (settings : Settings)
    (zipf : list ZipInfo.t) (extract_dir : path) (user : User.t)
    (ip_address : option str) (w : World) :
  (float_gt (mean (declared_ratios zipf)) (float_of_int 50) = true
   \/ exists e, In e zipf /\ ZipInfo.is_dir e = false
                /\ 0 < ZipInfo.compress_size e
                /\ float_gt (ratio_of (ZipInfo.file_size e)
                               (ZipInfo.compress_size e))
                     (float_of_int 100) = true) ->
  exists err w',
    _validate_zip_archive settings zipf w = (Err err, w)
    /\ (Forall (fun e =>
                  ZipInfo.is_dir e = false ->
                  ZipInfo.file_size e <= max_file_size settings
                  /\ dangerous_name (ZipInfo.filename e) = false) zipf ->
        len (active_entries zipf) <= max_archive_files settings ->
        declared_total zipf <= max_zip_size settings ->
        err = SuspiciousCompressionRatio)
    /\ _safe_zip_extraction settings zipf extract_dir user ip_address w
       = (Err (ExtractionFailed err), w')
    /\ decompressed w' = decompressed w
    /\ files w' = files w
    /\ disk w' = disk w.
Proof.
  intros Hbomb.
  assert (exists err, validate_zip settings zipf = Err err) as [err Herr].
  { destruct Hbomb as [Hmean|(e & Hin & Hd & Hc & Hr)].
    - by apply validate_zip_mean.
    - destruct (validate_entries_fails settings zipf 0 0 [] e Hin
                  (bomb_entry_verdict settings e Hd Hc Hr)) as [err Herr].
      exists err. unfold validate_zip. by rewrite Herr. }
  exists err.
  exists (with_log (log w ++ [{| level := ERROR;
                                 message := py "ZIP extraction error" |}]) w).
  split; [|split; [|split; [|done]]].
  - unfold _validate_zip_archive, bind, lift. by rewrite Herr.
  - intros Hall Hcount Htotal. rewrite Forall_forall in Hall.
    destruct (validate_zip_err _ _ _ Herr)
      as [(x & Hx & Hv)|(_ & [[_ ?]|[[_ ?]|[-> _]]])]; [|lia|lia|done].
    destruct (entry_verdict_cases _ _ _ Hv) as (Hxd & Hcases).
    apply list_elem_of_In in Hx. destruct (Hall x Hx Hxd) as [Hsize Hname].
    destruct Hcases as [[_ ?]|[[-> _]|[_ ?]]]; [lia|done|congruence].
  - by apply _safe_zip_extraction_invalid.
Qed.
End Extraction.

Lemma C2_witness :
  exists err w',
    _validate_zip_archive (H := sample_platform) default_settings
      [zip_entry "bomb.bin" 1000 1 ""] fresh_world = (Err err, fresh_world)
    /\ err = SuspiciousCompressionRatio
    /\ _safe_zip_extraction (H := sample_platform) default_settings
         [zip_entry "bomb.bin" 1000 1 ""]
         [py "app"; py "safe_storage"; py "user_1"; py "temp_extract_1"]
         alice None fresh_world
       = (Err (ExtractionFailed err), w')
    /\ decompressed w' = []
    /\ files w' = ∅.
Proof.
  destruct (C2_bomb_rejected_before_decompression (H := sample_platform)
              default_settings [zip_entry "bomb.bin" 1000 1 ""]
              [py "app"; py "safe_storage"; py "user_1"; py "temp_extract_1"]
              alice None fresh_world)
    as (err & w' & Hv & Hkind & Hx & Hd & Hf & _).
  - right. exists (zip_entry "bomb.bin" 1000 1 "").
    split; [by left|]. split; [reflexivity|]. split; [reflexivity|].
    by vm_compute.
  - exists err, w'. split; [done|]. split; [|by split].
    apply Hkind; [|by vm_compute..].
    repeat constructor; by vm_compute.
Defined.

(** ** Runs of the monad *)

Ltac world_simpl :=
  cbn [files file_seq operations disk log entropy decompressed
       with_files with_file_seq with_operations with_disk with_log
       with_entropy with_decompressed fst snd].

Tactic Notation "world_simpl" "in" hyp(H) :=
  cbn [files file_seq operations disk log entropy decompressed
       with_files with_file_seq with_operations with_disk with_log
       with_entropy with_decompressed fst snd] in H.

Lemma bind_ok {A B} (m : M A) (k : A -> M B) (w w' : World) (b : B) :
  bind m k w = (Ok b, w') ->
  exists a w1, m w = (Ok a, w1) /\ k a w1 = (Ok b, w').
Proof.
  unfold bind. destruct (m w) as [[a|e] w1]; [|done]. intros Hk. by exists a, w1.
Qed.

Lemma bind_run {A B} (m : M A) (k : A -> M B) (w w1 : World) (a : A) :
  m w = (Ok a, w1) -> bind m k w = k a w1.
Proof. unfold bind. by intros ->. Qed.

Lemma bind_raise {A B} (m : M A) (k : A -> M B) (w w1 : World) (e : error) :
  m w = (Err e, w1) -> bind m k w = (Err e, w1).
Proof. unfold bind. by intros ->. Qed.

Lemma raise_if_ok (c : bool) (e : error) (w w' : World) (u : unit) :
  raise_if c e w = (Ok u, w') -> c = false /\ w' = w.
Proof. unfold raise_if. destruct c; [done|]. by intros [= _ <-]. Qed.

Lemma with_log_id (w : World) : with_log (log w) w = w.
Proof. by destruct w. Qed.

(** ** CryptoService: the checksum is the digest of the whole file *)

Lemma fold_left_app_concat (chunks : list bytes) (acc : bytes) :
  fold_left (fun h chunk => h ++ chunk) chunks acc = acc ++ List.concat chunks.
Proof.
  revert acc. induction chunks as [|c chunks IH]; intros acc; cbn.
  - by rewrite app_nil_r.
  - by rewrite IH, app_assoc.
Qed.

Lemma read_chunks_concat (fuel n : nat) (data : bytes) :
  (0 < n)%nat -> (List.length data < fuel)%nat ->
  List.concat (read_chunks fuel n data) = data.
Proof.
  intros Hn. revert data.
  induction fuel as [|fuel IH]; intros data Hlen; [lia|].
  destruct data as [|b data]; [done|].
  cbn [read_chunks List.concat]. rewrite IH.
  - apply firstn_skipn.
  - rewrite length_skipn. destruct n; [lia|]. cbn [List.length] in *. lia.
Qed.

Section FileStoreRuns.
Context `{Platform}.
Variable settings : Settings.

Lemma calculate_file_checksum_run (file_path : path) (w : World) :
  calculate_file_checksum file_path w =
  match fs_read_bytes (disk w) file_path with
  | Ok data => (Ok (sha256_hexdigest data), w)
  | Err e => (Err e, w)
  end.
Proof.
  unfold calculate_file_checksum, bind, read_bytes, ret.
  destruct (fs_read_bytes _ _) as [data|e]; [|done].
  rewrite fold_left_app_concat, read_chunks_concat by lia. done.
Qed.

Lemma fs_write_bytes_ok (d d' : gmap path node) (p : path) (data : bytes) :
  fs_write_bytes d p data = Ok d' ->
  d' = <[resolve p := RegularFile data]> d
  /\ is_dir d p = false
  /\ is_dir d (removelast (resolve p)) = true.
Proof.
  unfold fs_write_bytes. destruct (is_dir d p); [done|].
  destruct (is_dir d (removelast _)); [|done]. by intros [= <-].
Qed.

Lemma fs_read_after_write (d : gmap path node) (p : path) (data : bytes) :
  fs_read_bytes (<[resolve p := RegularFile data]> d) p = Ok data.
Proof. unfold fs_read_bytes. by rewrite lookup_insert_eq. Qed.

End FileStoreRuns.

(** ** JsonXmlService: the verdict and the warnings *)

Lemma _validate_json_security_run (data : pyval) (w : World) :
  _validate_json_security data w =
  (Ok tt, with_log (log w ++ List.map warning_of (check_value data)) w).
Proof.
  unfold _validate_json_security.
  generalize (check_value data) as found. intros found. revert w.
  induction found as [|p found IH]; intros w.
  - cbn. by rewrite app_nil_r, with_log_id.
  - cbn [for_each List.map]. unfold bind at 1. cbn [logger modify].
    rewrite IH. cbn [log with_log]. by rewrite <- app_assoc.
Qed.

Section FormatRuns.
Context `{Platform}.

(** A content within the limits loads, and the log gets one warning for
    every pattern the scan finds, then the INFO record. *)
Lemma safe_load_json_within (content : str) (w : World) :
  json_within_limits content = true ->
  exists data,
    json_loads content = Some data
    /\ safe_load_json content w =
       (Ok data,
        with_log (log w ++ List.map warning_of (check_value data)
                  ++ [{| level := INFO;
                         message := py "Successfully loaded JSON data" |}]) w).
Proof.
  unfold json_within_limits. intros [Hsize Hdata]%andb_true_iff.
  destruct (json_loads content) as [data|] eqn:Hload; [|done].
  exists data. split; [done|].
  unfold safe_load_json, try_except, bind, raise_if.
  replace (max_json_size <? utf8_len content) with false
    by (symmetry; apply Z.ltb_ge; by apply Z.leb_le).
  rewrite Hload. cbn [ret].
  replace (max_json_depth <? _get_json_depth data 0) with false
    by (symmetry; apply Z.ltb_ge; by apply Z.leb_le).
  cbn [ret]. rewrite _validate_json_security_run.
  cbn [logger modify log with_log]. by rewrite <- app_assoc.
Qed.

Lemma safe_load_json_beyond (content : str) (w : World) :
  json_within_limits content = false ->
  exists e,
    safe_load_json content w =
    (Err e, with_log (log w ++ [{| level := ERROR;
                                   message := py "Failed to load JSON" |}]) w).
Proof.
  unfold json_within_limits, safe_load_json, try_except, bind, raise_if.
  destruct (Z.leb_spec (utf8_len content) max_json_size) as [Hs|Hs].
  2:{ intros _. replace (max_json_size <? utf8_len content) with true
        by (symmetry; by apply Z.ltb_lt).
      by eexists. }
  replace (max_json_size <? utf8_len content) with false
    by (symmetry; by apply Z.ltb_ge).
  cbn [andb ret]. destruct (json_loads content) as [data|]; [|by eexists].
  intros Hd. cbn [ret].
  replace (max_json_depth <? _get_json_depth data 0) with true
    by (symmetry; apply Z.ltb_lt; by apply Z.leb_gt).
  by eexists.
Qed.

Lemma safe_load_xml_within (content : str) (w : World) :
  xml_within_limits content = true ->
  exists root,
    xml_fromstring content = Some root
    /\ safe_load_xml content w =
       (Ok (_xml_to_dict root),
        with_log (log w ++ List.map warning_of (check_value (_xml_to_dict root))
                  ++ [{| level := INFO;
                         message := py "Successfully loaded XML data" |}]) w).
Proof.
  unfold xml_within_limits. intros [Hsize Hdata]%andb_true_iff.
  destruct (xml_fromstring content) as [root|] eqn:Hload; [|done].
  exists root. split; [done|].
  unfold safe_load_xml, try_except, bind, raise_if.
  replace (max_xml_size <? utf8_len content) with false
    by (symmetry; apply Z.ltb_ge; by apply Z.leb_le).
  rewrite Hload. cbn [ret].
  replace (max_xml_elements <? element_count root) with false
    by (symmetry; apply Z.ltb_ge; by apply Z.leb_le).
  cbn [ret]. unfold _validate_xml_security.
  rewrite _validate_json_security_run.
  cbn [logger modify log with_log]. by rewrite <- app_assoc.
Qed.

Lemma safe_load_xml_beyond (content : str) (w : World) :
  xml_within_limits content = false ->
  exists e,
    safe_load_xml content w =
    (Err e, with_log (log w ++ [{| level := ERROR;
                                   message := py "Failed to load XML" |}]) w).
Proof.
  unfold xml_within_limits, safe_load_xml, try_except, bind, raise_if.
  destruct (Z.leb_spec (utf8_len content) max_xml_size) as [Hs|Hs].
  2:{ intros _. replace (max_xml_size <? utf8_len content) with true
        by (symmetry; by apply Z.ltb_lt).
      by eexists. }
  replace (max_xml_size <? utf8_len content) with false
    by (symmetry; by apply Z.ltb_ge).
  cbn [andb ret]. destruct (xml_fromstring content) as [root|]; [|by eexists].
  intros Hd. cbn [ret].
  replace (max_xml_elements <? element_count root) with true
    by (symmetry; apply Z.ltb_lt; by apply Z.leb_gt).
  by eexists.
Qed.

(** [validate_file_format] returns [format_valid], and touches the log
    only. *)
Lemma validate_file_format_run (filename content : str) (w : World) :
  exists l,
    validate_file_format filename content w =
    (Ok (format_valid filename content), with_log l w).
Proof.
  unfold validate_file_format, format_valid, try_except.
  destruct (ends_with (py ".json") _).
  { destruct (json_within_limits content) eqn:Hj.
    - destruct (safe_load_json_within content w Hj) as (data & _ & Hrun).
      rewrite (bind_run _ _ _ _ _ Hrun). by eexists.
    - destruct (safe_load_json_beyond content w Hj) as (e & Hrun).
      rewrite (bind_raise _ _ _ _ _ Hrun). by eexists. }
  destruct (ends_with (py ".xml") _).
  { destruct (xml_within_limits content) eqn:Hx.
    - destruct (safe_load_xml_within content w Hx) as (root & _ & Hrun).
      rewrite (bind_run _ _ _ _ _ Hrun). by eexists.
    - destruct (safe_load_xml_beyond content w Hx) as (e & Hrun).
      rewrite (bind_raise _ _ _ _ _ Hrun). by eexists. }
  exists (log w). cbn. by rewrite with_log_id.
Qed.

(** On a valid structured content the log grows by the warnings of the scan
    and one INFO record: nothing else happens. *)
Lemma validate_file_format_valid (filename content : str) (w : World) :
  is_structured filename = true ->
  format_valid filename content = true ->
  exists data info,
    scanned_value filename content = Some data
    /\ level info = INFO
    /\ validate_file_format filename content w =
       (Ok true,
        with_log (log w ++ List.map warning_of (check_value data) ++ [info]) w).
Proof.
  unfold is_structured, format_valid, scanned_value, validate_file_format,
    try_except.
  destruct (ends_with (py ".json") _).
  { intros _ Hj.
    destruct (safe_load_json_within content w Hj) as (data & -> & Hrun).
    rewrite (bind_run _ _ _ _ _ Hrun).
    exists data, {| level := INFO; message := py "Successfully loaded JSON data" |}.
    by split; [|split]. }
  destruct (ends_with (py ".xml") _); [|done].
  intros _ Hx.
  destruct (safe_load_xml_within content w Hx) as (root & -> & Hrun).
  rewrite (bind_run _ _ _ _ _ Hrun).
  exists (_xml_to_dict root),
    {| level := INFO; message := py "Successfully loaded XML data" |}.
  by split; [|split].
Qed.
End FormatRuns.

(** ** FileService.create_file: every outcome *)

Section CreateRuns.
Context `{Platform}.
Variable settings : Settings.

(** The outcome of the [try] block, check by check in the order of the
    source. *)
Lemma create_file_try_cases (user : User.t) (filename : str) (content : bytes)
    (encrypt : bool) (directory_id : option Z) (ip_address : option str)
    (w : World) :
  let run := create_file_try settings user filename content encrypt
               directory_id ip_address w in
  exists l,
    if max_file_size settings <? len content
    then run = (Err SizeLimitExceeded, w)
    else if is_structured filename
            && negb (format_valid filename (utf8_decode_replace content))
    then run = (Err InvalidFormat, with_log l w)
    else
      match _validate_filename filename with
      | Err _ => run = (Err InvalidName, with_log l w)
      | Ok name =>
          match mkdir_exist_ok (disk w) (user_dir_of settings user) with
          | Err _ => run = (Err OSError, with_log l w)
          | Ok d1 =>
              match map_to_list (records_for user directory_id filename w) with
              | _ :: _ :: _ =>
                  run = (Err MultipleResultsFound, with_disk d1 (with_log l w))
              | [_] => run = (Err DuplicateName, with_disk d1 (with_log l w))
              | [] =>
                  let final_content := final_content_of encrypt content w in
                  match fs_write_bytes d1 (storage_path_of settings user name)
                          final_content with
                  | Err _ =>
                      exists w', run = (Err OSError, w')
                                 /\ files w' = files w /\ disk w' = d1
                                 /\ operations w' = operations w
                                 /\ decompressed w' = decompressed w
                                 /\ file_seq w' = file_seq w
                  | Ok d2 =>
                      let f := new_record settings user filename name content
                                 encrypt directory_id w in
                      exists w' entry,
                        run = (Ok f, w')
                        /\ files w' = <[file_seq w := f]> (files w)
                        /\ file_seq w' = file_seq w + 1
                        /\ disk w' = d2
                        /\ operations w' = operations w ++ [entry]
                        /\ Operation.success entry = true
                        /\ Operation.file_id entry = Some (file_seq w)
                        /\ decompressed w' = decompressed w
                  end
              end
          end
      end.
Proof.
  intros run. remember run as r eqn:Hrun. subst run.
  unfold create_file_try in Hrun. cbv zeta in Hrun. cbv zeta.
  destruct (max_file_size settings <? len content) eqn:Hsize.
  { exists []. by rewrite Hrun. }
  unfold bind at 1 in Hrun. cbn [raise_if ret] in Hrun.
  assert (exists l,
    (if ends_with (py ".json") (lower filename)
        || ends_with (py ".xml") (lower filename)
     then let* valid := validate_file_format filename
                          (utf8_decode_replace content) in
          raise_if (negb valid) InvalidFormat
     else ret tt) w
    = (if is_structured filename
          && negb (format_valid filename (utf8_decode_replace content))
       then Err InvalidFormat else Ok tt, with_log l w)) as [l Hfmt].
  { fold (is_structured filename).
    destruct (is_structured filename); cbn [andb].
    - destruct (validate_file_format_run filename
                  (utf8_decode_replace content) w) as [l Hv].
      exists l. rewrite (bind_run _ _ _ _ _ Hv).
      by destruct (format_valid _ _).
    - exists (log w). cbn. by rewrite with_log_id. }
  exists l.
  destruct (is_structured filename && negb _).
  { by rewrite (bind_raise _ _ _ _ _ Hfmt) in Hrun. }
  rewrite (bind_run _ _ _ _ _ Hfmt) in Hrun. clear Hfmt.
  pose proof (_get_safe_file_path_run settings user filename (with_log l w))
    as Hp.
  destruct (_validate_filename filename) as [name|e].
  2:{ destruct Hp as [-> Hp]. by rewrite (bind_raise _ _ _ _ _ Hp) in Hrun. }
  cbn [disk with_log] in Hp.
  destruct (mkdir_exist_ok _ _) as [d1|e].
  2:{ destruct Hp as [-> Hp]. by rewrite (bind_raise _ _ _ _ _ Hp) in Hrun. }
  destruct Hp as [Hp _]. rewrite (bind_run _ _ _ _ _ Hp) in Hrun. clear Hp.
  unfold bind at 1 in Hrun. unfold select_files at 1 in Hrun.
  cbn [files with_disk with_log] in Hrun.
  fold (storage_path_of settings user name) in Hrun.
  change (filter _ (files w))
    with (records_for user directory_id filename w) in Hrun.
  destruct (map_to_list (records_for user directory_id filename w))
    as [|r1 [|r2 rows]]; cbn [List.map] in Hrun;
    [|by rewrite Hrun..].
  unfold bind at 1 in Hrun. cbn [scalar_one_or_none ret] in Hrun.
  unfold bind at 1 in Hrun. cbn [raise_if ret] in Hrun.
  assert ((if encrypt
           then let* encryption_key := generate_file_encryption_key in
                encrypt_data content encryption_key
           else ret content) (with_disk d1 (with_log l w))
          = (Ok (final_content_of encrypt content w),
             if encrypt
             then with_entropy (N.succ (N.succ (entropy w)))
                    (with_disk d1 (with_log l w))
             else with_disk d1 (with_log l w))) as Hfinal.
  { unfold final_content_of. by destruct encrypt. }
  rewrite (bind_run _ _ _ _ _ Hfinal) in Hrun. clear Hfinal.
  set (w1 := if encrypt then _ else _) in Hrun.
  assert (disk w1 = d1 /\ files w1 = files w /\ file_seq w1 = file_seq w
          /\ operations w1 = operations w /\ decompressed w1 = decompressed w)
    as (Hd & Hf & Hs & Ho & Hz) by (subst w1; by destruct encrypt).
  unfold bind at 1 in Hrun. unfold write_bytes at 1 in Hrun.
  rewrite Hd in Hrun.
  destruct (fs_write_bytes d1 _ _) as [d2|e] eqn:Hw; cbv beta iota.
  2:{ exists w1. assert (e = OSError) as ->.
      { unfold fs_write_bytes in Hw. repeat case_match; congruence. }
      by rewrite Hrun. }
  apply fs_write_bytes_ok in Hw as (-> & _ & _).
  unfold bind at 1 in Hrun. rewrite calculate_file_checksum_run in Hrun.
  cbn [disk with_disk] in Hrun. rewrite fs_read_after_write in Hrun.
  unfold bind, session_add_file, log_operation, modify, logger, ret in Hrun.
  world_simpl in Hrun. rewrite Hf, Hs in Hrun.
  rewrite Hrun. eexists _, _. split; [reflexivity|]. world_simpl.
  by rewrite Ho, Hz.
Qed.

(** [create_file] is its [try] block, with one failure entry appended to the
    audit table when the block raises. *)
Lemma create_file_unfold (user : User.t) (filename : str) (content : bytes)
    (encrypt : bool) (directory_id : option Z) (ip_address : option str)
    (w : World) :
  create_file settings user filename content encrypt directory_id ip_address w
  = match create_file_try settings user filename content encrypt directory_id
            ip_address w with
    | (Ok f, w') => (Ok f, w')
    | (Err e, w') =>
        (Err e,
         with_log
           (log w' ++ [ {| level := DEBUG; message := py "Operation logged" |};
                        {| level := ERROR;
                           message := py "File creation failed for "
                                      ++ filename |} ])
           (with_operations
              (operations w'
               ++ [failure_entry user CREATE
                     (py "Failed to create file: " ++ filename) ip_address e])
              w'))
    end.
Proof.
  unfold create_file, try_except.
  destruct (create_file_try _ _ _ _ _ _ _ _) as [[f|e] w']; [done|].
  unfold bind, log_operation, modify, logger, ret, raise. cbn.
  by rewrite <- app_assoc.
Qed.
End CreateRuns.

(** ** FileService.read_file, update_file, delete_file: every outcome *)

Lemma matching_record_id (user : User.t) (file_id : Z) (w : World) (f : File.t) :
  matching_record user file_id w = Some f ->
  files w !! file_id = Some f /\ File.id f = file_id
  /\ File.owner_id f = User.id user.
Proof.
  unfold matching_record. destruct (files w !! file_id) as [g|]; [|done].
  destruct (Z.eqb_spec (File.id g) file_id); [|done].
  destruct (Z.eqb_spec (File.owner_id g) (User.id user)); [|done].
  by intros [= <-].
Qed.

Ltac unfold_monad :=
  unfold try_except, bind, select_by_id, exists_, read_bytes, write_bytes,
    unlink, raise_if, lift, log_operation, session_update_file,
    session_delete_file, modify, logger, ret, raise;
  cbv beta.

Ltac finish_run :=
  eexists _, _; split; [reflexivity|]; world_simpl;
  repeat (split; [reflexivity|]); reflexivity.

Lemma fs_read_bytes_err (d : gmap path node) (p : path) (e : error) :
  fs_read_bytes d p = Err e -> e = OSError.
Proof. unfold fs_read_bytes. repeat case_match; congruence. Qed.

Lemma fs_write_bytes_err (d : gmap path node) (p : path) (data : bytes)
    (e : error) :
  fs_write_bytes d p data = Err e -> e = OSError.
Proof. unfold fs_write_bytes. repeat case_match; congruence. Qed.

Lemma fs_unlink_err (d : gmap path node) (p : path) (e : error) :
  fs_unlink d p = Err e -> e = OSError.
Proof. unfold fs_unlink. repeat case_match; congruence. Qed.

Lemma read_file_cases (user : User.t) (file_id : Z) (ip_address : option str)
    (w : World) :
  exists w' entry,
    read_file user file_id ip_address w = (read_outcome user file_id w, w')
    /\ files w' = files w /\ disk w' = disk w
    /\ decompressed w' = decompressed w
    /\ operations w' = operations w ++ [entry]
    /\ Operation.success entry = is_ok (read_outcome user file_id w)
    /\ file_seq w' = file_seq w.
Proof.
  unfold read_outcome, read_file. unfold_monad.
  change (match files w !! file_id with Some _ => _ | None => None end)
    with (matching_record user file_id w).
  destruct (matching_record user file_id w) as [f|]; cbv beta iota.
  2:{ finish_run. }
  destruct (path_exists (disk w) (File.storage_path f)); cbn [negb];
    cbv beta iota.
  2:{ finish_run. }
  destruct (fs_read_bytes (disk w) (File.storage_path f)) as [content|e] eqn:Hr;
    cbv beta iota.
  2:{ apply fs_read_bytes_err in Hr as ->. finish_run. }
  destruct (File.is_encrypted f); cbv beta iota; finish_run.
Qed.

Section UpdateDeleteRuns.
Context `{Platform}.
Variable settings : Settings.

Lemma update_file_cases (user : User.t) (file_id : Z) (new_content : bytes)
    (ip_address : option str) (w : World) :
  exists w' entry,
    update_file settings user file_id new_content ip_address w
    = (update_outcome settings user file_id new_content w, w')
    /\ files w' =
       match update_outcome settings user file_id new_content w with
       | Ok f' => <[file_id := f']> (files w)
       | Err _ => files w
       end
    /\ disk w' =
       match update_outcome settings user file_id new_content w,
             matching_record user file_id w with
       | Ok _, Some f =>
           <[resolve (File.storage_path f) := RegularFile new_content]> (disk w)
       | _, _ => disk w
       end
    /\ decompressed w' = decompressed w
    /\ operations w' = operations w ++ [entry]
    /\ Operation.success entry
       = is_ok (update_outcome settings user file_id new_content w)
    /\ file_seq w' = file_seq w.
Proof.
  unfold update_outcome, update_file. unfold_monad.
  change (match files w !! file_id with Some _ => _ | None => None end)
    with (matching_record user file_id w).
  destruct (matching_record user file_id w) as [f|] eqn:Hm; cbv beta iota.
  2:{ finish_run. }
  apply matching_record_id in Hm as (_ & Hid & _).
  destruct (max_file_size settings <? len new_content); cbv beta iota.
  { finish_run. }
  destruct (File.is_encrypted f) eqn:Henc; cbv beta iota.
  { finish_run. }
  destruct (fs_write_bytes (disk w) (File.storage_path f) new_content)
    as [d|e] eqn:Hw; cbv beta iota.
  2:{ apply fs_write_bytes_err in Hw as ->. finish_run. }
  apply fs_write_bytes_ok in Hw as (-> & _ & _).
  rewrite calculate_file_checksum_run.
  cbn [disk with_disk]. rewrite fs_read_after_write. cbv beta iota.
  unfold updated_record. rewrite Henc. cbn [File.id]. rewrite Hid.
  finish_run.
Qed.
End UpdateDeleteRuns.

Lemma delete_file_cases (user : User.t) (file_id : Z)
    (ip_address : option str) (w : World) :
  exists w' entry,
    delete_file user file_id ip_address w = (delete_outcome user file_id w, w')
    /\ files w' =
       (if is_ok (delete_outcome user file_id w)
        then delete file_id (files w) else files w)
    /\ disk w' =
       match delete_outcome user file_id w, matching_record user file_id w with
       | Ok _, Some f => delete (resolve (File.storage_path f)) (disk w)
       | _, _ => disk w
       end
    /\ decompressed w' = decompressed w
    /\ operations w' =
       (if is_ok (delete_outcome user file_id w)
        then unrelated_operations file_id (operations w) else operations w)
       ++ [entry]
    /\ Operation.success entry = is_ok (delete_outcome user file_id w)
    /\ file_seq w' = file_seq w.
Proof.
  unfold delete_outcome, delete_file. unfold_monad.
  change (match files w !! file_id with Some _ => _ | None => None end)
    with (matching_record user file_id w).
  destruct (matching_record user file_id w) as [f|] eqn:Hm; cbv beta iota.
  2:{ finish_run. }
  apply matching_record_id in Hm as (_ & Hid & _).
  destruct (path_exists (disk w) (File.storage_path f)) eqn:Hex; cbv beta iota.
  - destruct (fs_unlink (disk w) (File.storage_path f)) as [d|e] eqn:Hu;
      cbv beta iota.
    2:{ apply fs_unlink_err in Hu as ->. finish_run. }
    assert (d = delete (resolve (File.storage_path f)) (disk w)) as ->.
    { unfold fs_unlink in Hu. repeat case_match; congruence. }
    unfold unrelated_operations. rewrite Hid. finish_run.
  - assert (delete (resolve (File.storage_path f)) (disk w) = disk w) as Hnone.
    { apply delete_id. unfold path_exists in Hex.
      destruct (resolve (File.storage_path f)); [done|].
      by destruct (disk w !! _). }
    unfold unrelated_operations. rewrite Hid, Hnone. finish_run.
Qed.

(** ** FileService.create_file: success and failure *)

Lemma mkdir_exist_ok_dir (d d1 : gmap path node) (p : path) :
  mkdir_exist_ok d p = Ok d1 -> is_dir d1 p = true.
Proof.
  unfold mkdir_exist_ok. destruct (is_dir d p) eqn:Hd; [by intros [= <-]|].
  destruct (path_exists d p); [done|].
  destruct (is_dir d (removelast _)); [|done]. intros [= <-].
  unfold is_dir. destruct (resolve p); [done|]. by rewrite lookup_insert_eq.
Qed.

Lemma is_dir_mkdir (d : gmap path node) (p : path) :
  is_dir d p = true -> mkdir_exist_ok d p = Ok d.
Proof. unfold mkdir_exist_ok. by intros ->. Qed.

Lemma is_dir_insert_other (d : gmap path node) (p q : path) (n : node) :
  is_dir d p = true -> is_dir d q = false ->
  is_dir (<[resolve q := n]> d) p = true.
Proof.
  unfold is_dir. intros Hp Hq.
  destruct (resolve p) as [|c p'] eqn:Ep; [done|].
  rewrite lookup_insert_ne; [done|].
  intros Heq. rewrite Heq in Hq. by rewrite Hp in Hq.
Qed.

Lemma path_exists_after_write (d : gmap path node) (p : path) (n : node) :
  path_exists (<[resolve p := n]> d) p = true.
Proof.
  unfold path_exists. destruct (resolve p); [done|]. by rewrite lookup_insert_eq.
Qed.

Section CreateOutcomes.
Context `{Platform}.
Variable settings : Settings.

(** What a successful [create_file] has done. *)
Lemma create_file_ok (user : User.t) (filename : str) (content : bytes)
    (encrypt : bool) (directory_id : option Z) (ip_address : option str)
    (w w' : World) (f : File.t) :
  create_file settings user filename content encrypt directory_id ip_address w
    = (Ok f, w') ->
  exists name d1 entry,
    len content <= max_file_size settings
    /\ (is_structured filename = true ->
        format_valid filename (utf8_decode_replace content) = true)
    /\ _validate_filename filename = Ok name
    /\ mkdir_exist_ok (disk w) (user_dir_of settings user) = Ok d1
    /\ records_for user directory_id filename w = ∅
    /\ fs_write_bytes d1 (storage_path_of settings user name)
         (final_content_of encrypt content w) = Ok (disk w')
    /\ f = new_record settings user filename name content encrypt
             directory_id w
    /\ files w' = <[file_seq w := f]> (files w)
    /\ file_seq w' = file_seq w + 1
    /\ operations w' = operations w ++ [entry]
    /\ Operation.success entry = true
    /\ Operation.file_id entry = Some (file_seq w)
    /\ decompressed w' = decompressed w.
Proof.
  rewrite create_file_unfold.
  destruct (create_file_try_cases settings user filename content encrypt
              directory_id ip_address w) as [l Hc].
  cbv zeta in Hc.
  destruct (Z.ltb_spec (max_file_size settings) (len content)) as [Hs|Hs].
  { by rewrite Hc. }
  destruct (is_structured filename && negb _) eqn:Hfmt.
  { by rewrite Hc. }
  destruct (_validate_filename filename) as [name|e]; [|by rewrite Hc].
  destruct (mkdir_exist_ok _ _) as [d1|e]; [|by rewrite Hc].
  destruct (map_to_list (records_for user directory_id filename w))
    as [|r1 [|r2 rows]] eqn:Hrows; [|by rewrite Hc..].
  destruct (fs_write_bytes d1 _ _) as [d2|e] eqn:Hw.
  2:{ destruct Hc as (w1 & -> & _). done. }
  destruct Hc as (w1 & entry & -> & Hf & Hseq & Hd & Ho & Hsucc & Hid & Hz).
  intros [= <- <-]. exists name, d1, entry.
  rewrite Hd. repeat split; try done.
  - intros Hst. rewrite Hst in Hfmt. cbn in Hfmt.
    by apply negb_false_iff in Hfmt.
  - by apply map_to_list_empty_iff.
Qed.

(** [create_file] succeeds when every check passes. *)
Lemma create_file_succeeds (user : User.t) (filename : str) (content : bytes)
    (encrypt : bool) (directory_id : option Z) (ip_address : option str)
    (w : World) :
  create_admissible settings user filename content encrypt directory_id w ->
  (is_structured filename = true ->
   format_valid filename (utf8_decode_replace content) = true) ->
  exists f w', create_file settings user filename content encrypt directory_id
                 ip_address w = (Ok f, w').
Proof.
  intros (Hsize & name & d1 & Hname & Hmk & Hnone & Hw) Hfmt.
  rewrite create_file_unfold.
  destruct (create_file_try_cases settings user filename content encrypt
              directory_id ip_address w) as [l Hc].
  cbv zeta in Hc.
  destruct (Z.ltb_spec (max_file_size settings) (len content)); [lia|].
  replace (is_structured filename && negb _) with false in Hc.
  2:{ destruct (is_structured filename); [|done]. by rewrite Hfmt. }
  rewrite Hname, Hmk, Hnone, map_to_list_empty in Hc.
  destruct (fs_write_bytes d1 _ _) as [d2|e]; [|done].
  destruct Hc as (w' & entry & -> & _). by eexists _, _.
Qed.

(** A failed [create_file] adds no record; it appends one failure entry to
    the audit table. *)
Lemma create_file_err (user : User.t) (filename : str) (content : bytes)
    (encrypt : bool) (directory_id : option Z) (ip_address : option str)
    (w w' : World) (e : error) :
  create_file settings user filename content encrypt directory_id ip_address w
    = (Err e, w') ->
  files w' = files w
  /\ operations w'
     = operations w
       ++ [failure_entry user CREATE (py "Failed to create file: " ++ filename)
             ip_address e]
  /\ decompressed w' = decompressed w.
Proof.
  rewrite create_file_unfold.
  destruct (create_file_try_cases settings user filename content encrypt
              directory_id ip_address w) as [l Hc].
  cbv zeta in Hc.
  destruct (max_file_size settings <? len content).
  { rewrite Hc. by intros [= <- <-]. }
  destruct (is_structured filename && negb _).
  { rewrite Hc. by intros [= <- <-]. }
  destruct (_validate_filename filename) as [name|e'].
  2:{ rewrite Hc. by intros [= <- <-]. }
  destruct (mkdir_exist_ok _ _) as [d1|e'].
  2:{ rewrite Hc. by intros [= <- <-]. }
  destruct (map_to_list (records_for user directory_id filename w))
    as [|r1 [|r2 rows]].
  2,3: rewrite Hc; by intros [= <- <-].
  destruct (fs_write_bytes d1 _ _) as [d2|e'].
  - destruct Hc as (w1 & entry & -> & _). done.
  - destruct Hc as (w1 & -> & Hf & _ & Ho & Hz & _). intros [= <- <-].
    world_simpl. by rewrite Hf, Ho, Hz.
Qed.
End CreateOutcomes.

(** ** Round trip, duplicate names *)

Section StoreClaims.
Context `{Platform}.
Variable settings : Settings.

(** C4: when [create_file] with [encrypt=False] accepts a content, reading
    the created file returns the record and exactly that content, and the
    checksum of the record is the SHA-256 digest of the content. *)
Theorem C4_create_then_read (user : User.t) (filename : str) (content : bytes)
    (directory_id : option Z) (ip_address ip_address' : option str)
    (w w' : World) (f : File.t) :
  create_file settings user filename content false directory_id ip_address w
    = (Ok f, w') ->
  File.checksum f = Some (sha256_hexdigest content)
  /\ exists w'',
       read_file user (File.id f) ip_address' w' = (Ok (f, content), w'').
Proof.
  intros Hc.
  apply create_file_ok in Hc
    as (name & d1 & entry & _ & _ & _ & _ & _ & Hw & -> & Hf & _).
  split; [done|].
  destruct (read_file_cases user (file_seq w) ip_address' w')
    as (w'' & entry' & Hr & _).
  exists w''. cbn [File.id new_record]. rewrite Hr. f_equal.
  unfold read_outcome, matching_record. rewrite Hf, lookup_insert_eq.
  cbn [File.id File.owner_id File.storage_path File.is_encrypted new_record].
  rewrite !Z.eqb_refl. cbn [andb].
  apply fs_write_bytes_ok in Hw as (-> & _ & _).
  rewrite path_exists_after_write, fs_read_after_write. done.
Qed.

(** C5 (amended): after a successful [create_file], a second one with the
    same owner, directory and display name fails and leaves exactly one
    record for that name.  It fails with DuplicateName when its content passes
    the size check and the format check, which come first; otherwise with
    SizeLimitExceeded or InvalidFormat. *)
Theorem C5_second_create_rejected (user : User.t) (filename : str)
    (content content2 : bytes) (encrypt encrypt2 : bool)
    (directory_id : option Z) (ip_address ip_address2 : option str)
    (w w1 : World) (f : File.t) :
  create_file settings user filename content encrypt directory_id ip_address w
    = (Ok f, w1) ->
  exists e w2,
    create_file settings user filename content2 encrypt2 directory_id
      ip_address2 w1 = (Err e, w2)
    /\ (e = DuplicateName \/ e = SizeLimitExceeded \/ e = InvalidFormat)
    /\ (len content2 <= max_file_size settings ->
        (is_structured filename = true ->
         format_valid filename (utf8_decode_replace content2) = true) ->
        e = DuplicateName)
    /\ records_for user directory_id filename w2 = {[ File.id f := f ]}
    /\ size (records_for user directory_id filename w2) = 1%nat.
Proof.
  intros Hc.
  apply create_file_ok in Hc
    as (name & d1 & entry & _ & _ & Hname & Hmk & Hnone & Hw & Hfeq & Hf & _).
  assert (Hone : records_for user directory_id filename w1
                 = {[ file_seq w := f ]}).
  { unfold records_for in *. rewrite Hf.
    rewrite map_filter_insert_True.
    - by rewrite Hnone, insert_empty.
    - rewrite Hfeq. unfold names_record. cbn.
      rewrite bool_decide_eq_true_2 by done. rewrite Z.eqb_refl.
      by destruct directory_id; cbn; rewrite ?Z.eqb_refl. }
  assert (Hid : File.id f = file_seq w) by by rewrite Hfeq.
  assert (Hdir : mkdir_exist_ok (disk w1) (user_dir_of settings user)
                 = Ok (disk w1)).
  { apply is_dir_mkdir. apply fs_write_bytes_ok in Hw as (-> & Hnd & _).
    apply is_dir_insert_other; [|done]. by eapply mkdir_exist_ok_dir. }
  pose proof (create_file_unfold settings user filename content2 encrypt2
                directory_id ip_address2 w1) as Hu.
  destruct (create_file_try_cases settings user filename content2 encrypt2
              directory_id ip_address2 w1) as [l Hcase].
  cbv zeta in Hcase. rewrite Hname, Hdir, Hone, map_to_list_singleton in Hcase.
  assert (forall e w', create_file_try settings user filename content2
                         encrypt2 directory_id ip_address2 w1 = (Err e, w') ->
                       files w' = files w1 ->
          exists w2,
            create_file settings user filename content2 encrypt2 directory_id
              ip_address2 w1 = (Err e, w2)
            /\ records_for user directory_id filename w2
               = {[ File.id f := f ]}
            /\ size (records_for user directory_id filename w2) = 1%nat)
    as Hfail.
  { intros e w' Htry Hfiles. rewrite Htry in Hu. eexists. split; [exact Hu|].
    unfold records_for in *. world_simpl. rewrite Hfiles, Hone, Hid.
    split; [done|]. apply map_size_singleton. }
  destruct (Z.ltb_spec (max_file_size settings) (len content2)) as [Hs|Hs].
  { destruct (Hfail _ _ Hcase eq_refl) as (w2 & Hrun & Hrec).
    exists SizeLimitExceeded, w2. split; [done|]. split; [auto|].
    split; [lia|done]. }
  destruct (is_structured filename && negb _) eqn:Hfmt.
  { destruct (Hfail _ _ Hcase eq_refl) as (w2 & Hrun & Hrec).
    exists InvalidFormat, w2. split; [done|]. split; [auto|].
    split; [|done]. intros _ Hv. apply andb_true_iff in Hfmt as [Hst Hneg].
    rewrite (Hv Hst) in Hneg. done. }
  destruct (Hfail _ _ Hcase eq_refl) as (w2 & Hrun & Hrec).
  exists DuplicateName, w2. split; [done|]. split; [auto|]. by split.
Qed.
End StoreClaims.

Lemma C4_witness :
  exists f w' w'',
    create_file (H := sample_platform) default_settings alice (py "a.txt")
      (bytes_of "hello") false None None fresh_world = (Ok f, w')
    /\ File.size f = 5
    /\ File.checksum f
       = Some (@sha256_hexdigest sample_platform (bytes_of "hello"))
    /\ read_file alice (File.id f) None w' = (Ok (f, bytes_of "hello"), w'').
Proof.
  assert (Hrec : match fst (create_file (H := sample_platform) default_settings
                              alice (py "a.txt") (bytes_of "hello") false None
                              None fresh_world) with
                 | Ok f => File.size f = 5
                           /\ File.checksum f
                              = Some (@sha256_hexdigest sample_platform
                                        (bytes_of "hello"))
                 | Err _ => False
                 end)
    by (vm_compute; split; reflexivity).
  destruct (create_file (H := sample_platform) default_settings alice
              (py "a.txt") (bytes_of "hello") false None None fresh_world)
    as [[f|e] w'] eqn:Hc; cbn [fst] in Hrec; [|destruct Hrec].
  destruct (C4_create_then_read (H := sample_platform) default_settings alice
              (py "a.txt") (bytes_of "hello") None None None fresh_world w' f Hc)
    as (Hsum & w'' & Hread).
  exists f, w', w''. split; [reflexivity|]. split; [exact (proj1 Hrec)|].
  split; [exact (proj2 Hrec)|exact Hread].
Defined.

(** C5 (as stated, refuted): the second [create_file] with the same owner,
    directory and display name need not fail with DuplicateName.  The size of
    its content is checked first. *)
Lemma C5_counterexample :
  let first := create_file (H := sample_platform) small_settings alice
                 (py "a.txt") (bytes_of "hello") false None None fresh_world in
  is_ok (fst first) = true
  /\ fst (create_file (H := sample_platform) small_settings alice (py "a.txt")
            (bytes_of "hello again") false None None (snd first))
     = Err SizeLimitExceeded.
Proof. cbv zeta. split; by vm_compute. Qed.

Lemma C5_witness :
  exists f w1 e w2,
    create_file (H := sample_platform) default_settings alice (py "a.txt")
      (bytes_of "hello") false None None fresh_world = (Ok f, w1)
    /\ create_file (H := sample_platform) default_settings alice (py "a.txt")
         (bytes_of "other") false None None w1 = (Err e, w2)
    /\ e = DuplicateName
    /\ size (records_for alice None (py "a.txt") w2) = 1%nat.
Proof.
  assert (Hok : is_ok (fst (create_file (H := sample_platform) default_settings
                              alice (py "a.txt") (bytes_of "hello") false None
                              None fresh_world)) = true)
    by (vm_compute; reflexivity).
  destruct (create_file (H := sample_platform) default_settings alice
              (py "a.txt") (bytes_of "hello") false None None fresh_world)
    as [[f|e] w1] eqn:Hc; [|discriminate Hok].
  destruct (C5_second_create_rejected (H := sample_platform) default_settings
              alice (py "a.txt") (bytes_of "hello") (bytes_of "other")
              false false None None None fresh_world w1 f Hc)
    as (e & w2 & Hrun & _ & Hdup & _ & Hsize).
  exists f, w1, e, w2. split; [reflexivity|]. split; [exact Hrun|].
  split; [|exact Hsize].
  apply Hdup; [by vm_compute|]. intros Hst. by vm_compute in Hst.
Defined.

(** ** Deletion *)

(** What exists and is no directory can be unlinked. *)
Lemma fs_unlink_file (d : gmap path node) (p : path) :
  is_dir d p = false -> path_exists d p = true -> is_ok (fs_unlink d p) = true.
Proof.
  unfold is_dir, path_exists, fs_unlink.
  destruct (resolve p) as [|c q]; [done|].
  by destruct (d !! _) as [[data|]|].
Qed.

(** C6 (as stated, refuted): [delete_file] does not return [False] when no
    record matches (owner, id); it raises "File not found or access denied". *)
Lemma C6_counterexample :
  matching_record alice 7 fresh_world = None
  /\ fst (delete_file alice 7 None fresh_world) = Err NotFound
  /\ fst (delete_file alice 7 None fresh_world) <> Ok false.
Proof. split; [|split]; by vm_compute. Qed.

(** C6 (amended): [delete_file] never returns [False].  When no record
    matches (owner, id) it raises NotFound, and the records and the disk are
    as before.  When a record matches and its storage location is not a
    directory, it removes the bytes at that location if there are any (their
    absence is no error), removes the record and returns [True].  In every
    case the records under other ids are untouched. *)
Theorem C6_delete_outcomes (user : User.t) (file_id : Z)
    (ip_address : option str) (w : World) :
  exists w',
    snd (delete_file user file_id ip_address w) = w'
    /\ fst (delete_file user file_id ip_address w) <> Ok false
    /\ (fst (delete_file user file_id ip_address w) = Err NotFound
        <-> matching_record user file_id w = None)
    /\ (matching_record user file_id w = None ->
        files w' = files w /\ disk w' = disk w)
    /\ (forall f,
          matching_record user file_id w = Some f ->
          is_dir (disk w) (File.storage_path f) = false ->
          fst (delete_file user file_id ip_address w) = Ok true
          /\ files w' = delete file_id (files w)
          /\ disk w' = delete (resolve (File.storage_path f)) (disk w))
    /\ (forall other, other <> file_id -> files w' !! other = files w !! other).
Proof.
  destruct (delete_file_cases user file_id ip_address w)
    as (w' & entry & Hrun & Hf & Hd & _).
  exists w'. rewrite Hrun. cbn [fst snd]. split; [done|].
  unfold delete_outcome in *.
  destruct (matching_record user file_id w) as [f|] eqn:Hm.
  - assert (Hcases :
      (if path_exists (disk w) (File.storage_path f)
       then match fs_unlink (disk w) (File.storage_path f) with
            | Ok _ => Ok true
            | Err _ => Err OSError
            end
       else Ok true) = Ok true
      \/ (if path_exists (disk w) (File.storage_path f)
          then match fs_unlink (disk w) (File.storage_path f) with
               | Ok _ => Ok true
               | Err _ => Err OSError
               end
          else Ok true) = Err OSError).
    { destruct (path_exists _ _); [|by left].
      destruct (fs_unlink _ _); [by left|by right]. }
    split; [destruct Hcases as [-> | ->]; done|].
    split; [split; [destruct Hcases as [-> | ->]; done|done]|].
    split; [done|]. split.
    + intros f' [= <-] Hnd.
      assert (Hok :
        (if path_exists (disk w) (File.storage_path f)
         then match fs_unlink (disk w) (File.storage_path f) with
              | Ok _ => Ok true
              | Err _ => Err OSError
              end
         else Ok true) = Ok true).
      { destruct (path_exists _ _) eqn:Hex; [|done].
        pose proof (fs_unlink_file _ _ Hnd Hex) as Hu.
        by destruct (fs_unlink _ _). }
      rewrite Hok in Hf, Hd |- *. done.
    + intros other Hne. rewrite Hf.
      destruct (is_ok _); [by rewrite lookup_delete_ne|done].
  - split; [done|]. split; [done|]. split; [done|]. split; [done|].
    intros other _. by rewrite Hf.
Qed.

(** ** Records that share a storage location *)

(** C7 (the code breaks it): two successful [create_file] calls of one owner
    with the display names [a:b.txt] and [a_b.txt] get the same storage
    location.  After the second, the first record still says size 5 and the
    digest of "hello", while the bytes at its location are "bye". *)
Theorem C7_storage_location_shared :
  let first := create_file (H := sample_platform) default_settings alice
                 (py "a:b.txt") (bytes_of "hello") false None None
                 fresh_world in
  let second := create_file (H := sample_platform) default_settings alice
                  (py "a_b.txt") (bytes_of "bye") false None None
                  (snd first) in
  exists f1 f2,
    fst first = Ok f1 /\ fst second = Ok f2
    /\ File.id f1 <> File.id f2
    /\ File.owner_id f1 = File.owner_id f2
    /\ File.storage_path f1 = File.storage_path f2
    /\ files (snd second) !! File.id f1 = Some f1
    /\ File.size f1 = 5
    /\ File.checksum f1
       = Some (@sha256_hexdigest sample_platform (bytes_of "hello"))
    /\ fs_read_bytes (disk (snd second)) (File.storage_path f1)
       = Ok (bytes_of "bye").
Proof.
  cbv zeta. eexists _, _.
  split; [by vm_compute|]. split; [by vm_compute|].
  split; [by vm_compute|]. split; [by vm_compute|].
  split; [by vm_compute|]. split; [by vm_compute|].
  split; [by vm_compute|]. split; by vm_compute.
Qed.

(** ** Encrypted records *)

(** C8 (as stated, refuted): on an encrypted record, [update_file] need not
    fail with NotSupported, nor [read_file].  The size of the new content is
    checked before the flag; the presence of the bytes is checked before the
    flag (here the bytes went with a second record stored at the same
    location). *)
Lemma C8_counterexample :
  let w1 := snd (create_file (H := sample_platform) small_settings alice
                   (py "k:1") (bytes_of "secret") true None None
                   fresh_world) in
  let w2 := snd (create_file (H := sample_platform) small_settings alice
                   (py "k_1") (bytes_of "plain") false None None w1) in
  let w3 := snd (delete_file alice 2 None w2) in
  option_map File.is_encrypted (matching_record alice 1 w1) = Some true
  /\ fst (update_file (H := sample_platform) small_settings alice 1
            (bytes_of "much longer") None w1) = Err SizeLimitExceeded
  /\ option_map File.is_encrypted (matching_record alice 1 w3) = Some true
  /\ fst (read_file alice 1 None w3) = Err NotFound.
Proof. cbv zeta. split; [|split; [|split]]; by vm_compute. Qed.

Section EncryptedClaims.
Context `{Platform}.
Variable settings : Settings.

(** C8 (amended): on a record whose encrypted flag is set, [read_file] and
    [update_file] always fail, and [update_file] leaves the records and the
    disk as they were.  [read_file] fails with NotSupported when the bytes
    are on disk (NotFound or a file-system error otherwise); [update_file]
    fails with NotSupported when the new content is within the size limit
    (SizeLimitExceeded otherwise). *)
Theorem C8_encrypted_not_supported (user : User.t) (file_id : Z)
    (new_content : bytes) (ip_address : option str) (w : World) (f : File.t) :
  matching_record user file_id w = Some f ->
  File.is_encrypted f = true ->
  (exists e w',
      read_file user file_id ip_address w = (Err e, w')
      /\ (e = NotSupported \/ e = NotFound \/ e = OSError)
      /\ (is_ok (fs_read_bytes (disk w) (File.storage_path f)) = true ->
          e = NotSupported))
  /\ (exists e w',
        update_file settings user file_id new_content ip_address w
          = (Err e, w')
        /\ (e = NotSupported \/ e = SizeLimitExceeded)
        /\ (len new_content <= max_file_size settings -> e = NotSupported)
        /\ files w' = files w
        /\ disk w' = disk w).
Proof.
  intros Hm Henc. split.
  - destruct (read_file_cases user file_id ip_address w)
      as (w' & entry & Hr & _).
    unfold read_outcome in Hr. rewrite Hm, Henc in Hr.
    destruct (path_exists (disk w) (File.storage_path f)) eqn:Hex;
      cbn [negb] in Hr.
    + destruct (fs_read_bytes (disk w) (File.storage_path f)) as [data|e].
      * exists NotSupported, w'. split; [done|]. split; [by left|done].
      * exists OSError, w'. split; [done|]. split; [right; by right|done].
    + exists NotFound, w'. split; [done|]. split; [right; by left|].
      unfold path_exists, fs_read_bytes in *.
      destruct (resolve (File.storage_path f)); [done|].
      by destruct (disk w !! _).
  - destruct (update_file_cases settings user file_id new_content ip_address w)
      as (w' & entry & Hr & Hf & Hd & _).
    unfold update_outcome in *. rewrite Hm, Henc in *.
    destruct (Z.ltb_spec (max_file_size settings) (len new_content)).
    + exists SizeLimitExceeded, w'. split; [done|]. split; [by right|].
      split; [lia|done].
    + exists NotSupported, w'. split; [done|]. split; [by left|]. done.
Qed.
End EncryptedClaims.

Lemma C8_witness :
  let w := snd (create_file (H := sample_platform) default_settings alice
                  (py "k.bin") (bytes_of "secret") true None None
                  fresh_world) in
  fst (read_file alice 1 None w) = Err NotSupported
  /\ exists w',
       update_file (H := sample_platform) default_settings alice 1
         (bytes_of "changed") None w = (Err NotSupported, w')
       /\ files w' = files w /\ disk w' = disk w.
Proof.
  cbv zeta.
  set (w := snd (create_file (H := sample_platform) default_settings alice
                   (py "k.bin") (bytes_of "secret") true None None
                   fresh_world)).
  destruct (matching_record alice 1 w) as [f|] eqn:Hm;
    [|by vm_compute in Hm].
  assert (Henc : File.is_encrypted f = true).
  { vm_compute in Hm. by injection Hm as <-. }
  destruct (C8_encrypted_not_supported (H := sample_platform) default_settings
              alice 1 (bytes_of "changed") None w f Hm Henc)
    as [(e & w1 & Hr & _ & He) (e' & w2 & Hu & _ & He' & Hf & Hd)].
  split.
  - rewrite Hr. cbn [fst]. f_equal. apply He.
    vm_compute in Hm. injection Hm as <-. by vm_compute.
  - exists w2. split; [|by split]. rewrite Hu. f_equal. f_equal.
    apply He'. by vm_compute.
Defined.

(** ** Content inspection *)

Section FormatClaims.
Context `{Platform}.
Variable settings : Settings.

(** C9: for a name ending in [.json] or [.xml] and a content that parses
    within the limits, the pattern scan only logs: [validate_file_format]
    returns [True] after adding one WARNING record for each pattern found
    (and one INFO record), [create_file] does not fail with InvalidFormat, and
    it succeeds whenever its other checks pass. *)
Theorem C9_pattern_scan_never_blocks (user : User.t) (filename : str)
    (content : bytes) (encrypt : bool) (directory_id : option Z)
    (ip_address : option str) (w : World) :
  is_structured filename = true ->
  format_valid filename (utf8_decode_replace content) = true ->
  (exists data info,
      scanned_value filename (utf8_decode_replace content) = Some data
      /\ level info = INFO
      /\ validate_file_format filename (utf8_decode_replace content) w =
         (Ok true,
          with_log (log w ++ List.map warning_of (check_value data) ++ [info])
            w))
  /\ fst (create_file settings user filename content encrypt directory_id
            ip_address w) <> Err InvalidFormat
  /\ (create_admissible settings user filename content encrypt directory_id w ->
      exists f w',
        create_file settings user filename content encrypt directory_id
          ip_address w = (Ok f, w')).
Proof.
  intros Hst Hv. split; [by apply validate_file_format_valid|]. split.
  - rewrite create_file_unfold.
    destruct (create_file_try_cases settings user filename content encrypt
                directory_id ip_address w) as [l Hc].
    cbv zeta in Hc. rewrite Hst, Hv in Hc. cbn [negb andb] in Hc.
    destruct (max_file_size settings <? len content); [by rewrite Hc|].
    destruct (_validate_filename filename) as [name|e]; [|by rewrite Hc].
    destruct (mkdir_exist_ok _ _) as [d1|e]; [|by rewrite Hc].
    destruct (map_to_list _) as [|r1 [|r2 rows]]; [|by rewrite Hc..].
    destruct (fs_write_bytes d1 _ _) as [d2|e].
    + by destruct Hc as (w1 & entry & -> & _).
    + by destruct Hc as (w1 & -> & _).
  - intros Hadm. by apply create_file_succeeds.
Qed.

(** C10: for a name ending in [.json] or [.xml] (in any case) and a content
    that does not parse within the limits, [create_file] fails with
    InvalidFormat, or with SizeLimitExceeded when the content is over the
    size limit, whatever records exist; no record is added and the disk is
    untouched. *)
Theorem C10_invalid_format_rejected_early (user : User.t) (filename : str)
    (content : bytes) (encrypt : bool) (directory_id : option Z)
    (ip_address : option str) (w : World) :
  is_structured filename = true ->
  format_valid filename (utf8_decode_replace content) = false ->
  exists e w',
    create_file settings user filename content encrypt directory_id
      ip_address w = (Err e, w')
    /\ (e = InvalidFormat \/ e = SizeLimitExceeded)
    /\ (len content <= max_file_size settings -> e = InvalidFormat)
    /\ files w' = files w
    /\ file_seq w' = file_seq w
    /\ disk w' = disk w.
Proof.
  intros Hst Hv. rewrite create_file_unfold.
  destruct (create_file_try_cases settings user filename content encrypt
              directory_id ip_address w) as [l Hc].
  cbv zeta in Hc. rewrite Hst, Hv in Hc. cbn [negb andb] in Hc.
  destruct (Z.ltb_spec (max_file_size settings) (len content)); rewrite Hc.
  - eexists _, _. split; [reflexivity|]. split; [by right|].
    split; [lia|done].
  - eexists _, _. split; [reflexivity|]. split; [by left|]. done.
Qed.
End FormatClaims.

Lemma C9_witness :
  exists f w',
    create_file (H := sample_platform) default_settings alice (py "page.json")
      (List.map (fun c => default Byte.x00 (Byte.of_N c)) script_json)
      false None None fresh_world = (Ok f, w')
    /\ warning_of (py "<script") ∈ log w'
    /\ warning_of (py "eval(") ∈ log w'.
Proof.
  destruct (C9_pattern_scan_never_blocks (H := sample_platform)
              default_settings alice (py "page.json")
              (List.map (fun c => default Byte.x00 (Byte.of_N c)) script_json)
              false None None fresh_world)
    as (_ & _ & Hcreate); [by vm_compute..|].
  destruct Hcreate as (f & w' & Hc).
  { split; [by vm_compute|].
    exists (py "page.json"),
      (match mkdir_exist_ok (disk fresh_world)
               (user_dir_of default_settings alice) with
       | Ok d => d
       | Err _ => ∅
       end).
    split; [vm_compute; reflexivity|]. split; [vm_compute; reflexivity|].
    split; vm_compute; reflexivity. }
  exists f, w'. split; [done|].
  assert (Hlog : log w' = log (snd (create_file (H := sample_platform)
                   default_settings alice (py "page.json")
                   (List.map (fun c => default Byte.x00 (Byte.of_N c))
                      script_json)
                   false None None fresh_world))) by by rewrite Hc.
  rewrite Hlog. split; apply list_elem_of_In; vm_compute; tauto.
Defined.

Lemma C10_witness :
  exists e w',
    create_file (H := sample_platform) default_settings alice (py "DATA.JSON")
      (bytes_of "{") false None None fresh_world = (Err e, w')
    /\ e = InvalidFormat
    /\ files w' = files fresh_world
    /\ disk w' = disk fresh_world.
Proof.
  destruct (C10_invalid_format_rejected_early (H := sample_platform)
              default_settings alice (py "DATA.JSON") (bytes_of "{")
              false None None fresh_world)
    as (e & w' & Hc & _ & He & Hf & _ & Hd); [by vm_compute..|].
  exists e, w'. split; [done|]. split; [|by split].
  apply He. by vm_compute.
Defined.

(** * Further properties of the services *)

(** ** The sanitizer *)

Lemma replace_char_length (c r : N) (s : str) :
  List.length (replace_char c r s) = List.length s.
Proof. unfold replace_char. apply length_map. Qed.

Lemma fold_replace_length (cs : str) (r : N) (s : str) :
  List.length (fold_left (fun f c => replace_char c r f) cs s) = List.length s.
Proof.
  revert s. induction cs as [|c cs IH]; intros s; [done|].
  cbn [fold_left]. by rewrite IH, replace_char_length.
Qed.

Lemma replace_dotdot_length (s : str) :
  (List.length (replace_dotdot s) <= List.length s)%nat.
Proof.
  remember (List.length s) as n eqn:Hn. revert s Hn.
  induction n as [n IH] using lt_wf_ind. intros s ->.
  destruct s as [|a [|b rest]]; [done..|]. rewrite replace_dotdot_cons2.
  destruct (_ && _); cbn [List.length].
  - specialize (IH (List.length rest) ltac:(cbn; lia) rest eq_refl). lia.
  - specialize (IH (List.length (b :: rest)) ltac:(cbn; lia) (b :: rest) eq_refl).
    cbn [List.length] in IH. lia.
Qed.

Lemma strip_by_length (p : N -> bool) (s : str) :
  (List.length (strip_by p s) <= List.length s)%nat.
Proof.
  destruct (strip_by_infix p s) as (pre & post & Hs).
  rewrite Hs at 2. rewrite !length_app. lia.
Qed.

Lemma replace_char_Forall (P : N -> Prop) (c r : N) (s : str) :
  P r -> Forall P s -> Forall P (replace_char c r s).
Proof.
  intros Hr Hs. induction Hs as [|x s Hx _ IH]; cbn; [constructor|].
  constructor; [by destruct (N.eqb x c)|done].
Qed.

(** Replacing each character of [cs] leaves none of them. *)
Lemma fold_replace_clean (cs done_ : str) (r : N) (s : str) :
  ~ In r (done_ ++ cs) ->
  Forall (fun y => ~ In y done_) s ->
  Forall (fun y => ~ In y (done_ ++ cs))
    (fold_left (fun f c => replace_char c r f) cs s).
Proof.
  revert done_ s. induction cs as [|c cs IH]; intros done_ s Hr Hs.
  - cbn. by rewrite app_nil_r.
  - cbn [fold_left].
    replace (done_ ++ c :: cs) with ((done_ ++ [c]) ++ cs) in *
      by by rewrite <- app_assoc.
    apply IH; [done|].
    assert (Hrc : r <> c).
    { intros ->. apply Hr. apply in_or_app. left. apply in_or_app.
      right. by left. }
    assert (Hrd : ~ In r done_).
    { intros Hin. apply Hr. apply in_or_app. left. apply in_or_app. by left. }
    induction Hs as [|x s Hx _ IHs]; cbn; [constructor|].
    constructor; [|done].
    destruct (N.eqb_spec x c) as [->|Hne].
    + intros [Hin|[<-|[]]]%in_app_or; [by apply Hrd|done].
    + intros [Hin|[<-|[]]]%in_app_or; [by apply Hx|done].
Qed.

Lemma replace_dotdot_Forall (P : N -> Prop) (s : str) :
  P ch_underscore -> Forall P s -> Forall P (replace_dotdot s).
Proof.
  intros Hu. remember (List.length s) as n eqn:Hn. revert s Hn.
  induction n as [n IH] using lt_wf_ind. intros s Hn Hs.
  destruct s as [|a [|b rest]]; [done..|]. rewrite replace_dotdot_cons2.
  inversion Hs as [|? ? Ha Hs']; subst. inversion Hs' as [|? ? Hb Hrest]; subst.
  destruct (_ && _).
  - constructor; [done|]. eapply IH; [|reflexivity|done]. cbn; lia.
  - constructor; [done|]. eapply IH; [|reflexivity|done]. cbn; lia.
Qed.

Lemma no_dotdot_tail (a : N) (s : str) :
  no_dotdot (a :: s) = true -> no_dotdot s = true.
Proof.
  destruct s as [|b s]; [done|]. cbn [no_dotdot].
  by intros [_ ?]%andb_true_iff.
Qed.

Lemma no_dotdot_suffix (pre s : str) :
  no_dotdot (pre ++ s) = true -> no_dotdot s = true.
Proof.
  induction pre as [|a pre IH]; [done|]. intros H. apply IH.
  by eapply no_dotdot_tail.
Qed.

Lemma no_dotdot_prefix (s post : str) :
  no_dotdot (s ++ post) = true -> no_dotdot s = true.
Proof.
  induction s as [|a s IH]; [done|]. intros H.
  pose proof (no_dotdot_tail _ _ H) as Ht. specialize (IH Ht).
  destruct s as [|b s]; [done|].
  cbn [no_dotdot app] in *. apply andb_true_iff in H as [H _].
  by rewrite H, IH.
Qed.

Lemma contains_dotdot (s : str) :
  contains (py "..") s = negb (no_dotdot s).
Proof.
  change (py "..") with [ch_dot; ch_dot].
  induction s as [|a s IH]; [done|].
  cbn [contains]. rewrite IH. destruct s as [|b s].
  { cbn [starts_with no_dotdot negb]. by destruct (N.eqb ch_dot a). }
  cbn [starts_with no_dotdot]. rewrite andb_true_r.
  rewrite (N.eqb_sym ch_dot a), (N.eqb_sym ch_dot b).
  destruct (N.eqb a ch_dot && N.eqb b ch_dot); cbn [negb orb andb]; [done|].
  by destruct (no_dotdot (b :: s)).
Qed.

(** X1: a name that [_validate_filename] returns has none of the characters
    of [dangerous_chars] (angle brackets, colon, double quote, bar, question
    mark, star, both slashes, NUL), has no [..] in it, and is not longer than
    the name it was given. *)
Theorem _validate_filename_clean (filename name : str) :
  _validate_filename filename = Ok name ->
  Forall (fun c => ~ In c dangerous_chars) name
  /\ contains (py "..") name = false
  /\ len name <= len filename
  /\ len name <= 255.
Proof.
  unfold _validate_filename. cbv zeta.
  destruct (Z.eqb_spec (len filename) 0) as [|Hne]; [done|].
  destruct (Z.ltb_spec 255 (len filename)) as [|Hle]; [done|]. cbn [orb].
  set (replaced := fold_left _ dangerous_chars filename).
  destruct (strip_chars _ _); [done|]. intros [= <-].
  assert (Hclean : Forall (fun c => ~ In c dangerous_chars) replaced).
  { apply (fold_replace_clean dangerous_chars [] ch_underscore filename).
    - vm_compute. intuition discriminate.
    - apply Forall_forall. intros x _ []. }
  assert (Hlen : (List.length (strip (replace_dotdot replaced))
                  <= List.length filename)%nat).
  { etransitivity; [apply strip_by_length|].
    etransitivity; [apply replace_dotdot_length|].
    subst replaced. by rewrite fold_replace_length. }
  split; [|split; [|split]].
  - apply strip_by_Forall, replace_dotdot_Forall; [|done].
    vm_compute. intuition discriminate.
  - rewrite contains_dotdot. apply negb_false_iff.
    destruct (strip_by_infix is_space (replace_dotdot replaced))
      as (pre & post & Hs).
    pose proof (replace_dotdot_no_dotdot replaced) as Hnd.
    rewrite Hs in Hnd. apply no_dotdot_suffix in Hnd.
    by apply no_dotdot_prefix in Hnd.
  - unfold len. lia.
  - unfold len in *. lia.
Qed.

Lemma _validate_filename_clean_witness :
  _validate_filename (py "re<port>..txt") = Ok (py "re_port__txt")
  /\ contains (py "..") (py "re_port__txt") = false.
Proof.
  split; [reflexivity|].
  exact (proj1 (proj2 (_validate_filename_clean (py "re<port>..txt")
                         (py "re_port__txt") eq_refl))).
Defined.

Lemma lstrip_by_all (p : N -> bool) (s : str) :
  Forall (fun c => p c = true) s -> lstrip_by p s = [].
Proof. induction 1 as [|c s Hc _ IH]; [done|]. cbn. by rewrite Hc. Qed.

Lemma lstrip_by_head (p : N -> bool) (c : N) (s : str) :
  p c = false -> lstrip_by p (c :: s) = c :: s.
Proof. intros Hc. cbn. by rewrite Hc. Qed.

Lemma strip_by_none (p : N -> bool) (s : str) :
  Forall (fun c => p c = false) s -> strip_by p s = s.
Proof.
  intros Hs. unfold strip_by.
  assert (Hl : forall t, Forall (fun c => p c = false) t -> lstrip_by p t = t).
  { intros t Ht. destruct Ht; [done|]. by apply lstrip_by_head. }
  rewrite (Hl s Hs), Hl, rev_involutive; [done|].
  by apply Forall_rev.
Qed.

Lemma replace_char_absent (c r : N) (s : str) :
  Forall (fun y => y <> c) s -> replace_char c r s = s.
Proof.
  induction 1 as [|x s Hx _ IH]; [done|]. cbn.
  destruct (N.eqb_spec x c); [done|]. by f_equal.
Qed.

Lemma fold_replace_absent (cs : str) (r : N) (s : str) :
  Forall (fun y => ~ In y cs) s ->
  fold_left (fun f c => replace_char c r f) cs s = s.
Proof.
  revert s. induction cs as [|c cs IH]; intros s Hs; [done|].
  cbn [fold_left]. rewrite replace_char_absent.
  - apply IH. eapply Forall_impl; [exact Hs|]. cbn. tauto.
  - eapply Forall_impl; [exact Hs|]. cbn. intros y Hy ->. tauto.
Qed.

Lemma replace_dotdot_absent (s : str) :
  Forall (fun y => y <> ch_dot) s -> replace_dotdot s = s.
Proof.
  induction 1 as [|x s Hx Hs IH]; [done|].
  destruct s as [|b s]; [done|]. rewrite replace_dotdot_cons2.
  destruct (N.eqb_spec x ch_dot); [done|]. cbn [andb]. by rewrite IH.
Qed.

Lemma is_space_plain (c : N) :
  is_space c = true ->
  ~ In c dangerous_chars /\ c <> ch_dot /\ c <> ch_underscore.
Proof.
  intros Hc.
  assert (Hn : forall d, is_space d = false -> c <> d) by (intros d Hd ->; congruence).
  split; [|split; by apply Hn].
  change dangerous_chars with [60;62;58;34;124;63;42;92;47;0]%N.
  intros Hin. repeat (destruct Hin as [<-|Hin]; [by vm_compute in Hc|]).
  done.
Qed.

(** X2: the sanitizer accepts a name made of white space only, and returns
    the empty name for it. *)
Theorem _validate_filename_blank (filename : str) :
  Forall (fun c => is_space c = true) filename ->
  0 < len filename <= 255 ->
  _validate_filename filename = Ok [].
Proof.
  intros Hws Hlen. unfold _validate_filename. cbv zeta.
  destruct (Z.eqb_spec (len filename) 0) as [|_]; [lia|].
  destruct (Z.ltb_spec 255 (len filename)) as [|_]; [lia|]. cbn [orb].
  rewrite fold_replace_absent.
  2:{ eapply Forall_impl; [exact Hws|]. intros c Hc. by apply is_space_plain. }
  rewrite replace_dotdot_absent.
  2:{ eapply Forall_impl; [exact Hws|]. intros c Hc. by apply is_space_plain. }
  unfold strip_chars. rewrite strip_by_none.
  2:{ eapply Forall_impl; [exact Hws|]. intros c Hc.
      destruct (is_space_plain c Hc) as (_ & Hd & Hu).
      unfold mem_char. cbn.
      destruct (N.eqb_spec c ch_dot); [done|].
      by destruct (N.eqb_spec c ch_underscore). }
  destruct filename as [|c filename]; [unfold len in Hlen; cbn in Hlen; lia|].
  unfold strip, strip_by. by rewrite (lstrip_by_all is_space (c :: filename)).
Qed.

Lemma _validate_filename_blank_witness :
  _validate_filename (py "   ") = Ok [].
Proof.
  apply _validate_filename_blank.
  - repeat constructor.
  - by vm_compute.
Defined.

(** ** The file store *)

Lemma removelast_Forall {A} (P : A -> Prop) (l : list A) :
  Forall P l -> Forall P (removelast l).
Proof.
  induction 1 as [|x l Hx Hl IH]; [constructor|].
  cbn. destruct l; [constructor|]. by constructor.
Qed.

Lemma resolve_components (p : path) :
  Forall (fun c => c <> [ch_dot; ch_dot]) (resolve p).
Proof.
  unfold resolve.
  assert (Hgen : forall acc,
            Forall (fun c => c <> [ch_dot; ch_dot]) acc ->
            Forall (fun c => c <> [ch_dot; ch_dot])
              (fold_left
                 (fun acc c =>
                    if bool_decide (c = [ch_dot; ch_dot]) then removelast acc
                    else acc ++ [c]) p acc)).
  { induction p as [|c p IH]; intros acc Hacc; [done|].
    cbn [fold_left]. apply IH. case_bool_decide.
    - by apply removelast_Forall.
    - apply Forall_app. split; [done|]. by constructor. }
  apply Hgen. constructor.
Qed.

Lemma resolve_fixed (q : path) :
  Forall (fun c => c <> [ch_dot; ch_dot]) q -> resolve q = q.
Proof.
  unfold resolve.
  assert (Hgen : forall acc,
            Forall (fun c => c <> [ch_dot; ch_dot]) q ->
            fold_left
              (fun acc c =>
                 if bool_decide (c = [ch_dot; ch_dot]) then removelast acc
                 else acc ++ [c]) q acc = acc ++ q).
  { induction q as [|c q IH]; intros acc Hq; [by rewrite app_nil_r|].
    inversion Hq; subst. cbn [fold_left].
    rewrite bool_decide_eq_false_2 by done.
    rewrite IH by done. by rewrite <- app_assoc. }
  intros Hq. by rewrite Hgen.
Qed.

Lemma resolve_idem (p : path) : resolve (resolve p) = resolve p.
Proof. apply resolve_fixed, resolve_components. Qed.

Lemma is_dir_resolve (d : gmap path node) (p : path) :
  is_dir d (resolve p) = is_dir d p.
Proof. unfold is_dir. by rewrite resolve_idem. Qed.

Section StoreProperties.
Context `{Platform}.
Variable settings : Settings.

(** The bytes of a created file lie at a direct child of the owner's sandbox
    directory. *)
Lemma create_file_location (user : User.t) (filename : str) (content : bytes)
    (encrypt : bool) (directory_id : option Z) (ip_address : option str)
    (w w' : World) (f : File.t) :
  create_file settings user filename content encrypt directory_id ip_address w
    = (Ok f, w') ->
  exists name,
    _validate_filename filename = Ok name
    /\ parse_path name = [name]
    /\ File.storage_path f = resolve (user_dir_of settings user) ++ [name].
Proof.
  intros Hc.
  apply create_file_ok in Hc
    as (name & d1 & entry & _ & _ & Hname & Hmk & _ & Hw & -> & _).
  apply fs_write_bytes_ok in Hw as (Hd & Hnd & _).
  destruct (_validate_filename_safe _ _ Hname) as [Hslash _].
  assert (Hp : parse_path name = [name]).
  { destruct (parse_path_component name Hslash) as [Hp|Hp]; [|done].
    unfold storage_path_of in Hnd. rewrite Hp, app_nil_r in Hnd.
    rewrite is_dir_resolve in Hnd.
    by rewrite (mkdir_exist_ok_dir _ _ _ Hmk) in Hnd. }
  exists name. cbn [new_record File.storage_path].
  unfold storage_path_of. by rewrite Hp.
Qed.

(** X3: the record of a successful [create_file] is stored at a direct child
    of the owner's sandbox directory, named by the sanitized file name, which
    is not empty; [filename] holds that name, [size] the length of the
    content and [checksum] the digest of the bytes now at that location. *)
Theorem create_file_record (user : User.t) (filename : str) (content : bytes)
    (encrypt : bool) (directory_id : option Z) (ip_address : option str)
    (w w' : World) (f : File.t) :
  create_file settings user filename content encrypt directory_id ip_address w
    = (Ok f, w') ->
  exists name data,
    _validate_filename filename = Ok name
    /\ name <> []
    /\ File.storage_path f = resolve (user_dir_of settings user) ++ [name]
    /\ File.filename f = name
    /\ File.size f = len content
    /\ fs_read_bytes (disk w') (File.storage_path f) = Ok data
    /\ File.checksum f = Some (sha256_hexdigest data)
    /\ (encrypt = false -> data = content).
Proof.
  intros Hc.
  apply create_file_ok in Hc
    as (name & d1 & entry & _ & _ & Hname & Hmk & _ & Hw & -> & _).
  apply fs_write_bytes_ok in Hw as (Hd & Hnd & _).
  destruct (_validate_filename_safe _ _ Hname) as [Hslash _].
  assert (Hp : parse_path name = [name]).
  { destruct (parse_path_component name Hslash) as [Hp|Hp]; [|done].
    unfold storage_path_of in Hnd. rewrite Hp, app_nil_r in Hnd.
    rewrite is_dir_resolve in Hnd.
    by rewrite (mkdir_exist_ok_dir _ _ _ Hmk) in Hnd. }
  exists name, (final_content_of encrypt content w).
  cbn [new_record File.storage_path File.filename File.size File.checksum].
  unfold storage_path_of. rewrite Hp.
  split; [done|]. split.
  { intros ->. by vm_compute in Hp. }
  split; [done|]. split.
  { unfold path_name. by rewrite last_last. }
  split; [done|]. split.
  { rewrite Hd. unfold storage_path_of. rewrite Hp.
    apply fs_read_after_write. }
  split; [done|]. unfold final_content_of. by intros ->.
Qed.

(** X4: [create_file] succeeds exactly when the content is within the size
    limit, passes the format check for a [.json]/[.xml] name, the name
    sanitizes, the sandbox directory can be made, no record has the name in
    that directory and the bytes can be written. *)
Theorem create_file_succeeds_iff (user : User.t) (filename : str)
    (content : bytes) (encrypt : bool) (directory_id : option Z)
    (ip_address : option str) (w : World) :
  is_ok (fst (create_file settings user filename content encrypt directory_id
                ip_address w)) = true
  <-> create_admissible settings user filename content encrypt directory_id w
      /\ (is_structured filename = true ->
          format_valid filename (utf8_decode_replace content) = true).
Proof.
  split.
  - destruct (create_file _ _ _ _ _ _ _ w) as [[f|e] w'] eqn:Hc; [|done].
    intros _.
    apply create_file_ok in Hc
      as (name & d1 & entry & Hs & Hf & Hname & Hmk & Hnone & Hw & _).
    split; [|done]. split; [done|]. exists name, d1.
    by rewrite Hw.
  - intros [Hadm Hfmt].
    destruct (create_file_succeeds settings user filename content encrypt
                directory_id ip_address w Hadm Hfmt) as (f & w' & ->).
    done.
Qed.

(** X5: whatever [create_file] returns, it has appended exactly one entry to
    the audit table, whose success flag tells the outcome; a failure adds no
    record, and a success adds the one it returns under a new id. *)
Theorem create_file_audit (user : User.t) (filename : str) (content : bytes)
    (encrypt : bool) (directory_id : option Z) (ip_address : option str)
    (w : World) :
  exists entry,
    operations
      (snd (create_file settings user filename content encrypt directory_id
              ip_address w))
    = operations w ++ [entry]
    /\ Operation.success entry
       = is_ok (fst (create_file settings user filename content encrypt
                       directory_id ip_address w))
    /\ match fst (create_file settings user filename content encrypt
                    directory_id ip_address w) with
       | Ok f =>
           File.id f = file_seq w
           /\ Operation.file_id entry = Some (File.id f)
           /\ files (snd (create_file settings user filename content encrypt
                            directory_id ip_address w))
              = <[File.id f := f]> (files w)
       | Err e =>
           entry = failure_entry user CREATE
                     (py "Failed to create file: " ++ filename) ip_address e
           /\ files (snd (create_file settings user filename content encrypt
                            directory_id ip_address w))
              = files w
       end.
Proof.
  destruct (create_file _ _ _ _ _ _ _ w) as [[f|e] w'] eqn:Hc; cbn [fst snd].
  - apply create_file_ok in Hc
      as (name & d1 & entry & _ & _ & _ & _ & _ & _ & -> & Hf & _ & Ho & Hs
          & Hid & _).
    exists entry. cbn [File.id new_record]. by rewrite Hf.
  - apply create_file_err in Hc as (Hf & Ho & _).
    eexists. split; [exact Ho|]. by split.
Qed.
End StoreProperties.

Lemma create_file_record_witness :
  exists f w',
    create_file (H := sample_platform) default_settings alice
      (py "notes one.txt") (bytes_of "hello") false None None fresh_world
    = (Ok f, w')
    /\ File.storage_path f
       = [py "app"; py "safe_storage"; py "user_1"; py "notes one.txt"]
    /\ File.size f = 5.
Proof.
  assert (Hok : is_ok (fst (create_file (H := sample_platform)
                  default_settings alice (py "notes one.txt")
                  (bytes_of "hello") false None None fresh_world)) = true)
    by (vm_compute; reflexivity).
  destruct (create_file (H := sample_platform) default_settings alice
              (py "notes one.txt") (bytes_of "hello") false None None
              fresh_world) as [[f|e] w'] eqn:Hc; [|discriminate Hok].
  destruct (create_file_record (H := sample_platform) default_settings alice
              (py "notes one.txt") (bytes_of "hello") false None None
              fresh_world w' f Hc)
    as (name & data & Hname & _ & Hpath & _ & Hsize & _).
  exists f, w'. split; [reflexivity|]. split; [|exact Hsize].
  rewrite Hpath. vm_compute in Hname. injection Hname as <-. reflexivity.
Defined.

(** X6: [calculate_file_checksum] returns the digest of the whole content of
    a regular file, read in chunks of 4096 bytes, raises the error of the file
    system for anything else, and changes nothing. *)
Theorem calculate_file_checksum_whole `{Platform} (file_path : path)
    (w : World) :
  calculate_file_checksum file_path w =
  (match disk w !! resolve file_path with
   | Some (RegularFile data) => Ok (sha256_hexdigest data)
   | _ => Err OSError
   end, w).
Proof.
  rewrite calculate_file_checksum_run. unfold fs_read_bytes.
  by destruct (disk w !! resolve file_path) as [[data|]|].
Qed.

(** X7: [read_file] changes neither the records nor the disk, and appends
    exactly one audit entry, whose success flag tells the outcome. *)
Theorem read_file_effects (user : User.t) (file_id : Z)
    (ip_address : option str) (w : World) :
  files (snd (read_file user file_id ip_address w)) = files w
  /\ disk (snd (read_file user file_id ip_address w)) = disk w
  /\ exists entry,
       operations (snd (read_file user file_id ip_address w))
       = operations w ++ [entry]
       /\ Operation.success entry
          = is_ok (fst (read_file user file_id ip_address w)).
Proof.
  destruct (read_file_cases user file_id ip_address w)
    as (w' & entry & -> & Hf & Hd & _ & Ho & Hs & _).
  cbn [fst snd]. split; [done|]. split; [done|]. by exists entry.
Qed.

Section UpdateProperties.
Context `{Platform}.
Variable settings : Settings.

(** X8: after a successful [update_file], the record keeps its id, name,
    location and owner, its size is the length of the new content and its
    checksum the digest of it, and [read_file] returns the record with the
    new content. *)
Theorem update_then_read (user : User.t) (file_id : Z) (new_content : bytes)
    (ip_address ip_address' : option str) (w w' : World) (f' : File.t) :
  update_file settings user file_id new_content ip_address w = (Ok f', w') ->
  (exists f,
      matching_record user file_id w = Some f
      /\ File.id f' = file_id
      /\ File.original_name f' = File.original_name f
      /\ File.storage_path f' = File.storage_path f
      /\ File.owner_id f' = File.owner_id f)
  /\ File.size f' = len new_content
  /\ File.checksum f' = Some (sha256_hexdigest new_content)
  /\ exists w'',
       read_file user file_id ip_address' w' = (Ok (f', new_content), w'').
Proof.
  intros Hu.
  destruct (update_file_cases settings user file_id new_content ip_address w)
    as (w1 & entry & Hr & Hf & Hd & _).
  rewrite Hu in Hr. injection Hr as Hout <-.
  unfold update_outcome in *.
  destruct (matching_record user file_id w) as [f|] eqn:Hm; [|done].
  destruct (max_file_size settings <? len new_content); [done|].
  destruct (File.is_encrypted f) eqn:Henc; [done|].
  destruct (fs_write_bytes (disk w) (File.storage_path f) new_content)
    as [d|e]; [|done].
  injection Hout as ->.
  destruct (matching_record_id _ _ _ _ Hm) as (_ & Hid & Hown).
  split; [by exists f|]. split; [done|]. split; [done|].
  destruct (read_file_cases user file_id ip_address' w')
    as (w'' & entry' & Hread & _).
  exists w''. rewrite Hread. f_equal.
  unfold read_outcome, matching_record. rewrite Hf, lookup_insert_eq.
  cbn [updated_record File.id File.owner_id File.storage_path
       File.is_encrypted].
  rewrite Hid, Hown, !Z.eqb_refl. cbn [andb].
  cbn [updated_record File.storage_path File.is_encrypted].
  rewrite Hd, path_exists_after_write, fs_read_after_write. cbn [negb].
  by rewrite Henc.
Qed.

(** X9: an [update_file] that fails leaves the records and the disk as they
    were. *)
Theorem update_file_failure_harmless (user : User.t) (file_id : Z)
    (new_content : bytes) (ip_address : option str) (w w' : World) (e : error) :
  update_file settings user file_id new_content ip_address w = (Err e, w') ->
  files w' = files w /\ disk w' = disk w
  /\ (e = NotFound \/ e = SizeLimitExceeded \/ e = NotSupported \/ e = OSError).
Proof.
  intros Hu.
  destruct (update_file_cases settings user file_id new_content ip_address w)
    as (w1 & entry & Hr & Hf & Hd & _).
  rewrite Hu in Hr. injection Hr as Hout <-. rewrite <- Hout in Hf, Hd.
  split; [done|]. split; [by destruct (matching_record user file_id w)|].
  unfold update_outcome in Hout.
  destruct (matching_record user file_id w) as [f|]; [|injection Hout; auto].
  destruct (_ <? _); [injection Hout; auto|].
  destruct (File.is_encrypted f); [injection Hout; auto|].
  destruct (fs_write_bytes _ _ _); [done|]. injection Hout. auto.
Qed.
End UpdateProperties.

(** X10: a successful [delete_file] removes the record, so that reading or
    deleting the same id again raises NotFound; it also removes the audit
    entries that referred to the file before appending its own. *)
Theorem delete_then_gone (user : User.t) (file_id : Z)
    (ip_address ip_address' : option str) (w w' : World) :
  delete_file user file_id ip_address w = (Ok true, w') ->
  files w' !! file_id = None
  /\ fst (read_file user file_id ip_address' w') = Err NotFound
  /\ fst (delete_file user file_id ip_address' w') = Err NotFound
  /\ exists entry,
       operations w' = unrelated_operations file_id (operations w) ++ [entry]
       /\ Operation.success entry = true.
Proof.
  intros Hdel.
  destruct (delete_file_cases user file_id ip_address w)
    as (w1 & entry & Hr & Hf & _ & _ & Ho & Hs & _).
  rewrite Hdel in Hr. injection Hr as Hout <-. rewrite <- Hout in Hf, Ho, Hs.
  cbn [is_ok] in *.
  assert (Hnone : files w' !! file_id = None) by by rewrite Hf, lookup_delete_eq.
  assert (Hm : matching_record user file_id w' = None).
  { unfold matching_record. by rewrite Hnone. }
  split; [done|]. split; [|split].
  - destruct (read_file_cases user file_id ip_address' w')
      as (w2 & entry2 & -> & _). unfold read_outcome. by rewrite Hm.
  - destruct (delete_file_cases user file_id ip_address' w')
      as (w2 & entry2 & -> & _). unfold delete_outcome. by rewrite Hm.
  - by exists entry.
Qed.

Section Isolation.
Context `{Platform}.
Variable settings : Settings.

(** X11: a user cannot read, update or delete a record of another owner:
    each call raises NotFound, and the records and the disk stay as they
    were. *)
Theorem other_owner_not_found (user : User.t) (file_id : Z) (f : File.t)
    (new_content : bytes) (ip_address : option str) (w : World) :
  files w !! file_id = Some f ->
  File.owner_id f <> User.id user ->
  fst (read_file user file_id ip_address w) = Err NotFound
  /\ (exists w',
        update_file settings user file_id new_content ip_address w
          = (Err NotFound, w')
        /\ files w' = files w /\ disk w' = disk w)
  /\ (exists w',
        delete_file user file_id ip_address w = (Err NotFound, w')
        /\ files w' = files w /\ disk w' = disk w).
Proof.
  intros Hf Hown.
  assert (Hm : matching_record user file_id w = None).
  { unfold matching_record. rewrite Hf.
    destruct (Z.eqb_spec (File.owner_id f) (User.id user)); [done|].
    by rewrite andb_false_r. }
  split; [|split].
  - destruct (read_file_cases user file_id ip_address w)
      as (w' & entry & -> & _). unfold read_outcome. by rewrite Hm.
  - destruct (update_file_cases settings user file_id new_content ip_address w)
      as (w' & entry & Hr & Hfs & Hd & _).
    unfold update_outcome in *. rewrite Hm in *. by exists w'.
  - destruct (delete_file_cases user file_id ip_address w)
      as (w' & entry & Hr & Hfs & Hd & _).
    unfold delete_outcome in *. rewrite Hm in *. by exists w'.
Qed.
End Isolation.

Lemma update_then_read_witness :
  exists f' w' w'',
    update_file (H := sample_platform) default_settings alice 1
      (bytes_of "goodbye") None one_file_world = (Ok f', w')
    /\ File.size f' = 7
    /\ read_file alice 1 None w' = (Ok (f', bytes_of "goodbye"), w'').
Proof.
  assert (Hok : is_ok (fst (update_file (H := sample_platform)
                  default_settings alice 1 (bytes_of "goodbye") None
                  one_file_world)) = true)
    by (vm_compute; reflexivity).
  destruct (update_file (H := sample_platform) default_settings alice 1
              (bytes_of "goodbye") None one_file_world)
    as [[f'|e] w'] eqn:Hu; [|discriminate Hok].
  destruct (update_then_read (H := sample_platform) default_settings alice 1
              (bytes_of "goodbye") None None one_file_world w' f' Hu)
    as (_ & Hsize & _ & w'' & Hread).
  exists f', w', w''. split; [reflexivity|]. split; [exact Hsize|exact Hread].
Defined.

Lemma update_file_failure_harmless_witness :
  exists e w',
    update_file (H := sample_platform) default_settings alice 5
      (bytes_of "goodbye") None one_file_world = (Err e, w')
    /\ files w' = files one_file_world /\ disk w' = disk one_file_world.
Proof.
  assert (Hok : is_ok (fst (update_file (H := sample_platform)
                  default_settings alice 5 (bytes_of "goodbye") None
                  one_file_world)) = false)
    by (vm_compute; reflexivity).
  destruct (update_file (H := sample_platform) default_settings alice 5
              (bytes_of "goodbye") None one_file_world)
    as [[f'|e] w'] eqn:Hu; [discriminate Hok|].
  destruct (update_file_failure_harmless (H := sample_platform)
              default_settings alice 5 (bytes_of "goodbye") None
              one_file_world w' e Hu) as (Hf & Hd & _).
  exists e, w'. split; [reflexivity|]. split; [exact Hf|exact Hd].
Defined.

Lemma delete_then_gone_witness :
  exists w',
    delete_file alice 1 None one_file_world = (Ok true, w')
    /\ files w' !! 1 = None
    /\ fst (delete_file alice 1 None w') = Err NotFound.
Proof.
  assert (Hok : fst (delete_file alice 1 None one_file_world) = Ok true)
    by (vm_compute; reflexivity).
  destruct (delete_file alice 1 None one_file_world) as [r w'] eqn:Hd.
  cbn [fst] in Hok. subst r.
  destruct (delete_then_gone alice 1 None None one_file_world w' Hd)
    as (Hnone & _ & Hagain & _).
  exists w'. split; [reflexivity|]. split; [exact Hnone|exact Hagain].
Defined.

Lemma other_owner_not_found_witness :
  fst (read_file bob 1 None one_file_world) = Err NotFound.
Proof.
  assert (Hsome : option_map File.owner_id (files one_file_world !! 1)
                  = Some 1) by (vm_compute; reflexivity).
  destruct (files one_file_world !! 1) as [f|] eqn:Hf; [|discriminate Hsome].
  refine (proj1 (other_owner_not_found (H := sample_platform) default_settings
                   bob 1 f [] None one_file_world Hf _)).
  injection Hsome as ->. discriminate.
Defined.

(** ** The ids of the store *)

Section StoreInvariant.
Context `{Platform}.
Variable settings : Settings.

(** X12: if every record sits under its own id, below the next id of the
    sequence, then this still holds after [create_file], [read_file],
    [update_file] and [delete_file], whatever they return; and
    [create_file] leaves every record that was there in place. *)
Theorem store_ok_preserved (user : User.t) (filename : str)
    (content : bytes) (encrypt : bool) (directory_id : option Z)
    (file_id : Z) (ip_address : option str) (w : World) :
  store_ok w ->
  store_ok (snd (create_file settings user filename content encrypt
                   directory_id ip_address w))
  /\ store_ok (snd (read_file user file_id ip_address w))
  /\ store_ok (snd (update_file settings user file_id content ip_address w))
  /\ store_ok (snd (delete_file user file_id ip_address w))
  /\ (forall id f,
        files w !! id = Some f ->
        files (snd (create_file settings user filename content encrypt
                      directory_id ip_address w)) !! id = Some f).
Proof.
  intros Hok.
  assert (Hcreate :
    store_ok (snd (create_file settings user filename content encrypt
                     directory_id ip_address w))
    /\ (forall id f,
          files w !! id = Some f ->
          files (snd (create_file settings user filename content encrypt
                        directory_id ip_address w)) !! id = Some f)).
  { destruct (create_file _ _ _ _ _ _ _ w) as [[f|e] w'] eqn:Hc; cbn [snd].
    - apply create_file_ok in Hc
        as (name & d1 & entry & _ & _ & _ & _ & _ & _ & Hfeq & Hf & Hseq & _).
      split.
      + intros id g. rewrite Hf, Hseq.
        destruct (decide (id = file_seq w)) as [->|Hne].
        * rewrite lookup_insert_eq. intros [= <-]. rewrite Hfeq. cbn. lia.
        * rewrite lookup_insert_ne by done. intros Hg.
          destruct (Hok id g Hg). lia.
      + intros id g Hg. rewrite Hf.
        destruct (Hok id g Hg) as [_ Hlt].
        rewrite lookup_insert_ne; [done|lia].
    - rewrite create_file_unfold in Hc.
      destruct (create_file_try_cases settings user filename content encrypt
                  directory_id ip_address w) as [l Hcase].
      assert (Hkeep : files w' = files w /\ file_seq w' = file_seq w).
      { cbv zeta in Hcase.
        destruct (max_file_size settings <? len content).
        { rewrite Hcase in Hc. by injection Hc as _ <-. }
        destruct (is_structured filename && negb _).
        { rewrite Hcase in Hc. by injection Hc as _ <-. }
        destruct (_validate_filename filename) as [name|e'].
        2:{ rewrite Hcase in Hc. by injection Hc as _ <-. }
        destruct (mkdir_exist_ok _ _) as [d1|e'].
        2:{ rewrite Hcase in Hc. by injection Hc as _ <-. }
        destruct (map_to_list _) as [|r1 [|r2 rows]].
        2,3: rewrite Hcase in Hc; by injection Hc as _ <-.
        destruct (fs_write_bytes d1 _ _) as [d2|e'].
        - destruct Hcase as (w1 & entry & Hrun & _). by rewrite Hrun in Hc.
        - destruct Hcase as (w1 & Hrun & Hf1 & _ & _ & _ & Hs1).
          rewrite Hrun in Hc. by injection Hc as _ <-. }
      destruct Hkeep as [Hf Hseq]. split.
      + intros id g. rewrite Hf, Hseq. apply Hok.
      + intros id g. by rewrite Hf. }
  split; [apply Hcreate|]. split; [|split; [|split; [|apply Hcreate]]].
  - destruct (read_file_cases user file_id ip_address w)
      as (w' & entry & Hr & Hf & _ & _ & _ & _ & Hseq).
    rewrite Hr. cbn [snd]. intros id g. rewrite Hf, Hseq. apply Hok.
  - destruct (update_file_cases settings user file_id content ip_address w)
      as (w' & entry & Hr & Hf & _ & _ & _ & _ & Hseq).
    rewrite Hr. cbn [snd]. intros id g. rewrite Hf, Hseq.
    unfold update_outcome.
    destruct (matching_record user file_id w) as [f|] eqn:Hm; [|apply Hok].
    destruct (matching_record_id _ _ _ _ Hm) as (Hlook & Hid & _).
    destruct (_ <? _); [apply Hok|].
    destruct (File.is_encrypted f); [apply Hok|].
    destruct (fs_write_bytes _ _ _); [|apply Hok].
    destruct (decide (id = file_id)) as [->|Hne].
    + rewrite lookup_insert_eq. intros [= <-]. cbn.
      split; [done|]. by destruct (Hok _ _ Hlook).
    + rewrite lookup_insert_ne by done. apply Hok.
  - destruct (delete_file_cases user file_id ip_address w)
      as (w' & entry & Hr & Hf & _ & _ & _ & _ & Hseq).
    rewrite Hr. cbn [snd]. intros id g. rewrite Hf, Hseq.
    destruct (is_ok _); [|apply Hok].
    destruct (decide (id = file_id)) as [->|Hne].
    + by rewrite lookup_delete_eq.
    + rewrite lookup_delete_ne by done. apply Hok.
Qed.
End StoreInvariant.

Lemma store_ok_preserved_witness :
  store_ok (snd (create_file (H := sample_platform) default_settings alice
                   (py "a.txt") (bytes_of "hello") false None None
                   fresh_world)).
Proof.
  refine (proj1 (store_ok_preserved (H := sample_platform) default_settings
                   alice (py "a.txt") (bytes_of "hello") false None 1 None
                   fresh_world _)).
  intros id f Hf. cbn in Hf. by rewrite lookup_empty in Hf.
Defined.

(** ** The archive validator and the extraction *)

Lemma entry_verdict_none (settings : Settings) (e : ZipInfo.t) :
  entry_verdict settings e = None <-> entry_admissible settings e.
Proof.
  unfold entry_verdict, entry_admissible.
  destruct (ZipInfo.is_dir e); [by split; [left|]|].
  destruct (Z.ltb_spec (max_file_size settings) (ZipInfo.file_size e)).
  { split; [done|]. intros [|[? _]]; [done|lia]. }
  destruct (Z.ltb_spec 0 (ZipInfo.compress_size e)); cbn [andb].
  - destruct (float_gt _ _) eqn:Hq.
    + split; [done|]. intros [|(_ & Hr & _)]; [done|].
      by specialize (Hr ltac:(done)).
    + destruct (dangerous_name _); [split; [done|]; by intros [|(_ & _ & ?)]|].
      split; [|done]. intros _. right. by split.
  - destruct (dangerous_name _); [split; [done|]; by intros [|(_ & _ & ?)]|].
    split; [|done]. intros _. right. split; [done|]. split; [|done]. lia.
Qed.

(** X13: an archive passes [_validate_zip_archive] exactly when every
    non-directory entry is within the file size limit, has a ratio not above
    100 (when its compressed size is positive) and a name without [..] and
    without a leading [/], the non-directory entries are at most
    [max_archive_files], their sizes add up to at most [max_zip_size], and
    the mean of the ratios is not above 50.  Ratios, sum and mean are the
    floats the code computes; the early exits of the loop and the order of
    its checks do not matter for the verdict. *)
Theorem validate_zip_passes_iff `{Platform} (settings : Settings)
    (zipf : list ZipInfo.t) :
  validate_zip settings zipf = Ok tt
  <-> Forall (entry_admissible settings) zipf
      /\ len (active_entries zipf) <= max_archive_files settings
      /\ declared_total zipf <= max_zip_size settings
      /\ float_gt (mean (declared_ratios zipf)) (float_of_int 50) = false.
Proof.
  unfold validate_zip. split.
  - destruct (validate_entries settings zipf 0 0 []) as [[[t c] r]|e] eqn:Hrun;
      [|done].
    destruct (validate_entries_ok _ _ _ _ _ _ _ _ Hrun) as (-> & -> & -> & Hall).
    rewrite !Z.add_0_l, app_nil_l.
    destruct (Z.ltb_spec (max_archive_files settings)
                (len (active_entries zipf))); [done|].
    destruct (Z.ltb_spec (max_zip_size settings) (declared_total zipf));
      [done|].
    intros Hmean. split; [|split; [done|split; [done|]]].
    + eapply Forall_impl; [exact Hall|]. intros e. apply entry_verdict_none.
    + destruct (declared_ratios zipf) eqn:Hr; [reflexivity|].
      rewrite bool_decide_eq_false_2 in Hmean by done. cbn [negb andb] in Hmean.
      by destruct (float_gt _ _).
  - intros (Hall & Hcount & Htotal & Hmean).
    rewrite validate_entries_total.
    2:{ eapply Forall_impl; [exact Hall|]. intros e. apply entry_verdict_none. }
    rewrite !Z.add_0_l, app_nil_l.
    destruct (Z.ltb_spec (max_archive_files settings)
                (len (active_entries zipf))); [lia|].
    destruct (Z.ltb_spec (max_zip_size settings) (declared_total zipf)); [lia|].
    by rewrite Hmean, andb_false_r.
Qed.

Lemma _validate_zip_entry_world (file_info : ZipInfo.t) (extract_dir : path)
    (w : World) :
  snd (_validate_zip_entry file_info extract_dir w) = w.
Proof.
  unfold _validate_zip_entry, bind, lift.
  destruct (_validate_filename (ZipInfo.filename file_info)) as [name|e];
    [|done].
  destruct (relative_to _ _); [|done]. cbn [ret].
  unfold raise_if. by destruct (bool_decide _).
Qed.

(** X14: [_validate_zip_entry] changes nothing and never raises the
    traversal error: the name is sanitized before the path is resolved.  It
    either returns, or raises InvalidName (the name does not sanitize) or
    ReservedName (the sanitized name, in upper case and up to its first dot,
    is a device name). *)
Theorem _validate_zip_entry_outcomes (file_info : ZipInfo.t)
    (extract_dir : path) (w : World) :
  snd (_validate_zip_entry file_info extract_dir w) = w
  /\ fst (_validate_zip_entry file_info extract_dir w) =
     match _validate_filename (ZipInfo.filename file_info) with
     | Err _ => Err InvalidName
     | Ok name =>
         if bool_decide (List.hd [] (split_on ch_dot (upper name))
                         ∈ reserved_names)
         then Err ReservedName else Ok tt
     end.
Proof.
  unfold _validate_zip_entry, bind, lift.
  destruct (_validate_filename (ZipInfo.filename file_info)) as [name|e]
    eqn:Hname.
  2:{ split; [done|]. cbn. f_equal. unfold _validate_filename in Hname.
      destruct (_ || _); [congruence|].
      destruct (strip_chars _ _); congruence. }
  destruct (_validate_filename_safe _ _ Hname) as [Hslash Hdd].
  unfold path_join. rewrite (starts_with_slash name Hslash).
  assert (Hrel : relative_to (resolve (extract_dir ++ parse_path name))
                   (resolve extract_dir) <> None).
  { destruct (parse_path_component name Hslash) as [-> | ->].
    - rewrite app_nil_r.
      rewrite <- (app_nil_r (resolve extract_dir)) at 1.
      by rewrite relative_to_app.
    - rewrite resolve_snoc by done. by rewrite relative_to_app. }
  destruct (relative_to _ _); [|done]. cbn [ret].
  unfold raise_if. by destruct (bool_decide _).
Qed.

Section ExtractionProperties.
Context `{Platform}.
Variable settings : Settings.

Lemma create_file_decompressed (user : User.t) (filename : str)
    (content : bytes) (encrypt : bool) (directory_id : option Z)
    (ip_address : option str) (w : World) :
  decompressed (snd (create_file settings user filename content encrypt
                       directory_id ip_address w)) = decompressed w.
Proof.
  destruct (create_file _ _ _ _ _ _ _ w) as [[f|e] w'] eqn:Hc; cbn [snd].
  - by apply create_file_ok in Hc
      as (name & d1 & entry & _ & _ & _ & _ & _ & _ & _ & _ & _ & _ & _ & _ & ?).
  - by apply create_file_err in Hc as (_ & _ & ?).
Qed.

Lemma extract_entries_ok (infos : list ZipInfo.t) (extract_dir : path)
    (user : User.t) (ip_address : option str) (acc extracted : list File.t)
    (w w' : World) :
  extract_entries settings infos extract_dir user ip_address acc w
    = (Ok extracted, w') ->
  exists new,
    extracted = acc ++ new
    /\ Forall2 extracted_from new (active_entries infos)
    /\ decompressed w'
       = decompressed w ++ List.map ZipInfo.filename (active_entries infos).
Proof.
  revert acc w. induction infos as [|e infos IH]; intros acc w.
  - cbn. intros [= <- <-]. exists []. rewrite !app_nil_r.
    split; [done|]. by split; [constructor|].
  - cbn [extract_entries]. unfold active_entries in *. cbn [List.filter].
    destruct (ZipInfo.is_dir e); cbn [negb]; [apply IH|].
    intros Hrun.
    apply bind_ok in Hrun as (? & w1 & Hentry & Hrun).
    pose proof (_validate_zip_entry_world e extract_dir w) as Hw.
    rewrite Hentry in Hw. cbn [snd] in Hw. subst w1.
    apply bind_ok in Hrun as (content & w2 & Hread & Hrun).
    unfold zip_read, bind, modify, ret in Hread. injection Hread as <- <-.
    apply bind_ok in Hrun as (f & w3 & Hcreate & Hrun).
    pose proof (create_file_decompressed user
                  (py "extracted_" ++ ZipInfo.filename e) (ZipInfo.payload e)
                  false None ip_address
                  (with_decompressed
                     (decompressed w ++ [ZipInfo.filename e]) w)) as Hdec.
    rewrite Hcreate in Hdec. cbn [snd decompressed with_decompressed] in Hdec.
    apply create_file_ok in Hcreate
      as (name & d1 & entry & _ & _ & _ & _ & _ & _ & -> & _).
    apply IH in Hrun as (new & -> & Hall & Hdec').
    eexists (_ :: new). rewrite <- app_assoc. split; [reflexivity|].
    split; [constructor; [by repeat split|done]|].
    rewrite Hdec', Hdec. cbn [List.map]. by rewrite <- app_assoc.
Qed.

(** X15: when [_safe_zip_extraction] returns, it has decompressed the
    non-directory entries of the archive, each once and in the order of the
    archive, and it returns one record for each of them, in the same order,
    named [extracted_] followed by the entry name, not encrypted, in the root
    directory, with the length of the payload as size. *)
Theorem _safe_zip_extraction_ok (zipf : list ZipInfo.t) (extract_dir : path)
    (user : User.t) (ip_address : option str) (extracted : list File.t)
    (w w' : World) :
  _safe_zip_extraction settings zipf extract_dir user ip_address w
    = (Ok extracted, w') ->
  validate_zip settings zipf = Ok tt
  /\ Forall2 extracted_from extracted (active_entries zipf)
  /\ decompressed w'
     = decompressed w ++ List.map ZipInfo.filename (active_entries zipf).
Proof.
  unfold _safe_zip_extraction, try_except.
  destruct (bind _ _ w) as [[fs|e] w1] eqn:Hrun; [|done].
  intros [= <- <-].
  apply bind_ok in Hrun as ([] & w2 & Hval & Hrun).
  unfold _validate_zip_archive, bind, lift in Hval.
  destruct (validate_zip settings zipf) as [[]|e] eqn:Hv; [|done].
  unfold logger, modify in Hval. injection Hval as <-.
  apply extract_entries_ok in Hrun as (new & -> & Hall & Hdec).
  split; [done|]. by split.
Qed.
End ExtractionProperties.

Lemma _safe_zip_extraction_ok_witness :
  exists extracted w',
    _safe_zip_extraction (H := sample_platform) default_settings
      [zip_entry "docs/" 0 0 ""; zip_entry "a.txt" 5 5 "hello"]
      [py "app"; py "safe_storage"; py "user_1"; py "temp_extract_1"]
      alice None fresh_world = (Ok extracted, w')
    /\ decompressed w' = [py "a.txt"]
    /\ List.length extracted = 1%nat.
Proof.
  assert (Hok : is_ok (fst (_safe_zip_extraction (H := sample_platform)
                  default_settings
                  [zip_entry "docs/" 0 0 ""; zip_entry "a.txt" 5 5 "hello"]
                  [py "app"; py "safe_storage"; py "user_1";
                   py "temp_extract_1"]
                  alice None fresh_world)) = true)
    by (vm_compute; reflexivity).
  destruct (_safe_zip_extraction (H := sample_platform) default_settings
              [zip_entry "docs/" 0 0 ""; zip_entry "a.txt" 5 5 "hello"]
              [py "app"; py "safe_storage"; py "user_1"; py "temp_extract_1"]
              alice None fresh_world) as [[extracted|e] w'] eqn:Hx;
    [|discriminate Hok].
  destruct (_safe_zip_extraction_ok (H := sample_platform) default_settings
              _ _ _ _ _ _ _ Hx) as (_ & Hall & Hdec).
  exists extracted, w'. split; [reflexivity|]. split; [exact Hdec|].
  apply Forall2_length in Hall. exact Hall.
Defined.

(** ** Owners and their sandboxes *)

Lemma py_inj (s t : string) : py s = py t -> s = t.
Proof.
  unfold py. intros Heq.
  rewrite <- (string_of_list_ascii_of_string s),
          <- (string_of_list_ascii_of_string t).
  f_equal. revert Heq.
  generalize (list_ascii_of_string s) (list_ascii_of_string t).
  intros l. induction l as [|a l IH]; intros [|b m]; cbn; try done.
  intros [= Hab Hlm]. f_equal; [|by apply IH].
  by rewrite <- (ascii_N_embedding a), <- (ascii_N_embedding b), Hab.
Qed.

Lemma str_of_int_inj (n m : Z) : str_of_int n = str_of_int m -> n = m.
Proof.
  unfold str_of_int. intros Heq%py_inj.
  assert (Hnn : forall z, Z.to_int z <> Decimal.Pos Decimal.Nil
                          /\ Z.to_int z <> Decimal.Neg Decimal.Nil).
  { intros [|p|p]; cbn; split; try done.
    - intros [= Hp]. by apply Unsigned.to_uint_nonnil in Hp.
    - intros [= Hp]. by apply Unsigned.to_uint_nonnil in Hp. }
  apply DecimalZ.to_int_inj.
  assert (Hs : Some (Z.to_int n) = Some (Z.to_int m)); [|by injection Hs].
  destruct (Hnn n), (Hnn m).
  rewrite <- (NilZero.isi (Z.to_int n)), <- (NilZero.isi (Z.to_int m)) by done.
  by rewrite Heq.
Qed.

Lemma user_dir_of_resolve (settings : Settings) (user : User.t) :
  resolve (user_dir_of settings user)
  = resolve (root_path settings) ++ [py "user_" ++ str_of_int (User.id user)].
Proof.
  unfold user_dir_of. apply resolve_snoc.
  intros Heq. apply (f_equal (fun l => List.hd 0%N l)) in Heq.
  by vm_compute in Heq.
Qed.

Section OwnerSeparation.
Context `{Platform}.
Variable settings : Settings.

(** X16: records created for owners with different ids are stored at
    different locations: each lies in the directory [user_<id>] of its
    owner. *)
Theorem storage_locations_of_owners_differ (user1 user2 : User.t)
    (filename1 filename2 : str) (content1 content2 : bytes)
    (encrypt1 encrypt2 : bool) (directory1 directory2 : option Z)
    (ip1 ip2 : option str) (w1 w1' w2 w2' : World) (f1 f2 : File.t) :
  User.id user1 <> User.id user2 ->
  create_file settings user1 filename1 content1 encrypt1 directory1 ip1 w1
    = (Ok f1, w1') ->
  create_file settings user2 filename2 content2 encrypt2 directory2 ip2 w2
    = (Ok f2, w2') ->
  File.storage_path f1 <> File.storage_path f2.
Proof.
  intros Hne Hc1 Hc2.
  apply create_file_location in Hc1 as (n1 & _ & _ & Hp1).
  apply create_file_location in Hc2 as (n2 & _ & _ & Hp2).
  rewrite Hp1, Hp2, !user_dir_of_resolve, <- !app_assoc.
  intros Heq%app_inv_head. injection Heq as Heq _.
  by apply str_of_int_inj in Heq.
Qed.
End OwnerSeparation.

Lemma storage_locations_of_owners_differ_witness :
  exists f1 w1 f2 w2,
    create_file (H := sample_platform) default_settings alice (py "a.txt")
      (bytes_of "hello") false None None fresh_world = (Ok f1, w1)
    /\ create_file (H := sample_platform) default_settings bob (py "a.txt")
         (bytes_of "hello") false None None fresh_world = (Ok f2, w2)
    /\ File.storage_path f1 <> File.storage_path f2.
Proof.
  assert (Hok1 : is_ok (fst (create_file (H := sample_platform)
                   default_settings alice (py "a.txt") (bytes_of "hello")
                   false None None fresh_world)) = true)
    by (vm_compute; reflexivity).
  assert (Hok2 : is_ok (fst (create_file (H := sample_platform)
                   default_settings bob (py "a.txt") (bytes_of "hello")
                   false None None fresh_world)) = true)
    by (vm_compute; reflexivity).
  destruct (create_file (H := sample_platform) default_settings alice
              (py "a.txt") (bytes_of "hello") false None None fresh_world)
    as [[f1|e1] w1] eqn:Hc1; [|discriminate Hok1].
  destruct (create_file (H := sample_platform) default_settings bob
              (py "a.txt") (bytes_of "hello") false None None fresh_world)
    as [[f2|e2] w2] eqn:Hc2; [|discriminate Hok2].
  exists f1, w1, f2, w2. split; [reflexivity|]. split; [reflexivity|].
  apply (storage_locations_of_owners_differ (H := sample_platform)
           default_settings alice bob _ _ _ _ _ _ _ _ _ _ _ _ _ _ f1 f2
           ltac:(discriminate) Hc1 Hc2).
Defined.

(** ** The depth of a JSON value *)

Lemma pyval_nested_ind (P : pyval -> Prop) :
  P PNone -> (forall b, P (PBool b)) -> (forall n, P (PNum n)) ->
  (forall s, P (PStr s)) ->
  (forall items, Forall P items -> P (PList items)) ->
  (forall entries, Forall (fun kv => P (snd kv)) entries -> P (PDict entries)) ->
  forall v, P v.
Proof.
  intros Hnone Hbool Hnum Hstr Hlist Hdict.
  fix IH 1. intros [|b|n|s|items|entries].
  - exact Hnone.
  - apply Hbool.
  - apply Hnum.
  - apply Hstr.
  - apply Hlist. induction items as [|x xs IHxs]; constructor.
    + apply IH.
    + exact IHxs.
  - apply Hdict. induction entries as [|[k x] xs IHxs]; constructor.
    + apply IH.
    + exact IHxs.
Qed.

Lemma max_of_snoc (xs : list Z) (d : Z) :
  max_of (xs ++ [d]) = List.fold_right Z.max d xs.
Proof.
  destruct xs as [|x xs]; [done|]. cbn [max_of app fold_right].
  revert x. induction xs as [|y xs IH]; intros x; cbn; [done|].
  rewrite IH. cbn. lia.
Qed.

Lemma min_fold_right_max (xs : list Z) (d k : Z) :
  Z.min (List.fold_right Z.max d xs) k
  = List.fold_right Z.max (Z.min d k) (List.map (fun x => Z.min x k) xs).
Proof. induction xs as [|x xs IH]; cbn; [done|]. rewrite <- IH. lia. Qed.

Lemma add_fold_right_max (xs : list Z) (d : Z) :
  d + List.fold_right Z.max 0 xs
  = List.fold_right Z.max d (List.map (fun x => d + x) xs).
Proof. induction xs as [|x xs IH]; cbn; [lia|]. rewrite <- IH. lia. Qed.

Lemma nesting_nonneg (obj : pyval) : 0 <= nesting obj.
Proof.
  destruct obj as [| | | |items|entries]; cbn; try lia.
  - induction items; cbn; lia.
  - induction entries; cbn; lia.
Qed.

Lemma _get_json_depth_capped (obj : pyval) :
  forall depth,
    Z.min (_get_json_depth obj depth) (max_json_depth + 1)
    = Z.min (depth + nesting obj) (max_json_depth + 1).
Proof.
  induction obj as [|b|n|s|items IH|entries IH] using pyval_nested_ind;
    intros depth.
  1-4: cbn; destruct (Z.ltb_spec max_json_depth depth); f_equal; lia.
  - change (_get_json_depth (PList items) depth)
      with (if max_json_depth <? depth then depth
            else max_of (List.map (fun item => _get_json_depth item (depth + 1))
                           items ++ [depth])).
    destruct (Z.ltb_spec max_json_depth depth) as [Hd|Hd].
    { pose proof (nesting_nonneg (PList items)). lia. }
    rewrite max_of_snoc, min_fold_right_max. cbn [nesting].
    rewrite add_fold_right_max, min_fold_right_max. f_equal.
    rewrite !List.map_map. clear Hd.
    induction IH as [|x xs Hx _ IHxs]; [done|]. cbn [List.map].
    rewrite IHxs, Hx. f_equal. f_equal. lia.
  - change (_get_json_depth (PDict entries) depth)
      with (if max_json_depth <? depth then depth
            else max_of (List.map
                           (fun kv => match kv with
                                      | (_, value) =>
                                          _get_json_depth value (depth + 1)
                                      end) entries ++ [depth])).
    destruct (Z.ltb_spec max_json_depth depth) as [Hd|Hd].
    { pose proof (nesting_nonneg (PDict entries)). lia. }
    rewrite max_of_snoc, min_fold_right_max. cbn [nesting].
    rewrite add_fold_right_max, min_fold_right_max. f_equal.
    rewrite !List.map_map. clear Hd.
    induction IH as [|[k x] xs Hx _ IHxs]; [done|]. cbn [List.map].
    rewrite IHxs. cbn [snd] in Hx. rewrite Hx. f_equal. f_equal. lia.
Qed.

(** X17: the early return of [_get_json_depth] does not change the verdict:
    a value is within [max_json_depth] exactly when its nesting is, and below
    the limit the function returns the nesting itself. *)
Theorem _get_json_depth_verdict (data : pyval) :
  (_get_json_depth data 0 <=? max_json_depth)
  = (nesting data <=? max_json_depth)
  /\ (nesting data <= max_json_depth -> _get_json_depth data 0 = nesting data).
Proof.
  pose proof (_get_json_depth_capped data 0) as Hcap. rewrite Z.add_0_l in Hcap.
  split.
  - destruct (Z.leb_spec (_get_json_depth data 0) max_json_depth),
             (Z.leb_spec (nesting data) max_json_depth); try done; lia.
  - intros Hle. lia.
Qed.

(** ** ArchiveService.create_zip_archive *)

Lemma try_except_ok {A} (m : M A) (h : error -> M A) (w w' : World) (a : A) :
  (forall e w1 b w2, h e w1 <> (Ok b, w2)) ->
  try_except m h w = (Ok a, w') -> m w = (Ok a, w').
Proof.
  intros Hh. unfold try_except. destruct (m w) as [[b|e] w1]; [done|].
  intros Hrun. by apply Hh in Hrun.
Qed.

Lemma log_operation_run (user : User.t) (kind : OperationType) (details : str)
    (file : option File.t) (ip_address : option str) (success : bool)
    (error_message : option error) (w w' : World) (entry : Operation.t) :
  log_operation user kind details file ip_address success error_message w
    = (Ok entry, w') ->
  files w' = files w /\ disk w' = disk w.
Proof.
  unfold log_operation, bind, modify, logger, ret. by intros [= _ <-].
Qed.

Section ArchiveCreationProperties.
Context `{Platform} {zip_writer : ZipWriter}.
Variable settings : Settings.

(** X18: the record [create_zip_archive] returns is in the table and belongs
    to the caller, but its bytes are gone: the archive is written to the
    location [create_file] stores the record's bytes at, and unlinked once
    the record is made.  Reading the archive back fails with "File not found
    on disk". *)
Theorem create_zip_archive_unreadable (user : User.t) (file_ids : list Z)
    (archive_name : str) (ip_address read_ip : option str) (w w' : World)
    (f : File.t) :
  create_zip_archive settings user file_ids archive_name ip_address w
    = (Ok f, w') ->
  files w' !! File.id f = Some f
  /\ File.owner_id f = User.id user
  /\ path_exists (disk w') (File.storage_path f) = false
  /\ fst (read_file user (File.id f) read_ip w') = Err NotFound.
Proof.
  unfold create_zip_archive.
  set (name := if ends_with _ _ then _ else _).
  intros Hrun. apply try_except_ok in Hrun.
  2:{ intros e w1 b w2 Hh.
      apply bind_ok in Hh as (? & ? & _ & Hh).
      by apply bind_ok in Hh as (? & ? & _ & Hh). }
  apply bind_ok in Hrun as (archive_path & w1 & Hpath & Hrun).
  apply bind_ok in Hrun as (read & w2 & _ & Hrun).
  apply bind_ok in Hrun as ([] & w3 & Hwrite & Hrun).
  apply bind_ok in Hrun as (content & w4 & Hcontent & Hrun).
  apply bind_ok in Hrun as (record & w5 & Hcreate & Hrun).
  apply bind_ok in Hrun as (entry & w6 & Hlog & Hrun).
  apply bind_ok in Hrun as ([] & w7 & Hunlink & Hrun).
  apply bind_ok in Hrun as ([] & w8 & Hinfo & Hrun).
  unfold ret in Hrun. injection Hrun as -> ->.
  assert (H8 : files w' = files w7 /\ disk w' = disk w7).
  { unfold logger, modify in Hinfo. by injection Hinfo as <-. }
  assert (H7 : files w7 = files w6
               /\ disk w7 = delete (resolve archive_path) (disk w6)).
  { unfold unlink, fs_unlink in Hunlink.
    destruct (disk w6 !! _) as [[data|]|]; try done.
    by injection Hunlink as <-. }
  apply log_operation_run in Hlog as [H6 _].
  assert (Hne : resolve archive_path <> []).
  { unfold write_bytes in Hwrite.
    destruct (fs_write_bytes _ _ _) as [d3|e] eqn:Hw; [|done].
    apply fs_write_bytes_ok in Hw as (_ & Hnodir & _).
    unfold is_dir in Hnodir. intros Hnil. by rewrite Hnil in Hnodir. }
  (* the archive is written where the record will point *)
  pose proof (_get_safe_file_path_run settings user name w) as Hsafe.
  destruct (_validate_filename name) as [sanitized|e] eqn:Hname.
  2:{ destruct Hsafe as [_ Hsafe]. congruence. }
  destruct (mkdir_exist_ok _ _) as [d1|e].
  2:{ destruct Hsafe as [_ Hsafe]. congruence. }
  destruct Hsafe as [Hsafe _]. rewrite Hsafe in Hpath.
  injection Hpath as Hpath _.
  apply create_file_ok in Hcreate
    as (sanitized' & d4 & entry' & _ & _ & Hname' & _ & _ & _ & Hf & H5 & _).
  rewrite Hname in Hname'. injection Hname' as <-.
  assert (Hid : File.id f = file_seq w4) by by rewrite Hf.
  assert (Hown : File.owner_id f = User.id user) by by rewrite Hf.
  assert (Hsp : File.storage_path f = archive_path).
  { rewrite Hf, <- Hpath. reflexivity. }
  clear Hf.
  assert (Hin : files w' !! File.id f = Some f).
  { rewrite (proj1 H8), (proj1 H7), H6, H5, Hid. apply lookup_insert_eq. }
  assert (Hgone : path_exists (disk w') (File.storage_path f) = false).
  { rewrite (proj2 H8), (proj2 H7), Hsp. unfold path_exists.
    destruct (resolve archive_path) as [|c q]; [done|].
    by rewrite lookup_delete_eq. }
  split; [exact Hin|]. split; [exact Hown|]. split; [exact Hgone|].
  destruct (read_file_cases user (File.id f) read_ip w')
    as (w9 & entry9 & Hread & _).
  rewrite Hread. cbn [fst]. unfold read_outcome, matching_record.
  rewrite Hin, Hown, !Z.eqb_refl. cbn [andb]. by rewrite Hgone.
Qed.
End ArchiveCreationProperties.

Lemma create_zip_archive_unreadable_witness :
  exists f w',
    create_zip_archive (H := sample_platform) (zip_writer := sample_zip_writer)
      default_settings alice [1] (py "pack") None one_file_world = (Ok f, w')
    /\ files w' !! File.id f = Some f
    /\ fst (read_file alice (File.id f) None w') = Err NotFound.
Proof.
  assert (Hok : is_ok (fst (create_zip_archive (H := sample_platform)
                  (zip_writer := sample_zip_writer) default_settings alice [1]
                  (py "pack") None one_file_world)) = true)
    by (vm_compute; reflexivity).
  destruct (create_zip_archive (H := sample_platform)
              (zip_writer := sample_zip_writer) default_settings alice [1]
              (py "pack") None one_file_world) as [[f|e] w'] eqn:Hc;
    [|discriminate Hok].
  destruct (create_zip_archive_unreadable (H := sample_platform)
              (zip_writer := sample_zip_writer) default_settings alice [1]
              (py "pack") None None one_file_world w' f Hc)
    as (Hin & _ & _ & Hread).
  exists f, w'. split; [reflexivity|]. split; [exact Hin|exact Hread].
Defined.

(** ** The ratio of an entry is a finite float *)

Lemma digits2_pos_spec (p : positive) :
  2 ^ (Zpos (SpecFloat.digits2_pos p) - 1) <= Zpos p
  < 2 ^ Zpos (SpecFloat.digits2_pos p).
Proof.
  induction p as [p IH|p IH|]; cbn [SpecFloat.digits2_pos].
  - rewrite Pos2Z.inj_succ.
    replace (Z.succ (Zpos (SpecFloat.digits2_pos p)) - 1)
      with (Z.succ (Zpos (SpecFloat.digits2_pos p) - 1)) by lia.
    rewrite !Z.pow_succ_r by lia. lia.
  - rewrite Pos2Z.inj_succ.
    replace (Z.succ (Zpos (SpecFloat.digits2_pos p)) - 1)
      with (Z.succ (Zpos (SpecFloat.digits2_pos p) - 1)) by lia.
    rewrite !Z.pow_succ_r by lia. lia.
  - cbn. lia.
Qed.

Lemma Zdigits2_nonneg (m : Z) : 0 <= m -> 0 <= SpecFloat.Zdigits2 m.
Proof. destruct m; cbn; lia. Qed.

Lemma Zdigits2_upper (m k : Z) :
  0 <= m -> 0 <= k -> m < 2 ^ k -> SpecFloat.Zdigits2 m <= k.
Proof.
  intros Hm Hk Hlt. destruct m as [|p|p]; cbn; [lia| |lia].
  destruct (digits2_pos_spec p) as [Hlo _].
  destruct (Z.le_gt_cases (Zpos (SpecFloat.digits2_pos p)) k) as [|Hgt]; [done|].
  assert (2 ^ k <= 2 ^ (Zpos (SpecFloat.digits2_pos p) - 1))
    by (apply Z.pow_le_mono_r; lia).
  lia.
Qed.

Lemma Zdigits2_lt (m : Z) : 0 <= m -> m < 2 ^ SpecFloat.Zdigits2 m.
Proof.
  intros Hm. destruct m as [|p|p]; cbn; [lia| |lia].
  apply digits2_pos_spec.
Qed.

Lemma Zdigits2_succ (m : Z) :
  0 <= m -> SpecFloat.Zdigits2 (m + 1) <= SpecFloat.Zdigits2 m + 1.
Proof.
  intros Hm. pose proof (Zdigits2_lt m Hm) as Hlt.
  pose proof (Zdigits2_nonneg m Hm).
  apply Zdigits2_upper; [lia..|].
  rewrite Z.pow_add_r by lia. lia.
Qed.

(** shifting right *)
Lemma shr_1_m (mrs : SpecFloat.shr_record) :
  0 <= SpecFloat.shr_m mrs ->
  0 <= SpecFloat.shr_m (SpecFloat.shr_1 mrs)
  /\ SpecFloat.Zdigits2 (SpecFloat.shr_m (SpecFloat.shr_1 mrs))
     = Z.max 0 (SpecFloat.Zdigits2 (SpecFloat.shr_m mrs) - 1).
Proof.
  destruct mrs as [m r s]. cbn [SpecFloat.shr_m]. intros Hm.
  destruct m as [|[p|p|]|p]; cbn; try lia.
Qed.

Lemma iter_pos_nat {A} (f : A -> A) (p : positive) (x : A) :
  SpecFloat.iter_pos f p x = Nat.iter (Pos.to_nat p) f x.
Proof.
  revert x. induction p as [p IH|p IH|]; intros x; cbn [SpecFloat.iter_pos].
  - rewrite !IH, <- Nat.iter_add, <- Nat.iter_succ_r. f_equal. lia.
  - rewrite !IH, <- Nat.iter_add. f_equal. lia.
  - done.
Qed.

Lemma iter_shr_1_m (n : nat) (mrs : SpecFloat.shr_record) :
  0 <= SpecFloat.shr_m mrs ->
  0 <= SpecFloat.shr_m (Nat.iter n SpecFloat.shr_1 mrs)
  /\ SpecFloat.Zdigits2 (SpecFloat.shr_m (Nat.iter n SpecFloat.shr_1 mrs))
     = Z.max 0 (SpecFloat.Zdigits2 (SpecFloat.shr_m mrs) - Z.of_nat n).
Proof.
  intros Hm. induction n as [|n [IH0 IH]].
  - change (Nat.iter 0 SpecFloat.shr_1 mrs) with mrs.
    split; [done|]. pose proof (Zdigits2_nonneg _ Hm). lia.
  - rewrite Nat.iter_succ.
    destruct (shr_1_m _ IH0) as [H0 H1]. split; [done|]. rewrite H1, IH. lia.
Qed.

Lemma shr_m_record_of_loc (m : Z) (l : SpecFloat.location) :
  SpecFloat.shr_m (SpecFloat.shr_record_of_loc m l) = m.
Proof. by destruct l as [|[]]. Qed.

(** One rounding step: the mantissa stays non-negative, and neither the
    exponent nor the magnitude grows beyond what it was. *)
Lemma shr_fexp_bounds (m e : Z) (l : SpecFloat.location) :
  0 <= m ->
  let r := SpecFloat.shr_fexp 53 1024 m e l in
  0 <= SpecFloat.shr_m (fst r)
  /\ snd r <= Z.max e (Z.max (SpecFloat.Zdigits2 m + e - 53) (-1074))
  /\ SpecFloat.Zdigits2 (SpecFloat.shr_m (fst r)) + snd r
     <= Z.max (SpecFloat.Zdigits2 m + e) (snd r).
Proof.
  intros Hm. cbv zeta. unfold SpecFloat.shr_fexp, SpecFloat.shr.
  pose proof (Zdigits2_nonneg m Hm) as Hd.
  assert (Hfexp : SpecFloat.fexp 53 1024 (SpecFloat.Zdigits2 m + e)
                  = Z.max (SpecFloat.Zdigits2 m + e - 53) (-1074))
    by reflexivity.
  destruct (SpecFloat.fexp 53 1024 (SpecFloat.Zdigits2 m + e) - e)
    as [|p|p] eqn:Hn; cbn [fst snd]; rewrite ?shr_m_record_of_loc.
  - lia.
  - rewrite iter_pos_nat.
    destruct (iter_shr_1_m (Pos.to_nat p) (SpecFloat.shr_record_of_loc m l))
      as [H0 H1]; [by rewrite shr_m_record_of_loc|].
    rewrite shr_m_record_of_loc in H1. rewrite H1, positive_nat_Z.
    split; [done|]. lia.
  - lia.
Qed.

Lemma round_nearest_even_bounds (m : Z) (l : SpecFloat.location) :
  0 <= m ->
  0 <= SpecFloat.round_nearest_even m l
  /\ SpecFloat.Zdigits2 (SpecFloat.round_nearest_even m l)
     <= SpecFloat.Zdigits2 m + 1.
Proof.
  intros Hm. pose proof (Zdigits2_succ m Hm).
  unfold SpecFloat.round_nearest_even.
  destruct l as [|[]]; try destruct (Z.even m); split; lia.
Qed.

(** What is rounded is finite when its magnitude is below 2^1023. *)
Lemma binary_round_aux_finite (s : bool) (m e : Z) (l : SpecFloat.location) :
  0 <= m -> SpecFloat.Zdigits2 m + e <= 1023 -> e <= 971 ->
  is_finite (SpecFloat.binary_round_aux 53 1024 s m e l) = true.
Proof.
  intros Hm Hmag He. unfold SpecFloat.binary_round_aux.
  pose proof (shr_fexp_bounds m e l Hm) as H1. cbv zeta in H1.
  destruct (SpecFloat.shr_fexp 53 1024 m e l) as [mrs1 e1].
  cbn [fst snd] in H1. destruct H1 as (Hm1 & He1 & Hmag1).
  destruct (round_nearest_even_bounds (SpecFloat.shr_m mrs1)
              (SpecFloat.loc_of_shr_record mrs1) Hm1) as [Hr0 Hrd].
  pose proof (shr_fexp_bounds _ e1 SpecFloat.loc_Exact Hr0) as H2.
  cbv zeta in H2.
  destruct (SpecFloat.shr_fexp 53 1024 _ e1 SpecFloat.loc_Exact) as [mrs2 e2].
  cbn [fst snd] in H2. destruct H2 as (Hm2 & He2 & _).
  destruct (SpecFloat.shr_m mrs2) as [|p|p]; [done| |lia].
  destruct (Z.leb_spec e2 (1024 - 53)); [done|lia].
Qed.

(** X19: the ratio of an entry whose size is below 2^1023, so of every entry
    of an archive (the sizes are unsigned fields of at most 64 bits), is a
    finite float: the division of [_validate_zip_archive] cannot overflow. *)
Theorem ratio_of_finite (file_size compress_size : Z) :
  0 <= file_size < 2 ^ 1023 -> 0 < compress_size ->
  is_finite (ratio_of file_size compress_size) = true.
Proof.
  intros [Ha0 Ha] Hb. unfold ratio_of, int_truediv.
  destruct compress_size as [|pb|pb]; [lia| |lia].
  destruct file_size as [|pa|pa]; [done| |lia].
  cbn [int_operand SpecFloat.SFdiv]. unfold SpecFloat.SFdiv_core_binary.
  set (d1 := SpecFloat.Zdigits2 (Zpos pa)).
  set (d2 := SpecFloat.Zdigits2 (Zpos pb)).
  assert (Hd1 : 0 <= d1 <= 1023).
  { split; [by apply Zdigits2_nonneg|]. by apply Zdigits2_upper. }
  assert (Hd2 : 0 <= d2) by by apply Zdigits2_nonneg.
  pose proof (Zdigits2_lt (Zpos pa) ltac:(lia)) as Hlt. fold d1 in Hlt.
  set (e := Z.min (SpecFloat.fexp 53 1024 (d1 + 0 - (d2 + 0))) (0 - 0)).
  assert (He : e <= 0) by lia.
  set (m := match 0 - 0 - e with
            | 0 => Zpos pa
            | Zpos _ => Z.shiftl (Zpos pa) (0 - 0 - e)
            | Zneg _ => 0
            end).
  assert (Hm : 0 <= m < 2 ^ (d1 - e)).
  { subst m. destruct (0 - 0 - e) as [|p|p] eqn:Hs; [|rewrite <- Hs|lia].
    - replace (d1 - e) with d1 by lia. lia.
    - rewrite Z.shiftl_mul_pow2 by lia.
      replace (d1 - e) with (d1 + (0 - 0 - e)) by lia.
      rewrite Z.pow_add_r by lia.
      assert (0 < 2 ^ (0 - 0 - e)) by (apply Z.pow_pos_nonneg; lia). nia. }
  pose proof (Z_div_mod m (Zpos pb) ltac:(lia)) as Hdiv.
  destruct (Z.div_eucl m (Zpos pb)) as [q r]. destruct Hdiv as [Hq Hr].
  assert (Hq0 : 0 <= q) by nia.
  assert (Hqm : q <= m) by nia.
  apply binary_round_aux_finite; [done| |lia].
  assert (SpecFloat.Zdigits2 q <= d1 - e); [|lia].
  apply Zdigits2_upper; lia.
Qed.

Lemma ratio_of_finite_witness :
  is_finite (ratio_of 18446744073709551615 3) = true.
Proof.
  apply (ratio_of_finite 18446744073709551615 3).
  - split; [discriminate|reflexivity].
  - reflexivity.
Defined.
